(** * Trading engine core: numbers, risk engine, order lifecycle, ledger

    A shallow embedding of the TypeScript services of the trading
    dashboard (risk service, order service, portfolio service, strategy
    engine, indicator library) and the properties the specification
    states about them.

    JavaScript numbers are modelled by [num]: exact rationals extended
    with the two infinities and NaN.  Rounding to binary64 and the sign
    of zero are abstracted away; division by zero, NaN propagation, the
    comparisons with NaN and the truthiness of numbers follow
    ECMAScript.  Where the rounding decides which element of an array is
    read (the quantile index of the historical value at risk), the
    arithmetic is that of binary64, in [Binary64]. *)

From Stdlib Require Import QArith Qround Qabs Qminmax Lqa ZArith List Ascii String.
From Stdlib Require Import SpecFloat.
From stdpp Require Import gmap strings list sorting pretty.
Import ListNotations.

(** ** JavaScript numbers *)

Module JS.

Inductive num : Type :=
  | Fin (q : Q)
  | PInf
  | NInf
  | NaN.

Definition Qltb (a b : Q) : bool := negb (Qle_bool b a).

Definition inf_of (positive : bool) : num := if positive then PInf else NInf.

Definition neg (a : num) : num :=
  match a with
  | Fin x => Fin (- x)
  | PInf => NInf
  | NInf => PInf
  | NaN => NaN
  end.

Definition add (a b : num) : num :=
  match a, b with
  | NaN, _ | _, NaN => NaN
  | Fin x, Fin y => Fin (x + y)
  | PInf, NInf | NInf, PInf => NaN
  | PInf, _ | _, PInf => PInf
  | NInf, _ | _, NInf => NInf
  end.

Definition sub (a b : num) : num :=
  match a, b with
  | Fin x, Fin y => Fin (x - y)
  | _, _ => add a (neg b)
  end.

Definition mul (a b : num) : num :=
  match a, b with
  | NaN, _ | _, NaN => NaN
  | Fin x, Fin y => Fin (x * y)
  | Fin x, PInf | PInf, Fin x =>
      if Qeq_bool x 0 then NaN else inf_of (Qltb 0 x)
  | Fin x, NInf | NInf, Fin x =>
      if Qeq_bool x 0 then NaN else inf_of (Qltb x 0)
  | PInf, PInf | NInf, NInf => PInf
  | PInf, NInf | NInf, PInf => NInf
  end.

Definition div (a b : num) : num :=
  match a, b with
  | NaN, _ | _, NaN => NaN
  | Fin x, Fin y =>
      if Qeq_bool y 0
      then (if Qeq_bool x 0 then NaN else inf_of (Qltb 0 x))
      else Fin (x / y)
  | Fin _, (PInf | NInf) => Fin 0
  | (PInf | NInf), (PInf | NInf) => NaN
  | PInf, Fin y => inf_of (Qle_bool 0 y)
  | NInf, Fin y => inf_of (Qltb y 0)
  end.

(** [a < b]; every comparison with NaN is false. *)
Definition lt (a b : num) : bool :=
  match a, b with
  | NaN, _ | _, NaN => false
  | Fin x, Fin y => Qltb x y
  | PInf, _ | _, NInf => false
  | NInf, _ | _, PInf => true
  end.

Definition gt (a b : num) : bool := lt b a.

(** [a === b] on numbers. *)
Definition eqb (a b : num) : bool :=
  match a, b with
  | Fin x, Fin y => Qeq_bool x y
  | PInf, PInf | NInf, NInf => true
  | _, _ => false
  end.

Definition le (a b : num) : bool := lt a b || eqb a b.
Definition ge (a b : num) : bool := le b a.

(** [Math.abs], [Math.min], [Math.max], [Math.floor]. *)
Definition abs (a : num) : num :=
  match a with
  | Fin x => Fin (Qabs x)
  | PInf | NInf => PInf
  | NaN => NaN
  end.

Definition min (a b : num) : num :=
  match a, b with
  | NaN, _ | _, NaN => NaN
  | Fin x, Fin y => Fin (Qmin x y)
  | _, _ => if lt a b then a else b
  end.

Definition max (a b : num) : num :=
  match a, b with
  | NaN, _ | _, NaN => NaN
  | Fin x, Fin y => Fin (Qmax x y)
  | _, _ => if lt a b then b else a
  end.

Definition floor (a : num) : num :=
  match a with
  | Fin x => Fin (inject_Z (Qfloor x))
  | _ => a
  end.

(** Truthiness of a number: [0] and [NaN] are falsy. *)
Definition truthy (a : num) : bool :=
  match a with
  | Fin x => negb (Qeq_bool x 0)
  | NaN => false
  | PInf | NInf => true
  end.

(** [x || d] where [x] is a possibly undefined number. *)
Definition or_else (x : option num) (d : num) : num :=
  match x with
  | Some v => if truthy v then v else d
  | None => d
  end.

(** [!x] for a possibly undefined number. *)
Definition falsy (x : option num) : bool :=
  match x with
  | Some v => negb (truthy v)
  | None => true
  end.

(** [arr[i]] for a numeric index: defined only at an integer in range. *)
Definition index (arr : list num) (i : num) : option num :=
  match i with
  | Fin x =>
      if Qeq_bool x (inject_Z (Qfloor x)) && (0 <=? Qfloor x)%Z
      then arr !! Z.to_nat (Qfloor x)
      else None
  | _ => None
  end.

Definition of_nat (n : nat) : num := Fin (inject_Z (Z.of_nat n)).

Definition sum (l : list num) : num := fold_left add l (Fin 0).

(** Equality of numbers up to the representation of the rational. *)
Definition num_eq (a b : num) : Prop :=
  match a, b with
  | Fin x, Fin y => x == y
  | PInf, PInf | NInf, NInf | NaN, NaN => True
  | _, _ => False
  end.

#[export] Instance num_equiv : Equiv num := num_eq.

End JS.

Import JS.

Declare Scope num_scope.
Delimit Scope num_scope with num.
Bind Scope num_scope with num.
Notation "a + b" := (JS.add a b) : num_scope.
Notation "a - b" := (JS.sub a b) : num_scope.
Notation "a * b" := (JS.mul a b) : num_scope.
Notation "a / b" := (JS.div a b) : num_scope.
Notation "a <? b" := (JS.lt a b) : num_scope.
Notation "a >? b" := (JS.gt a b) : num_scope.
Notation "a <=? b" := (JS.le a b) : num_scope.
Notation "a >=? b" := (JS.ge a b) : num_scope.
Notation "a =? b" := (JS.eqb a b) : num_scope.

(** ** Binary64 arithmetic

    The operations of IEEE 754 binary64 with rounding to nearest, ties to
    even, on numbers read as the binary64 values nearest to them. *)

Module Binary64.

Definition prec : Z := 53.
Definition emax : Z := 1024.

(** The binary64 value nearest to a rational: the correctly rounded
    quotient of its numerator and denominator. *)
Definition round (q : Q) : spec_float :=
  match Qnum q with
  | Z0 => S754_zero false
  | Zpos n =>
      SFdiv prec emax (S754_finite false n 0) (S754_finite false (Qden q) 0)
  | Zneg n =>
      SFdiv prec emax (S754_finite true n 0) (S754_finite false (Qden q) 0)
  end.

Definition toFloat (x : num) : spec_float :=
  match x with
  | Fin q => round q
  | PInf => S754_infinity false
  | NInf => S754_infinity true
  | NaN => S754_nan
  end.

(** The rational [m * 2 ^ e], negated when [negative]. *)
Definition valueOf (negative : bool) (m : positive) (e : Z) : Q :=
  let magnitude :=
    match e with
    | Zneg p => Zpos m # (2 ^ p)%positive
    | _ => inject_Z (Zpos m * 2 ^ e)
    end in
  if negative then (- magnitude)%Q else magnitude.

Definition ofFloat (f : spec_float) : num :=
  match f with
  | S754_zero _ => Fin 0
  | S754_infinity negative => if negative then NInf else PInf
  | S754_nan => NaN
  | S754_finite negative m e => Fin (valueOf negative m e)
  end.

Definition sub (x y : num) : num :=
  ofFloat (SFsub prec emax (toFloat x) (toFloat y)).

Definition mul (x y : num) : num :=
  ofFloat (SFmul prec emax (toFloat x) (toFloat y)).

End Binary64.


(** A computation that can throw. *)
Inductive result (E A : Type) : Type :=
  | Ok (a : A)
  | Throw (e : E).
Arguments Ok {E A} a.
Arguments Throw {E A} e.

(** ** Strings as the source uses them *)

(** [hay.includes(needle)] *)
Fixpoint includes (needle hay : string) : bool :=
  String.prefix needle hay ||
  match hay with
  | EmptyString => false
  | String _ rest => includes needle rest
  end.

(** [s.split(c)] for a one-character separator; never empty. *)
Fixpoint split_on (c : ascii) (s : string) : list string :=
  match s with
  | EmptyString => [EmptyString]
  | String a rest =>
      if Ascii.eqb a c then EmptyString :: split_on c rest
      else match split_on c rest with
           | h :: t => String a h :: t
           | [] => [String a EmptyString]
           end
  end.

(** A possibly undefined string used where a string is expected. *)
Definition to_string (s : option string) : string :=
  match s with
  | Some x => x
  | None => "undefined"%string
  end.

(** ** Literal types shared by the services *)

Inductive Side := buy | sell.
Inductive OrderType := market | limit | stop | stop_limit.

(** ** Risk engine (riskService.ts) *)

Module Risk.

Record Account := {
  balance : num;
  equity : num;
  marginUsed : num;
  freeMargin : num;
  marginLevel : num
}.

Record Position := {
  symbol : string;
  size : num;
  entryPrice : num;
  currentPrice : num;
  unrealizedPnL : num;
  stopLoss : option num
}.

Record Portfolio := {
  totalValue : num;
  totalEquity : num;
  positions : list Position;
  cash : num
}.

Record OrderRequest := {
  o_symbol : string;
  o_side : Side;
  o_type : OrderType;
  o_size : num;
  o_price : option num;
  o_stopLoss : option num;
  o_takeProfit : option num
}.

Record RiskLimits := {
  maxPositionSize : num;
  maxLeverage : num;
  maxDrawdown : num;
  maxDailyLoss : num;
  maxCorrelation : num;
  stopLossPercent : num;
  takeProfitPercent : num;
  maxOpenPositions : num;
  maxRiskPerTrade : num;
  minimumMarginLevel : num
}.

(** The limits a fresh [RiskService] starts with. *)
Definition defaultLimits : RiskLimits := {|
  maxPositionSize := Fin 10;
  maxLeverage := Fin 3;
  maxDrawdown := Fin 20;
  maxDailyLoss := Fin 5;
  maxCorrelation := Fin 0.7;
  stopLossPercent := Fin 2;
  takeProfitPercent := Fin 4;
  maxOpenPositions := Fin 10;
  maxRiskPerTrade := Fin 2;
  minimumMarginLevel := Fin 100
|}.

Inductive Error := StopLossDistanceZero.

Definition calculatePositionSize (limits : RiskLimits) (account : Account)
    (riskPercentage entryPrice stopLossPrice : num) : result Error num :=
  let accountBalance := balance account in
  let riskAmount := (accountBalance * (riskPercentage / Fin 100))%num in
  let stopLossDistance := JS.abs (entryPrice - stopLossPrice)%num in
  if (stopLossDistance =? Fin 0)%num then Throw StopLossDistanceZero
  else
    let positionSize := (riskAmount / stopLossDistance)%num in
    let maxPositionValue :=
      (accountBalance * (maxPositionSize limits / Fin 100))%num in
    let maxPosSize := (maxPositionValue / entryPrice)%num in
    Ok (JS.min positionSize maxPosSize).

(** The reason carried by a rejected validation, with the values the
    source interpolates into its message. *)
Inductive Rejection :=
  | TooManyPositions (limit : num)
  | PositionSizeExceeded (percent limit : num)
  | LeverageExceeded (leverage limit : num)
  | InsufficientMargin (required available : num)
  | CorrelationExceeded (correlation limit : num).

Record Validation := { valid : bool; reason : option Rejection }.

Definition accept : Validation := {| valid := true; reason := None |}.
Definition reject (r : Rejection) : Validation :=
  {| valid := false; reason := Some r |}.

Definition calculateTotalExposure (portfolio : Portfolio) : num :=
  fold_left
    (fun total position =>
       (total + JS.abs (size position * currentPrice position))%num)
    (positions portfolio) (Fin 0).

Definition calculateRequiredMargin (order : OrderRequest) (account : Account)
    : num :=
  let orderValue := (o_size order * JS.or_else (o_price order) (Fin 0))%num in
  let marginRate := Fin 0.1 in
  (orderValue * marginRate)%num.

Definition calculateCorrelation (sym : string) (portfolio : Portfolio) : num :=
  let parts := split_on "/"%char sym in
  let similarPositions :=
    List.filter
      (fun pos =>
         includes (to_string (parts !! 0%nat)) (symbol pos)
         || includes (to_string (parts !! 1%nat)) (symbol pos))
      (positions portfolio) in
  if (0 <? length similarPositions)%nat then Fin 0.5 else Fin 0.

Definition validateOrder (limits : RiskLimits) (order : OrderRequest)
    (portfolio : Portfolio) (account : Account) : Validation :=
  if (JS.of_nat (length (positions portfolio)) >=? maxOpenPositions limits)%num
  then reject (TooManyPositions (maxOpenPositions limits))
  else
    let orderValue := (o_size order * JS.or_else (o_price order) (Fin 0))%num in
    let positionSizePercent :=
      (orderValue / totalValue portfolio * Fin 100)%num in
    if (positionSizePercent >? maxPositionSize limits)%num
    then reject (PositionSizeExceeded positionSizePercent (maxPositionSize limits))
    else
      let totalExposure := (calculateTotalExposure portfolio + orderValue)%num in
      let leverage := (totalExposure / totalValue portfolio)%num in
      if (leverage >? maxLeverage limits)%num
      then reject (LeverageExceeded leverage (maxLeverage limits))
      else
        let requiredMargin := calculateRequiredMargin order account in
        if (freeMargin account <? requiredMargin)%num
        then reject (InsufficientMargin requiredMargin (freeMargin account))
        else
          let correlation := calculateCorrelation (o_symbol order) portfolio in
          if (correlation >? maxCorrelation limits)%num
          then reject (CorrelationExceeded correlation (maxCorrelation limits))
          else accept.

(** *** Value at risk *)

Record VaRCalculation := {
  confidence : num;
  timeHorizon : num;
  value : num
}.

#[export] Instance Qle_dec (x y : Q) : Decision (x <= y)%Q.
Proof. destruct (Qlt_le_dec y x); [right | left]; [lra | assumption]. Defined.

(** [returns.sort((a, b) => a - b)] on finite numbers. *)
Definition sortAscending (returns : list Q) : list Q := merge_sort Qle returns.

Section VaR.

(** [Math.sqrt] and the random source behind the mock return history are
    taken as given. *)
Variable sqrt : num -> num.
Variable random : nat -> Q.

(** The mock history: one hundred draws mapped into (-5%, 5%). *)
Definition calculatePortfolioReturns (portfolio : Portfolio) : list Q :=
  map (fun i => ((random i - 0.5) * 0.1)%Q) (seq 0 100).

(** The body of [calculateHistoricalVaR] once the returns are known. *)
Definition historicalVaROf (portfolioReturns : list Q) (portfolio : Portfolio)
    (conf horizon : num) : VaRCalculation :=
  if (length portfolioReturns =? 0)%nat
  then {| confidence := conf; timeHorizon := horizon; value := Fin 0 |}
  else
    let sorted := map Fin (sortAscending portfolioReturns) in
    let index :=
      JS.floor
        (Binary64.mul (Binary64.sub (Fin 1) conf)
                      (JS.of_nat (length sorted))) in
    let varReturn := JS.or_else (JS.index sorted index) (Fin 0) in
    let scaledVaR := (varReturn * sqrt horizon * totalValue portfolio)%num in
    {| confidence := conf; timeHorizon := horizon; value := JS.abs scaledVaR |}.

Definition calculateHistoricalVaR (portfolio : Portfolio) (conf horizon : num)
    : VaRCalculation :=
  historicalVaROf (calculatePortfolioReturns portfolio) portfolio conf horizon.

End VaR.

End Risk.

(** ** Indicator library (technicalIndicators.ts)

    Series are arrays of numbers; periods are array lengths, hence
    naturals.  A read beyond the end of an array is [undefined] in the
    source; every use the indicators make of it is arithmetic or a
    comparison, where it behaves as NaN, so [get] reads NaN. *)

Module TechnicalIndicators.

Definition get (l : list num) (i : nat) : num := default NaN (l !! i).

Definition getZ (l : list num) (i : Z) : num :=
  if (i <? 0)%Z then NaN else get l (Z.to_nat i).

(** [l.slice(a, b)] for [0 <= a]. *)
Definition slice (a b : nat) (l : list num) : list num :=
  take (b - a) (drop a l).

(** [Math.max(...l)] and [Math.min(...l)]. *)
Definition maxOf (l : list num) : num := fold_left JS.max l NInf.
Definition minOf (l : list num) : num := fold_left JS.min l PInf.

(** The loop [for (i = period - 1; i < n; i++)] visits the windows
    [k, k + period) for [k = i - period + 1 = 0 .. n - period]. *)
Definition windows (n period : nat) : list nat := seq 0 (n + 1 - period).

Definition sma (prices : list num) (period : nat) : list num :=
  if (length prices <? period)%nat then []
  else
    map (fun k =>
           (JS.sum (slice k (k + period) prices) / JS.of_nat period)%num)
        (windows (length prices) period).

Fixpoint emaFrom (multiplier prev : num) (rest : list num) : list num :=
  match rest with
  | [] => []
  | p :: rest' =>
      let emaValue := (p * multiplier + prev * (Fin 1 - multiplier))%num in
      emaValue :: emaFrom multiplier emaValue rest'
  end.

Definition ema (prices : list num) (period : nat) : list num :=
  match prices with
  | [] => []
  | first :: rest =>
      let multiplier := (Fin 2 / (JS.of_nat period + Fin 1))%num in
      first :: emaFrom multiplier first rest
  end.

Definition rsiValue (avgGain avgLoss : num) : num :=
  let rs := (avgGain / avgLoss)%num in
  (Fin 100 - Fin 100 / (Fin 1 + rs))%num.

Fixpoint rsiSmooth (period avgGain avgLoss : num) (rest : list (num * num))
    : list num :=
  match rest with
  | [] => []
  | (gain, loss) :: rest' =>
      let avgGain' := ((avgGain * (period - Fin 1) + gain) / period)%num in
      let avgLoss' := ((avgLoss * (period - Fin 1) + loss) / period)%num in
      rsiValue avgGain' avgLoss' :: rsiSmooth period avgGain' avgLoss' rest'
  end.

Definition rsi (prices : list num) (period : nat) : list num :=
  if (length prices <? period + 1)%nat then []
  else
    let changes :=
      map (fun i => (get prices i - get prices (i - 1))%num)
          (seq 1 (length prices - 1)) in
    let gains := map (fun change => JS.max change (Fin 0)) changes in
    let losses := map (fun change => JS.max (JS.neg change) (Fin 0)) changes in
    let avgGain := (JS.sum (slice 0 period gains) / JS.of_nat period)%num in
    let avgLoss := (JS.sum (slice 0 period losses) / JS.of_nat period)%num in
    match drop period (zip gains losses) with
    | [] => []
    | _ :: rest =>
        rsiValue avgGain avgLoss
          :: rsiSmooth (JS.of_nat period) avgGain avgLoss rest
    end.

Record MACDResult := { macd_ : num; signal : num; histogram : num }.

Definition macd (prices : list num) (fastPeriod slowPeriod signalPeriod : nat)
    : list MACDResult :=
  if (length prices <? slowPeriod)%nat then []
  else
    let fastEMA := ema prices fastPeriod in
    let slowEMA := ema prices slowPeriod in
    let startIndex := (Z.of_nat slowPeriod - Z.of_nat fastPeriod)%Z in
    let macdLine :=
      map (fun i => (getZ fastEMA i - getZ slowEMA (i - startIndex))%num)
          (seqZ startIndex (Z.of_nat (length fastEMA) - startIndex)) in
    let signalLine := ema macdLine signalPeriod in
    let signalStartIndex :=
      (Z.of_nat (length macdLine) - Z.of_nat (length signalLine))%Z in
    map (fun i =>
           let m := getZ macdLine (signalStartIndex + Z.of_nat i) in
           {| macd_ := m;
              signal := get signalLine i;
              histogram := (m - get signalLine i)%num |})
        (seq 0 (length signalLine)).

Record BollingerBandsResult := { upper : num; middle : num; lower : num }.

Definition bollingerBands (sqrt : num -> num) (prices : list num)
    (period : nat) (stdDev : num) : list BollingerBandsResult :=
  if (length prices <? period)%nat then []
  else
    let smaValues := sma prices period in
    map (fun i =>
           let priceSlice := slice i (i + period) prices in
           let sma_i := get smaValues i in
           let variance :=
             (fold_left
                (fun sum price =>
                   (sum + (price - sma_i) * (price - sma_i))%num)
                priceSlice (Fin 0) / JS.of_nat period)%num in
           let standardDeviation := sqrt variance in
           {| upper := (sma_i + standardDeviation * stdDev)%num;
              middle := sma_i;
              lower := (sma_i - standardDeviation * stdDev)%num |})
        (seq 0 (length smaValues)).

Record StochasticResult := { k : num; d : num }.

Definition stochastic (highs lows closes : list num) (kPeriod dPeriod : nat)
    : list StochasticResult :=
  if (length highs <? kPeriod)%nat || (length lows <? kPeriod)%nat
     || (length closes <? kPeriod)%nat
  then []
  else
    let kValues :=
      map (fun w =>
             let highestHigh := maxOf (slice w (w + kPeriod) highs) in
             let lowestLow := minOf (slice w (w + kPeriod) lows) in
             let currentClose :=
               getZ closes (Z.of_nat w + Z.of_nat kPeriod - 1) in
             ((currentClose - lowestLow) / (highestHigh - lowestLow)
              * Fin 100)%num)
          (windows (length closes) kPeriod) in
    let dValues := sma kValues dPeriod in
    let startIndex :=
      (Z.of_nat (length kValues) - Z.of_nat (length dValues))%Z in
    map (fun i =>
           {| k := getZ kValues (startIndex + Z.of_nat i);
              d := get dValues i |})
        (seq 0 (length dValues)).

Definition atr (highs lows closes : list num) (period : nat) : list num :=
  if (length highs <? 2)%nat || (length lows <? 2)%nat
     || (length closes <? 2)%nat
  then []
  else
    let trueRanges :=
      map (fun i =>
             let tr1 := (get highs i - get lows i)%num in
             let tr2 := JS.abs (get highs i - get closes (i - 1))%num in
             let tr3 := JS.abs (get lows i - get closes (i - 1))%num in
             JS.max (JS.max tr1 tr2) tr3)
          (seq 1 (length highs - 1)) in
    ema trueRanges period.

Definition typical (highs lows closes : list num) (j : Z) : num :=
  ((getZ highs j + getZ lows j + getZ closes j) / Fin 3)%num.

Definition cci (highs lows closes : list num) (period : nat) : list num :=
  if (length highs <? period)%nat then []
  else
    map (fun w =>
           let typicalPrices :=
             map (fun j => typical highs lows closes (Z.of_nat j))
                 (seq w period) in
           let smaTP := (JS.sum typicalPrices / JS.of_nat period)%num in
           let meanDeviation :=
             (fold_left (fun sum tp => (sum + JS.abs (tp - smaTP))%num)
                        typicalPrices (Fin 0) / JS.of_nat period)%num in
           let currentTP :=
             typical highs lows closes (Z.of_nat w + Z.of_nat period - 1) in
           ((currentTP - smaTP) / (Fin 0.015 * meanDeviation))%num)
        (windows (length highs) period).

Definition williamsR (highs lows closes : list num) (period : nat)
    : list num :=
  if (length highs <? period)%nat then []
  else
    map (fun w =>
           let highestHigh := maxOf (slice w (w + period) highs) in
           let lowestLow := minOf (slice w (w + period) lows) in
           let currentClose :=
             getZ closes (Z.of_nat w + Z.of_nat period - 1) in
           ((highestHigh - currentClose) / (highestHigh - lowestLow)
            * Fin (-100))%num)
        (windows (length closes) period).

Record SARState := {
  isUpTrend : bool;
  sar : num;
  ep : num;
  af : num
}.

Definition sarStep (highs lows : list num) (step max : num) (s : SARState)
    (i : nat) : SARState :=
  let prevSar := sar s in
  let sar1 := (prevSar + af s * (ep s - prevSar))%num in
  if isUpTrend s then
    if (get lows i <=? sar1)%num
    then {| isUpTrend := false; sar := ep s; ep := get lows i; af := step |}
    else
      let raised := (get highs i >? ep s)%num in
      {| isUpTrend := true;
         sar := JS.min (JS.min sar1 (get lows (i - 1)))
                  (JS.or_else (lows !! (i - 2)%nat) (get lows (i - 1)));
         ep := if raised then get highs i else ep s;
         af := if raised then JS.min (af s + step)%num max else af s |}
  else
    if (get highs i >=? sar1)%num
    then {| isUpTrend := true; sar := ep s; ep := get highs i; af := step |}
    else
      let lowered := (get lows i <? ep s)%num in
      {| isUpTrend := false;
         sar := JS.max (JS.max sar1 (get highs (i - 1)))
                  (JS.or_else (highs !! (i - 2)%nat) (get highs (i - 1)));
         ep := if lowered then get lows i else ep s;
         af := if lowered then JS.min (af s + step)%num max else af s |}.

Fixpoint sarLoop (highs lows : list num) (step max : num) (s : SARState)
    (indices : list nat) : list num :=
  match indices with
  | [] => []
  | i :: rest =>
      let s' := sarStep highs lows step max s i in
      sar s' :: sarLoop highs lows step max s' rest
  end.

Definition parabolicSAR (highs lows : list num) (step max : num) : list num :=
  if (length highs <? 2)%nat || (length lows <? 2)%nat then []
  else
    let up := (get highs 1 >? get highs 0)%num in
    let s0 := {| isUpTrend := up;
                 sar := if up then get lows 0 else get highs 0;
                 ep := if up then get highs 1 else get lows 1;
                 af := step |} in
    sar s0 :: sarLoop highs lows step max s0 (seq 2 (length highs - 2)).

Inductive Error := LengthMismatch.

Fixpoint vwapLoop (highs lows closes volumes : list num)
    (cumulativeTPV cumulativeVolume : num) (indices : list nat) : list num :=
  match indices with
  | [] => []
  | i :: rest =>
      let typicalPrice :=
        ((get highs i + get lows i + get closes i) / Fin 3)%num in
      let cumulativeTPV' :=
        (cumulativeTPV + typicalPrice * get volumes i)%num in
      let cumulativeVolume' := (cumulativeVolume + get volumes i)%num in
      (cumulativeTPV' / cumulativeVolume')%num
        :: vwapLoop highs lows closes volumes
             cumulativeTPV' cumulativeVolume' rest
  end.

Definition vwap (highs lows closes volumes : list num)
    : result Error (list num) :=
  if negb (length highs =? length lows)%nat
     || negb (length lows =? length closes)%nat
     || negb (length closes =? length volumes)%nat
  then Throw LengthMismatch
  else
    Ok (vwapLoop highs lows closes volumes (Fin 0) (Fin 0)
          (seq 0 (length highs))).

Definition mfi (highs lows closes volumes : list num) (period : nat)
    : list num :=
  if (length highs <? period + 1)%nat then []
  else
    map (fun i =>
           let flows :=
             fold_left
               (fun '(positiveMoneyFlow, negativeMoneyFlow) j =>
                  let typicalPrice :=
                    typical highs lows closes (Z.of_nat j) in
                  let prevTypicalPrice :=
                    typical highs lows closes (Z.of_nat j - 1) in
                  let rawMoneyFlow := (typicalPrice * get volumes j)%num in
                  if (typicalPrice >? prevTypicalPrice)%num
                  then ((positiveMoneyFlow + rawMoneyFlow)%num,
                        negativeMoneyFlow)
                  else if (typicalPrice <? prevTypicalPrice)%num
                  then (positiveMoneyFlow,
                        (negativeMoneyFlow + rawMoneyFlow)%num)
                  else (positiveMoneyFlow, negativeMoneyFlow))
               (seq (i - period + 1) period) (Fin 0, Fin 0) in
           let moneyFlowRatio := (fst flows / snd flows)%num in
           (Fin 100 - Fin 100 / (Fin 1 + moneyFlowRatio))%num)
        (seq period (length highs - period)).

Record Ichimoku := {
  conversionLine : list num;
  baseLine : list num;
  leadingSpanA : list num;
  leadingSpanB : list num;
  laggingSpan : list num
}.

(** Midpoint of the highest high and lowest low over each window. *)
Definition midline (highs lows : list num) (period : nat) : list num :=
  map (fun w =>
         let periodHigh := maxOf (slice w (w + period) highs) in
         let periodLow := minOf (slice w (w + period) lows) in
         ((periodHigh + periodLow) / Fin 2)%num)
      (windows (length highs) period).

Definition ichimoku (highs lows closes : list num) : Ichimoku :=
  let conversionPeriod := 9%nat in
  let basePeriod := 26%nat in
  let leadingSpan2Period := 52%nat in
  let conversion := midline highs lows conversionPeriod in
  let base := midline highs lows basePeriod in
  let clen := length conversion in
  let blen := length base in
  let startIndex := (Nat.max clen blen - Nat.min clen blen)%nat in
  let spanA :=
    map (fun i =>
           let conversionValue :=
             get conversion
               (i + (if (blen <? clen)%nat then 0 else startIndex)) in
           let baseValue :=
             get base (i + (if (clen <? blen)%nat then 0 else startIndex)) in
           ((conversionValue + baseValue) / Fin 2)%num)
        (seq 0 (Nat.min clen blen)) in
  {| conversionLine := conversion;
     baseLine := base;
     leadingSpanA := spanA;
     leadingSpanB := midline highs lows leadingSpan2Period;
     laggingSpan := closes |}.

Record Levels := { support : list num; resistance : list num }.

Definition findSupportResistance (highs lows : list num)
    (lookbackPeriod minTouches : nat) : Levels :=
  let candidates :=
    seq lookbackPeriod (length highs - lookbackPeriod - lookbackPeriod) in
  let neighbours i :=
    List.filter (fun j => negb (j =? i)%nat)
                (seq (i - lookbackPeriod) (2 * lookbackPeriod)) in
  let isResistance i :=
    forallb (fun j => negb (get highs j >=? get highs i)%num)
            (neighbours i) in
  let isSupport i :=
    forallb (fun j => negb (get lows j <=? get lows i)%num) (neighbours i) in
  {| support := map (get lows) (List.filter isSupport candidates);
     resistance := map (get highs) (List.filter isResistance candidates) |}.

End TechnicalIndicators.

(** ** Strategy engine (strategyEngine.ts) *)

Module Strategy.

Inductive SignalType := buy | sell | hold.

Definition SignalType_eqb (a b : SignalType) : bool :=
  match a, b with
  | buy, buy | sell, sell | hold, hold => true
  | _, _ => false
  end.

Module MarketData.
Record t := {
  symbol : string;
  timestamp : Z;
  open : num;
  high : num;
  low : num;
  close : num;
  volume : num
}.
End MarketData.

Module Signal.
Record t := {
  id : string;
  symbol : string;
  type : SignalType;
  strength : num;
  confidence : num;
  price : num;
  timestamp : Z;
  strategy : string;
  reason : string;
  stopLoss : option num;
  takeProfit : option num;
  riskReward : option num
}.
End Signal.

Record RiskManagement := {
  maxPositionSize : num;
  stopLossPercent : num;
  takeProfitPercent : num;
  maxDrawdown : num
}.

Record StrategyConfig := {
  configName : string;
  enabled : bool;
  riskManagement : RiskManagement
}.

(** A strategy object.  [execute] either resolves with signals or rejects
    with an error message.  ([backtest] is not called by the operations
    modelled here.) *)
Record TradingStrategy := {
  name : string;
  description : string;
  timeframe : string;
  config : StrategyConfig;
  execute : list MarketData.t -> result string (list Signal.t);
  validate : StrategyConfig -> bool
}.

Inductive Error := StrategyNotFound (strategyName : string).

(** What the engine does to the outside: subscriber calls and the
    console. *)
Inductive Event :=
  | Delivered (subscriber : nat) (s : Signal.t)
  | CallbackFailed (subscriber : nat) (s : Signal.t)
  | ExecuteFailed (strategyName : string) (message : string).

(** The engine's fields.  [activeStrategies] and [subscribers] are
    insertion-ordered sets; a subscriber returns [false] when it throws. *)
Record Engine := {
  strategies : gmap string TradingStrategy;
  activeStrategies : list string;
  signalHistory : list Signal.t;
  subscribers : list (Signal.t -> bool);
  trace : list Event
}.

Definition registerStrategy (e : Engine) (s : TradingStrategy) : Engine :=
  {| strategies := <[name s := s]> (strategies e);
     activeStrategies := activeStrategies e;
     signalHistory := signalHistory e;
     subscribers := subscribers e;
     trace := trace e |}.

Definition unregisterStrategy (e : Engine) (strategyName : string) : Engine :=
  {| strategies := delete strategyName (strategies e);
     activeStrategies :=
       List.filter (fun n => negb (String.eqb n strategyName))
                   (activeStrategies e);
     signalHistory := signalHistory e;
     subscribers := subscribers e;
     trace := trace e |}.

Definition isActive (e : Engine) (strategyName : string) : bool :=
  existsb (String.eqb strategyName) (activeStrategies e).

Definition enableStrategy (e : Engine) (strategyName : string)
    : Engine * bool :=
  match strategies e !! strategyName with
  | None => (e, false)
  | Some _ =>
      ({| strategies := strategies e;
          activeStrategies :=
            if isActive e strategyName then activeStrategies e
            else activeStrategies e ++ [strategyName];
          signalHistory := signalHistory e;
          subscribers := subscribers e;
          trace := trace e |}, true)
  end.

Definition disableStrategy (e : Engine) (strategyName : string) : Engine :=
  {| strategies := strategies e;
     activeStrategies :=
       List.filter (fun n => negb (String.eqb n strategyName))
                   (activeStrategies e);
     signalHistory := signalHistory e;
     subscribers := subscribers e;
     trace := trace e |}.

(** [notifySubscribers]: each callback runs inside its own try/catch. *)
Definition notifySubscribers (subs : list (Signal.t -> bool)) (s : Signal.t)
    : list Event :=
  imap (fun i (callback : Signal.t -> bool) =>
          if callback s then Delivered i s else CallbackFailed i s)
       subs.

Definition recordSignals (e : Engine) (signals : list Signal.t) : Engine :=
  fold_left
    (fun e' s =>
       {| strategies := strategies e';
          activeStrategies := activeStrategies e';
          signalHistory := signalHistory e' ++ [s];
          subscribers := subscribers e';
          trace := trace e' ++ notifySubscribers (subscribers e') s |})
    signals e.

Definition logFailure (e : Engine) (strategyName message : string) : Engine :=
  {| strategies := strategies e;
     activeStrategies := activeStrategies e;
     signalHistory := signalHistory e;
     subscribers := subscribers e;
     trace := trace e ++ [ExecuteFailed strategyName message] |}.

Definition runStrategy (e : Engine) (strategyName : string)
    (marketData : list MarketData.t) : result Error (Engine * list Signal.t) :=
  match strategies e !! strategyName with
  | None => Throw (StrategyNotFound strategyName)
  | Some strategy =>
      if negb (isActive e strategyName) then Ok (e, [])
      else
        match execute strategy marketData with
        | Ok signals => Ok (recordSignals e signals, signals)
        | Throw message => Ok (logFailure e strategyName message, [])
        end
  end.

(** Grouping by symbol keeps the order in which symbols first appear, as
    the [Map] of the source does. *)
Fixpoint addToGroup (s : Signal.t) (groups : list (string * list Signal.t))
    : list (string * list Signal.t) :=
  match groups with
  | [] => [(Signal.symbol s, [s])]
  | (sym, members) :: rest =>
      if String.eqb sym (Signal.symbol s)
      then (sym, members ++ [s]) :: rest
      else (sym, members) :: addToGroup s rest
  end.

Definition groupBySymbol (signals : list Signal.t)
    : list (string * list Signal.t) :=
  fold_left (fun groups s => addToGroup s groups) signals [].

Definition countType (ty : SignalType) (signals : list Signal.t) : nat :=
  length (List.filter (fun s => SignalType_eqb (Signal.type s) ty) signals).

Definition dominantType (symbolSignals : list Signal.t) : SignalType :=
  let buySignals := countType buy symbolSignals in
  let sellSignals := countType sell symbolSignals in
  let holdSignals := countType hold symbolSignals in
  if (sellSignals <? buySignals)%nat && (holdSignals <? buySignals)%nat
  then buy
  else if (buySignals <? sellSignals)%nat && (holdSignals <? sellSignals)%nat
  then sell
  else hold.

Definition totalConfidence (symbolSignals : list Signal.t) : num :=
  fold_left
    (fun sum s => (sum + Signal.confidence s * Signal.strength s)%num)
    symbolSignals (Fin 0).

Definition totalWeight (symbolSignals : list Signal.t) : num :=
  fold_left (fun sum s => (sum + Signal.strength s)%num)
            symbolSignals (Fin 0).

Definition consolidate (now : Z) (symbol : string)
    (symbolSignals : list Signal.t) : Signal.t :=
  match symbolSignals with
  | [only] => only
  | _ =>
      let avgConfidence :=
        (totalConfidence symbolSignals / totalWeight symbolSignals)%num in
      {| Signal.id := "consolidated_" +:+ pretty now +:+ "_" +:+ symbol;
         Signal.symbol := symbol;
         Signal.type := dominantType symbolSignals;
         Signal.strength :=
           JS.min (Fin 100)
             (totalWeight symbolSignals
              / JS.of_nat (length symbolSignals))%num;
         Signal.confidence := JS.min (Fin 1) avgConfidence;
         Signal.price :=
           match symbolSignals with
           | first :: _ => Signal.price first
           | [] => NaN
           end;
         Signal.timestamp := now;
         Signal.strategy := "consolidated";
         Signal.reason :=
           "Consolidated from " +:+ pretty (length symbolSignals)
           +:+ " strategies: "
           +:+ String.concat ", " (map Signal.strategy symbolSignals);
         Signal.stopLoss := None;
         Signal.takeProfit := None;
         Signal.riskReward := None |}
  end.

Definition consolidateSignals (now : Z) (signals : list Signal.t)
    : list Signal.t :=
  map (fun '(symbol, symbolSignals) => consolidate now symbol symbolSignals)
      (groupBySymbol signals).

Fixpoint runEach (e : Engine) (names : list string)
    (marketData : list MarketData.t) : result Error (Engine * list Signal.t) :=
  match names with
  | [] => Ok (e, [])
  | strategyName :: rest =>
      match runStrategy e strategyName marketData with
      | Throw err => Throw err
      | Ok (e', signals) =>
          match runEach e' rest marketData with
          | Throw err => Throw err
          | Ok (e'', more) => Ok (e'', signals ++ more)
          end
      end
  end.

Definition runAllActiveStrategies (now : Z) (e : Engine)
    (marketData : list MarketData.t) : result Error (Engine * list Signal.t) :=
  match runEach e (activeStrategies e) marketData with
  | Throw err => Throw err
  | Ok (e', allSignals) => Ok (e', consolidateSignals now allSignals)
  end.

End Strategy.

(** ** Order lifecycle manager and portfolio ledger
       (orderService.ts, portfolioService.ts, exchangeService.ts)

    The three services are module-level singletons that call each other;
    [World] holds their fields side by side, together with the rows of
    the remote store and the two sources of freshness the code draws
    on, the clock and the random suffix of generated ids. *)

Module Services.

Inductive PositionSide := long | short.
Inductive TimeInForce := GTC | IOC | FOK | DAY.
Inductive OrderStatus :=
  | pending | submitted | partially_filled | filled
  | canceled | rejected | expired.

Definition OrderStatus_eqb (a b : OrderStatus) : bool :=
  match a, b with
  | pending, pending | submitted, submitted
  | partially_filled, partially_filled | filled, filled
  | canceled, canceled | rejected, rejected | expired, expired => true
  | _, _ => false
  end.

(** Records follow the interfaces of the source; a setter stands for an
    assignment to one field. *)

Module Trade.
Record t := mk {
  id : string;
  portfolioId : string;
  symbol : string;
  side : Side;
  quantity : num;
  price : num;
  timestamp : Z;
  commission : num;
  exchange : string;
  orderId : option string
}.
End Trade.

Module Position.
Record t := mk {
  id : string;
  portfolioId : string;
  symbol : string;
  quantity : num;
  avgPrice : num;
  currentPrice : num;
  marketValue : num;
  unrealizedPnL : num;
  unrealizedPnLPercent : num;
  side : PositionSide;
  entryDate : Z;
  lastUpdated : Z
}.
Definition set_quantity (v : num) (x : t) : t :=
  {| id := id x; portfolioId := portfolioId x; symbol := symbol x; quantity
     := v; avgPrice := avgPrice x; currentPrice := currentPrice x;
     marketValue := marketValue x; unrealizedPnL := unrealizedPnL x;
     unrealizedPnLPercent := unrealizedPnLPercent x; side := side x;
     entryDate := entryDate x; lastUpdated := lastUpdated x |}.
Definition set_avgPrice (v : num) (x : t) : t :=
  {| id := id x; portfolioId := portfolioId x; symbol := symbol x; quantity
     := quantity x; avgPrice := v; currentPrice := currentPrice x;
     marketValue := marketValue x; unrealizedPnL := unrealizedPnL x;
     unrealizedPnLPercent := unrealizedPnLPercent x; side := side x;
     entryDate := entryDate x; lastUpdated := lastUpdated x |}.
Definition set_lastUpdated (v : Z) (x : t) : t :=
  {| id := id x; portfolioId := portfolioId x; symbol := symbol x; quantity
     := quantity x; avgPrice := avgPrice x; currentPrice := currentPrice x;
     marketValue := marketValue x; unrealizedPnL := unrealizedPnL x;
     unrealizedPnLPercent := unrealizedPnLPercent x; side := side x;
     entryDate := entryDate x; lastUpdated := v |}.
End Position.

Module Portfolio.
Record t := mk {
  id : string;
  userId : string;
  name : string;
  description : option string;
  totalValue : num;
  totalEquity : num;
  cashBalance : num;
  marginUsed : num;
  freeMargin : num;
  unrealizedPnL : num;
  realizedPnL : num;
  totalReturn : num;
  totalReturnPercent : num;
  dayChange : num;
  dayChangePercent : num;
  positions : list Position.t;
  createdAt : Z;
  updatedAt : Z
}.
Definition set_totalValue (v : num) (x : t) : t :=
  {| id := id x; userId := userId x; name := name x; description :=
     description x; totalValue := v; totalEquity := totalEquity x;
     cashBalance := cashBalance x; marginUsed := marginUsed x; freeMargin :=
     freeMargin x; unrealizedPnL := unrealizedPnL x; realizedPnL :=
     realizedPnL x; totalReturn := totalReturn x; totalReturnPercent :=
     totalReturnPercent x; dayChange := dayChange x; dayChangePercent :=
     dayChangePercent x; positions := positions x; createdAt := createdAt x;
     updatedAt := updatedAt x |}.
Definition set_cashBalance (v : num) (x : t) : t :=
  {| id := id x; userId := userId x; name := name x; description :=
     description x; totalValue := totalValue x; totalEquity := totalEquity
     x; cashBalance := v; marginUsed := marginUsed x; freeMargin :=
     freeMargin x; unrealizedPnL := unrealizedPnL x; realizedPnL :=
     realizedPnL x; totalReturn := totalReturn x; totalReturnPercent :=
     totalReturnPercent x; dayChange := dayChange x; dayChangePercent :=
     dayChangePercent x; positions := positions x; createdAt := createdAt x;
     updatedAt := updatedAt x |}.
Definition set_unrealizedPnL (v : num) (x : t) : t :=
  {| id := id x; userId := userId x; name := name x; description :=
     description x; totalValue := totalValue x; totalEquity := totalEquity
     x; cashBalance := cashBalance x; marginUsed := marginUsed x; freeMargin
     := freeMargin x; unrealizedPnL := v; realizedPnL := realizedPnL x;
     totalReturn := totalReturn x; totalReturnPercent := totalReturnPercent
     x; dayChange := dayChange x; dayChangePercent := dayChangePercent x;
     positions := positions x; createdAt := createdAt x; updatedAt :=
     updatedAt x |}.
Definition set_realizedPnL (v : num) (x : t) : t :=
  {| id := id x; userId := userId x; name := name x; description :=
     description x; totalValue := totalValue x; totalEquity := totalEquity
     x; cashBalance := cashBalance x; marginUsed := marginUsed x; freeMargin
     := freeMargin x; unrealizedPnL := unrealizedPnL x; realizedPnL := v;
     totalReturn := totalReturn x; totalReturnPercent := totalReturnPercent
     x; dayChange := dayChange x; dayChangePercent := dayChangePercent x;
     positions := positions x; createdAt := createdAt x; updatedAt :=
     updatedAt x |}.
Definition set_positions (v : list Position.t) (x : t) : t :=
  {| id := id x; userId := userId x; name := name x; description :=
     description x; totalValue := totalValue x; totalEquity := totalEquity
     x; cashBalance := cashBalance x; marginUsed := marginUsed x; freeMargin
     := freeMargin x; unrealizedPnL := unrealizedPnL x; realizedPnL :=
     realizedPnL x; totalReturn := totalReturn x; totalReturnPercent :=
     totalReturnPercent x; dayChange := dayChange x; dayChangePercent :=
     dayChangePercent x; positions := v; createdAt := createdAt x; updatedAt
     := updatedAt x |}.
End Portfolio.

Module PortfolioRow.
Record t := mk {
  id : string;
  user_id : string;
  name : string;
  description : option string;
  total_value : num;
  created_at : Z
}.
End PortfolioRow.

Module OrderRequest.
Record t := mk {
  portfolioId : string;
  symbol : string;
  side : Side;
  type : OrderType;
  quantity : num;
  price : option num;
  stopPrice : option num;
  timeInForce : option TimeInForce;
  exchange : string;
  stopLoss : option num;
  takeProfit : option num;
  notes : option string
}.
End OrderRequest.

Module Fill.
Record t := mk {
  id : string;
  orderId : string;
  quantity : num;
  price : num;
  commission : num;
  timestamp : Z
}.
End Fill.

Module Order.
Record t := mk {
  id : string;
  portfolioId : string;
  symbol : string;
  side : Side;
  type : OrderType;
  quantity : num;
  price : num;
  stopPrice : option num;
  status : OrderStatus;
  filledQuantity : num;
  remainingQuantity : num;
  avgFillPrice : num;
  totalFillValue : num;
  commission : num;
  exchange : string;
  exchangeOrderId : option string;
  timeInForce : TimeInForce;
  stopLoss : option num;
  takeProfit : option num;
  notes : option string;
  createdAt : Z;
  updatedAt : Z;
  filledAt : option Z;
  fills : list Fill.t;
  rejectionReason : option string
}.
Definition set_quantity (v : num) (x : t) : t :=
  {| id := id x; portfolioId := portfolioId x; symbol := symbol x; side :=
     side x; type := type x; quantity := v; price := price x; stopPrice :=
     stopPrice x; status := status x; filledQuantity := filledQuantity x;
     remainingQuantity := remainingQuantity x; avgFillPrice := avgFillPrice
     x; totalFillValue := totalFillValue x; commission := commission x;
     exchange := exchange x; exchangeOrderId := exchangeOrderId x;
     timeInForce := timeInForce x; stopLoss := stopLoss x; takeProfit :=
     takeProfit x; notes := notes x; createdAt := createdAt x; updatedAt :=
     updatedAt x; filledAt := filledAt x; fills := fills x; rejectionReason
     := rejectionReason x |}.
Definition set_price (v : num) (x : t) : t :=
  {| id := id x; portfolioId := portfolioId x; symbol := symbol x; side :=
     side x; type := type x; quantity := quantity x; price := v; stopPrice
     := stopPrice x; status := status x; filledQuantity := filledQuantity x;
     remainingQuantity := remainingQuantity x; avgFillPrice := avgFillPrice
     x; totalFillValue := totalFillValue x; commission := commission x;
     exchange := exchange x; exchangeOrderId := exchangeOrderId x;
     timeInForce := timeInForce x; stopLoss := stopLoss x; takeProfit :=
     takeProfit x; notes := notes x; createdAt := createdAt x; updatedAt :=
     updatedAt x; filledAt := filledAt x; fills := fills x; rejectionReason
     := rejectionReason x |}.
Definition set_stopPrice (v : option num) (x : t) : t :=
  {| id := id x; portfolioId := portfolioId x; symbol := symbol x; side :=
     side x; type := type x; quantity := quantity x; price := price x;
     stopPrice := v; status := status x; filledQuantity := filledQuantity x;
     remainingQuantity := remainingQuantity x; avgFillPrice := avgFillPrice
     x; totalFillValue := totalFillValue x; commission := commission x;
     exchange := exchange x; exchangeOrderId := exchangeOrderId x;
     timeInForce := timeInForce x; stopLoss := stopLoss x; takeProfit :=
     takeProfit x; notes := notes x; createdAt := createdAt x; updatedAt :=
     updatedAt x; filledAt := filledAt x; fills := fills x; rejectionReason
     := rejectionReason x |}.
Definition set_status (v : OrderStatus) (x : t) : t :=
  {| id := id x; portfolioId := portfolioId x; symbol := symbol x; side :=
     side x; type := type x; quantity := quantity x; price := price x;
     stopPrice := stopPrice x; status := v; filledQuantity := filledQuantity
     x; remainingQuantity := remainingQuantity x; avgFillPrice :=
     avgFillPrice x; totalFillValue := totalFillValue x; commission :=
     commission x; exchange := exchange x; exchangeOrderId :=
     exchangeOrderId x; timeInForce := timeInForce x; stopLoss := stopLoss
     x; takeProfit := takeProfit x; notes := notes x; createdAt := createdAt
     x; updatedAt := updatedAt x; filledAt := filledAt x; fills := fills x;
     rejectionReason := rejectionReason x |}.
Definition set_filledQuantity (v : num) (x : t) : t :=
  {| id := id x; portfolioId := portfolioId x; symbol := symbol x; side :=
     side x; type := type x; quantity := quantity x; price := price x;
     stopPrice := stopPrice x; status := status x; filledQuantity := v;
     remainingQuantity := remainingQuantity x; avgFillPrice := avgFillPrice
     x; totalFillValue := totalFillValue x; commission := commission x;
     exchange := exchange x; exchangeOrderId := exchangeOrderId x;
     timeInForce := timeInForce x; stopLoss := stopLoss x; takeProfit :=
     takeProfit x; notes := notes x; createdAt := createdAt x; updatedAt :=
     updatedAt x; filledAt := filledAt x; fills := fills x; rejectionReason
     := rejectionReason x |}.
Definition set_remainingQuantity (v : num) (x : t) : t :=
  {| id := id x; portfolioId := portfolioId x; symbol := symbol x; side :=
     side x; type := type x; quantity := quantity x; price := price x;
     stopPrice := stopPrice x; status := status x; filledQuantity :=
     filledQuantity x; remainingQuantity := v; avgFillPrice := avgFillPrice
     x; totalFillValue := totalFillValue x; commission := commission x;
     exchange := exchange x; exchangeOrderId := exchangeOrderId x;
     timeInForce := timeInForce x; stopLoss := stopLoss x; takeProfit :=
     takeProfit x; notes := notes x; createdAt := createdAt x; updatedAt :=
     updatedAt x; filledAt := filledAt x; fills := fills x; rejectionReason
     := rejectionReason x |}.
Definition set_avgFillPrice (v : num) (x : t) : t :=
  {| id := id x; portfolioId := portfolioId x; symbol := symbol x; side :=
     side x; type := type x; quantity := quantity x; price := price x;
     stopPrice := stopPrice x; status := status x; filledQuantity :=
     filledQuantity x; remainingQuantity := remainingQuantity x;
     avgFillPrice := v; totalFillValue := totalFillValue x; commission :=
     commission x; exchange := exchange x; exchangeOrderId :=
     exchangeOrderId x; timeInForce := timeInForce x; stopLoss := stopLoss
     x; takeProfit := takeProfit x; notes := notes x; createdAt := createdAt
     x; updatedAt := updatedAt x; filledAt := filledAt x; fills := fills x;
     rejectionReason := rejectionReason x |}.
Definition set_totalFillValue (v : num) (x : t) : t :=
  {| id := id x; portfolioId := portfolioId x; symbol := symbol x; side :=
     side x; type := type x; quantity := quantity x; price := price x;
     stopPrice := stopPrice x; status := status x; filledQuantity :=
     filledQuantity x; remainingQuantity := remainingQuantity x;
     avgFillPrice := avgFillPrice x; totalFillValue := v; commission :=
     commission x; exchange := exchange x; exchangeOrderId :=
     exchangeOrderId x; timeInForce := timeInForce x; stopLoss := stopLoss
     x; takeProfit := takeProfit x; notes := notes x; createdAt := createdAt
     x; updatedAt := updatedAt x; filledAt := filledAt x; fills := fills x;
     rejectionReason := rejectionReason x |}.
Definition set_commission (v : num) (x : t) : t :=
  {| id := id x; portfolioId := portfolioId x; symbol := symbol x; side :=
     side x; type := type x; quantity := quantity x; price := price x;
     stopPrice := stopPrice x; status := status x; filledQuantity :=
     filledQuantity x; remainingQuantity := remainingQuantity x;
     avgFillPrice := avgFillPrice x; totalFillValue := totalFillValue x;
     commission := v; exchange := exchange x; exchangeOrderId :=
     exchangeOrderId x; timeInForce := timeInForce x; stopLoss := stopLoss
     x; takeProfit := takeProfit x; notes := notes x; createdAt := createdAt
     x; updatedAt := updatedAt x; filledAt := filledAt x; fills := fills x;
     rejectionReason := rejectionReason x |}.
Definition set_exchangeOrderId (v : option string) (x : t) : t :=
  {| id := id x; portfolioId := portfolioId x; symbol := symbol x; side :=
     side x; type := type x; quantity := quantity x; price := price x;
     stopPrice := stopPrice x; status := status x; filledQuantity :=
     filledQuantity x; remainingQuantity := remainingQuantity x;
     avgFillPrice := avgFillPrice x; totalFillValue := totalFillValue x;
     commission := commission x; exchange := exchange x; exchangeOrderId :=
     v; timeInForce := timeInForce x; stopLoss := stopLoss x; takeProfit :=
     takeProfit x; notes := notes x; createdAt := createdAt x; updatedAt :=
     updatedAt x; filledAt := filledAt x; fills := fills x; rejectionReason
     := rejectionReason x |}.
Definition set_updatedAt (v : Z) (x : t) : t :=
  {| id := id x; portfolioId := portfolioId x; symbol := symbol x; side :=
     side x; type := type x; quantity := quantity x; price := price x;
     stopPrice := stopPrice x; status := status x; filledQuantity :=
     filledQuantity x; remainingQuantity := remainingQuantity x;
     avgFillPrice := avgFillPrice x; totalFillValue := totalFillValue x;
     commission := commission x; exchange := exchange x; exchangeOrderId :=
     exchangeOrderId x; timeInForce := timeInForce x; stopLoss := stopLoss
     x; takeProfit := takeProfit x; notes := notes x; createdAt := createdAt
     x; updatedAt := v; filledAt := filledAt x; fills := fills x;
     rejectionReason := rejectionReason x |}.
Definition set_filledAt (v : option Z) (x : t) : t :=
  {| id := id x; portfolioId := portfolioId x; symbol := symbol x; side :=
     side x; type := type x; quantity := quantity x; price := price x;
     stopPrice := stopPrice x; status := status x; filledQuantity :=
     filledQuantity x; remainingQuantity := remainingQuantity x;
     avgFillPrice := avgFillPrice x; totalFillValue := totalFillValue x;
     commission := commission x; exchange := exchange x; exchangeOrderId :=
     exchangeOrderId x; timeInForce := timeInForce x; stopLoss := stopLoss
     x; takeProfit := takeProfit x; notes := notes x; createdAt := createdAt
     x; updatedAt := updatedAt x; filledAt := v; fills := fills x;
     rejectionReason := rejectionReason x |}.
Definition set_fills (v : list Fill.t) (x : t) : t :=
  {| id := id x; portfolioId := portfolioId x; symbol := symbol x; side :=
     side x; type := type x; quantity := quantity x; price := price x;
     stopPrice := stopPrice x; status := status x; filledQuantity :=
     filledQuantity x; remainingQuantity := remainingQuantity x;
     avgFillPrice := avgFillPrice x; totalFillValue := totalFillValue x;
     commission := commission x; exchange := exchange x; exchangeOrderId :=
     exchangeOrderId x; timeInForce := timeInForce x; stopLoss := stopLoss
     x; takeProfit := takeProfit x; notes := notes x; createdAt := createdAt
     x; updatedAt := updatedAt x; filledAt := filledAt x; fills := v;
     rejectionReason := rejectionReason x |}.
Definition set_rejectionReason (v : option string) (x : t) : t :=
  {| id := id x; portfolioId := portfolioId x; symbol := symbol x; side :=
     side x; type := type x; quantity := quantity x; price := price x;
     stopPrice := stopPrice x; status := status x; filledQuantity :=
     filledQuantity x; remainingQuantity := remainingQuantity x;
     avgFillPrice := avgFillPrice x; totalFillValue := totalFillValue x;
     commission := commission x; exchange := exchange x; exchangeOrderId :=
     exchangeOrderId x; timeInForce := timeInForce x; stopLoss := stopLoss
     x; takeProfit := takeProfit x; notes := notes x; createdAt := createdAt
     x; updatedAt := updatedAt x; filledAt := filledAt x; fills := fills x;
     rejectionReason := v |}.
End Order.

Module OrderRow.
Record t := mk {
  id : string;
  portfolio_id : string;
  symbol : string;
  side : Side;
  type : OrderType;
  quantity : num;
  price : num;
  stop_price : option num;
  status : OrderStatus;
  filled_quantity : option num;
  remaining_quantity : option num;
  avg_fill_price : option num;
  total_fill_value : option num;
  commission : option num;
  exchange : string;
  exchange_order_id : option string;
  time_in_force : option TimeInForce;
  stop_loss : option num;
  take_profit : option num;
  notes : option string;
  created_at : Z;
  updated_at : option Z;
  filled_at : option Z;
  rejection_reason : option string
}.
End OrderRow.


Inductive ValidationError :=
  | SymbolRequired
  | QuantityNotPositive
  | PriceRequired
  | StopPriceRequired
  | PortfolioNotFound
  | InsufficientCash (required available : num)
  | InsufficientPosition (requested available : num)
  | RiskRejected (r : Risk.Rejection).

Inductive Warning := MarketClosed.
Inductive RiskLevel := low | medium | high.
Inductive RiskFactor :=
  | PortfolioMissing
  | LargePositionSize
  | MediumPositionSize
  | MarketOrderPriceUncertainty.

Record RiskAssessment := {
  riskLevel : RiskLevel;
  riskFactors : list RiskFactor;
  positionSizePercent : num;
  leverageImpact : num
}.

Module OrderValidation.
Record t := {
  valid : bool;
  errors : list ValidationError;
  warnings : list Warning;
  estimatedCost : num;
  estimatedCommission : num;
  riskAssessment : RiskAssessment
}.
End OrderValidation.

Inductive ReportStatus := success | partial | failed.
Inductive ReportMessage :=
  | ValidationFailed (errors : list ValidationError)
  | ExecutedSuccessfully
  | PartiallyExecuted
  | ExecutionFailed (rejectionReason : string).

Module ExecutionReport.
Record t := {
  orderId : string;
  symbol : string;
  side : Side;
  executedQuantity : num;
  avgPrice : num;
  totalValue : num;
  commission : num;
  status : ReportStatus;
  message : ReportMessage;
  timestamp : Z;
  fills : list Fill.t
}.
End ExecutionReport.

(** The request the order service hands to the exchange adapter. *)
Module ExchangeOrderRequest.
Record t := {
  symbol : string;
  type : OrderType;
  side : Side;
  amount : num;
  price : option num;
  stopPrice : option num
}.
End ExchangeOrderRequest.

(** The tables of the remote store. *)
Record Database := {
  ordersTable : gmap string OrderRow.t;
  portfoliosTable : gmap string PortfolioRow.t;
  tradesTable : list Trade.t;
  positionsTable : list Position.t
}.

Definition set_ordersTable (v : gmap string OrderRow.t) (x : Database)
    : Database :=
  {| ordersTable := v; portfoliosTable := portfoliosTable x;
     tradesTable := tradesTable x; positionsTable := positionsTable x |}.

(** [orders] is the in-memory map of order objects.  [pendingOrders]
    maps the same ids to the same objects, so it is kept as the set of
    its keys.  [exchanges] is the set of initialised exchange names.
    The three event lists record what subscribers are sent. *)
Record World := mkWorld {
  orders : gmap string Order.t;
  pendingOrders : gset string;
  portfolios : gmap string Portfolio.t;
  exchanges : gset string;
  riskLimits : Risk.RiskLimits;
  database : Database;
  now : Z;
  nextId : nat;
  orderEvents : list Order.t;
  executionEvents : list ExecutionReport.t;
  portfolioEvents : list Portfolio.t
}.
Definition set_orders (v : gmap string Order.t) (x : World) : World :=
  {| orders := v; pendingOrders := pendingOrders x; portfolios := portfolios
     x; exchanges := exchanges x; riskLimits := riskLimits x; database :=
     database x; now := now x; nextId := nextId x; orderEvents :=
     orderEvents x; executionEvents := executionEvents x; portfolioEvents :=
     portfolioEvents x |}.
Definition set_pendingOrders (v : gset string) (x : World) : World :=
  {| orders := orders x; pendingOrders := v; portfolios := portfolios x;
     exchanges := exchanges x; riskLimits := riskLimits x; database :=
     database x; now := now x; nextId := nextId x; orderEvents :=
     orderEvents x; executionEvents := executionEvents x; portfolioEvents :=
     portfolioEvents x |}.
Definition set_portfolios (v : gmap string Portfolio.t) (x : World) : World :=
  {| orders := orders x; pendingOrders := pendingOrders x; portfolios := v;
     exchanges := exchanges x; riskLimits := riskLimits x; database :=
     database x; now := now x; nextId := nextId x; orderEvents :=
     orderEvents x; executionEvents := executionEvents x; portfolioEvents :=
     portfolioEvents x |}.
Definition set_database (v : Database) (x : World) : World :=
  {| orders := orders x; pendingOrders := pendingOrders x; portfolios :=
     portfolios x; exchanges := exchanges x; riskLimits := riskLimits x;
     database := v; now := now x; nextId := nextId x; orderEvents :=
     orderEvents x; executionEvents := executionEvents x; portfolioEvents :=
     portfolioEvents x |}.
Definition set_nextId (v : nat) (x : World) : World :=
  {| orders := orders x; pendingOrders := pendingOrders x; portfolios :=
     portfolios x; exchanges := exchanges x; riskLimits := riskLimits x;
     database := database x; now := now x; nextId := v; orderEvents :=
     orderEvents x; executionEvents := executionEvents x; portfolioEvents :=
     portfolioEvents x |}.
Definition set_orderEvents (v : list Order.t) (x : World) : World :=
  {| orders := orders x; pendingOrders := pendingOrders x; portfolios :=
     portfolios x; exchanges := exchanges x; riskLimits := riskLimits x;
     database := database x; now := now x; nextId := nextId x; orderEvents
     := v; executionEvents := executionEvents x; portfolioEvents :=
     portfolioEvents x |}.
Definition set_executionEvents (v : list ExecutionReport.t) (x : World) : World :=
  {| orders := orders x; pendingOrders := pendingOrders x; portfolios :=
     portfolios x; exchanges := exchanges x; riskLimits := riskLimits x;
     database := database x; now := now x; nextId := nextId x; orderEvents
     := orderEvents x; executionEvents := v; portfolioEvents :=
     portfolioEvents x |}.
Definition set_portfolioEvents (v : list Portfolio.t) (x : World) : World :=
  {| orders := orders x; pendingOrders := pendingOrders x; portfolios :=
     portfolios x; exchanges := exchanges x; riskLimits := riskLimits x;
     database := database x; now := now x; nextId := nextId x; orderEvents
     := orderEvents x; executionEvents := executionEvents x; portfolioEvents
     := v |}.

Notation "x |> f" := (f x) (at level 68, left associativity, only parsing).

(** An id built from the clock and a random suffix; the counter stands
    for the suffix. *)
Definition freshId (prefix : string) (w : World) : string :=
  prefix +:+ pretty (now w) +:+ "_" +:+ pretty (nextId w).

Definition tick (w : World) : World := set_nextId (S (nextId w)) w.

(** Keys every object literal inherits from [Object.prototype]. *)
Definition objectPrototypeKeys : list string :=
  ["constructor"; "hasOwnProperty"; "isPrototypeOf"; "propertyIsEnumerable";
   "toLocaleString"; "toString"; "valueOf"; "__defineGetter__";
   "__defineSetter__"; "__lookupGetter__"; "__lookupSetter__"; "__proto__"]%string.

Fixpoint assoc (key : string) (table : list (string * num)) : option num :=
  match table with
  | [] => None
  | (k, v) :: rest => if String.eqb k key then Some v else assoc key rest
  end.

(** [table[key] || dflt] for an object literal of numbers whose result
    is used in arithmetic: an inherited property is a truthy non-number,
    which the arithmetic turns into NaN. *)
Definition record_or (table : list (string * num)) (key : string)
    (dflt : num) : num :=
  match assoc key table with
  | Some v => if JS.truthy v then v else dflt
  | None =>
      if existsb (String.eqb key) objectPrototypeKeys then NaN else dflt
  end.

Definition lowerAscii (c : ascii) : ascii :=
  let n := nat_of_ascii c in
  if (65 <=? n)%nat && (n <=? 90)%nat then ascii_of_nat (n + 32) else c.

(** [s.toLowerCase()] on ASCII letters, the letters of the exchange
    names it is applied to; characters outside ASCII are left as they
    are, without the case mapping of Unicode. *)
Fixpoint toLowerCase (s : string) : string :=
  match s with
  | EmptyString => EmptyString
  | String c rest => String (lowerAscii c) (toLowerCase rest)
  end.

(** [!s] and the truthiness of an optional string or timestamp. *)
Definition emptyString (s : string) : bool := String.eqb s "".
Definition truthyString (s : option string) : bool :=
  match s with
  | Some x => negb (emptyString x)
  | None => false
  end.
Definition truthyTime (t : option Z) : bool :=
  match t with
  | Some x => negb (x =? 0)%Z
  | None => false
  end.

(** *** Exchange adapter (exchangeService.ts) *)

(** [!x || x <= 0] for an optional number. *)
Definition missingOrNonPositive (x : option num) : bool :=
  JS.falsy x ||
  match x with
  | Some v => (v <=? Fin 0)%num
  | None => false
  end.

Definition exchangeValidateOrder (r : ExchangeOrderRequest.t)
    : result string unit :=
  if emptyString (ExchangeOrderRequest.symbol r)
  then Throw "Symbol is required"%string
  else if missingOrNonPositive (Some (ExchangeOrderRequest.amount r))
  then Throw "Amount must be greater than 0"%string
  else
    match ExchangeOrderRequest.type r with
    | limit =>
        if missingOrNonPositive (ExchangeOrderRequest.price r)
        then Throw "Price is required for limit orders"%string
        else Ok tt
    | stop =>
        if missingOrNonPositive (ExchangeOrderRequest.stopPrice r)
        then Throw "Stop price is required for stop orders"%string
        else Ok tt
    | _ => Ok tt
    end.

Definition notInitialized (exchange : string) : string :=
  "Exchange " +:+ exchange +:+ " not initialized".

(** [placeOrder]: the mock exchange accepts every order that passes the
    adapter's own validation; the result is the exchange's order id. *)
Definition placeOrder (w : World) (exchange : string)
    (r : ExchangeOrderRequest.t) : result string (World * string) :=
  if bool_decide (exchange ∈ exchanges w) then
    match exchangeValidateOrder r with
    | Throw message => Throw message
    | Ok _ => Ok (tick w, freshId "order_" w)
    end
  else Throw (notInitialized exchange).

Definition exchangeCancelOrder (w : World) (exchange orderId : string)
    : result string bool :=
  if bool_decide (exchange ∈ exchanges w) then Ok true
  else Throw (notInitialized exchange).

(** *** Portfolio ledger (portfolioService.ts) *)

Fixpoint updateFirst (test : Position.t -> bool)
    (f : Position.t -> Position.t) (l : list Position.t) : list Position.t :=
  match l with
  | [] => []
  | p :: rest =>
      if test p then f p :: rest else p :: updateFirst test f rest
  end.

Definition newPosition (newId : string) (portfolio : Portfolio.t)
    (trade : Trade.t) : Position.t :=
  {| Position.id := newId;
     Position.portfolioId := Portfolio.id portfolio;
     Position.symbol := Trade.symbol trade;
     Position.quantity := Trade.quantity trade;
     Position.avgPrice := Trade.price trade;
     Position.currentPrice := Trade.price trade;
     Position.marketValue := (Trade.quantity trade * Trade.price trade)%num;
     Position.unrealizedPnL := Fin 0;
     Position.unrealizedPnLPercent := Fin 0;
     Position.side := long;
     Position.entryDate := Trade.timestamp trade;
     Position.lastUpdated := Trade.timestamp trade |}.

(** [processTrade] without its final [saveTrade]; [newId] is the id a
    newly opened position receives. *)
Definition processTrade (newId : string) (portfolio : Portfolio.t)
    (trade : Trade.t) : Portfolio.t :=
  let hasSymbol p := String.eqb (Position.symbol p) (Trade.symbol trade) in
  let notional := (Trade.quantity trade * Trade.price trade)%num in
  let portfolio1 :=
    match find hasSymbol (Portfolio.positions portfolio) with
    | Some existingPosition =>
        let '(position, portfolio0) :=
          match Trade.side trade with
          | buy =>
              let newQuantity :=
                (Position.quantity existingPosition
                 + Trade.quantity trade)%num in
              let newAvgPrice :=
                ((Position.quantity existingPosition
                  * Position.avgPrice existingPosition + notional)
                 / newQuantity)%num in
              (existingPosition
                 |> Position.set_quantity newQuantity
                 |> Position.set_avgPrice newAvgPrice,
               portfolio)
          | sell =>
              let realizedPnL :=
                (Trade.quantity trade
                 * (Trade.price trade
                    - Position.avgPrice existingPosition))%num in
              (existingPosition
                 |> Position.set_quantity
                      (JS.max (Fin 0)
                         (Position.quantity existingPosition
                          - Trade.quantity trade)%num),
               portfolio
                 |> Portfolio.set_realizedPnL
                      (Portfolio.realizedPnL portfolio + realizedPnL)%num
                 |> Portfolio.set_cashBalance
                      (Portfolio.cashBalance portfolio
                       + (notional - Trade.commission trade))%num)
          end in
        let position :=
          position |> Position.set_lastUpdated (Trade.timestamp trade) in
        let positions :=
          updateFirst hasSymbol (fun _ => position)
                      (Portfolio.positions portfolio0) in
        portfolio0
          |> Portfolio.set_positions
               (if (Position.quantity position =? Fin 0)%num
                then List.filter
                       (fun p => negb (String.eqb (Position.id p)
                                                  (Position.id position)))
                       positions
                else positions)
    | None =>
        match Trade.side trade with
        | buy =>
            portfolio
              |> Portfolio.set_positions
                   (Portfolio.positions portfolio
                    ++ [newPosition newId portfolio trade])
        | sell => portfolio
        end
    end in
  match Trade.side trade with
  | buy =>
      portfolio1
        |> Portfolio.set_cashBalance
             (Portfolio.cashBalance portfolio1
              - (notional + Trade.commission trade))%num
  | sell =>
      portfolio1
        |> Portfolio.set_cashBalance
             (Portfolio.cashBalance portfolio1
              + (notional - Trade.commission trade))%num
  end.

Section Operations.

(** Four helpers of the portfolio service are called by the code below
    but their bodies are not part of the sources; they are taken as
    given. *)
Variable recalculatePortfolio : Portfolio.t -> Portfolio.t.
Variable loadPositions : Database -> string -> list Position.t.
Variable savePortfolio : Portfolio.t -> Database -> Database.
Variable saveTrade : Trade.t -> Database -> Database.

Definition portfolioOfRow (w : World) (data : PortfolioRow.t)
    (positions : list Position.t) : Portfolio.t :=
  {| Portfolio.id := PortfolioRow.id data;
     Portfolio.userId := PortfolioRow.user_id data;
     Portfolio.name := PortfolioRow.name data;
     Portfolio.description := PortfolioRow.description data;
     Portfolio.totalValue := PortfolioRow.total_value data;
     Portfolio.totalEquity := PortfolioRow.total_value data;
     Portfolio.cashBalance := PortfolioRow.total_value data;
     Portfolio.marginUsed := Fin 0;
     Portfolio.freeMargin := PortfolioRow.total_value data;
     Portfolio.unrealizedPnL := Fin 0;
     Portfolio.realizedPnL := Fin 0;
     Portfolio.totalReturn := Fin 0;
     Portfolio.totalReturnPercent := Fin 0;
     Portfolio.dayChange := Fin 0;
     Portfolio.dayChangePercent := Fin 0;
     Portfolio.positions := positions;
     Portfolio.createdAt := PortfolioRow.created_at data;
     Portfolio.updatedAt := now w |}.

Definition getPortfolio (w : World) (portfolioId : string)
    : World * option Portfolio.t :=
  match portfolios w !! portfolioId with
  | Some portfolio => (w, Some portfolio)
  | None =>
      match portfoliosTable (database w) !! portfolioId with
      | None => (w, None)
      | Some data =>
          let positions := loadPositions (database w) portfolioId in
          let portfolio := portfolioOfRow w data positions in
          (w |> set_portfolios (<[portfolioId := portfolio]> (portfolios w)),
           Some portfolio)
      end
  end.

Definition processTrades (w : World) (portfolio : Portfolio.t)
    (trades : list Trade.t) : World * Portfolio.t :=
  fold_left
    (fun '(w', p) trade =>
       (w' |> tick |> set_database (saveTrade trade (database w')),
        processTrade (freshId "pos_" w') p trade))
    trades (w, portfolio).

Definition updatePositions (w : World) (portfolioId : string)
    (trades : list Trade.t) : World * bool :=
  match getPortfolio w portfolioId with
  | (w1, None) => (w1, false)
  | (w1, Some portfolio) =>
      let '(w2, processed) := processTrades w1 portfolio trades in
      let recalculated := recalculatePortfolio processed in
      (w2 |> set_portfolios (<[portfolioId := recalculated]> (portfolios w2))
          |> set_database (savePortfolio recalculated (database w2))
          |> set_portfolioEvents (portfolioEvents w2 ++ [recalculated]),
       true)
  end.

(** *** Order service (orderService.ts) *)

Definition mockPrices : list (string * num) :=
  [("BTC/USD", Fin 45000); ("ETH/USD", Fin 3000); ("AAPL", Fin 150);
   ("GOOGL", Fin 2500); ("TSLA", Fin 800)]%string.

Definition getEstimatedPrice (symbol : string) (side : Side) : num :=
  let basePrice := record_or mockPrices symbol (Fin 100) in
  let spread := Fin 0.001 in
  match side with
  | buy => (basePrice * (Fin 1 + spread))%num
  | sell => (basePrice * (Fin 1 - spread))%num
  end.

Definition commissionRates : list (string * num) :=
  [("binance", Fin 0.001); ("kraken", Fin 0.0026); ("coinbase", Fin 0.005);
   ("forex.com", Fin 0.0002); ("interactive_brokers", Fin 0.005);
   ("default", Fin 0.001)]%string.

Definition calculateCommission (exchange : string) (orderValue : num) : num :=
  let rate := record_or commissionRates (toLowerCase exchange) (Fin 0.001) in
  JS.max (Fin 0.01) (orderValue * rate)%num.

(** [getUTCDay] and [getUTCHours] of the clock, in milliseconds since the
    epoch (a Thursday). *)
Definition utcDay (t : Z) : Z := ((t / 86400000 + 4) mod 7)%Z.
Definition utcHour (t : Z) : Z := ((t / 3600000) mod 24)%Z.

Definition isMarketOpen (w : World) (symbol : string) : bool :=
  let day := utcDay (now w) in
  let hour := utcHour (now w) in
  if includes "BTC" symbol || includes "ETH" symbol
     || includes "crypto" symbol
  then true
  else if includes "/" symbol
  then negb ((day =? 0)%Z || ((day =? 6)%Z && (22 <=? hour)%Z)
             || ((day =? 1)%Z && (hour <? 0)%Z))
  else (1 <=? day)%Z && (day <=? 5)%Z && (14 <=? hour)%Z && (hour <? 21)%Z.

(** The ledger's portfolio as the risk service reads it.  Ledger
    positions have no [size] or [entryPrice] field and the portfolio no
    [cash] field; read in arithmetic, the missing fields are NaN. *)
Definition riskView (portfolio : Portfolio.t) : Risk.Portfolio :=
  {| Risk.totalValue := Portfolio.totalValue portfolio;
     Risk.totalEquity := Portfolio.totalEquity portfolio;
     Risk.positions :=
       map (fun p =>
              {| Risk.symbol := Position.symbol p;
                 Risk.size := NaN;
                 Risk.entryPrice := NaN;
                 Risk.currentPrice := Position.currentPrice p;
                 Risk.unrealizedPnL := Position.unrealizedPnL p;
                 Risk.stopLoss := None |})
           (Portfolio.positions portfolio);
     Risk.cash := NaN |}.

Definition estimatedPriceOf (rq : OrderRequest.t) : num :=
  JS.or_else (OrderRequest.price rq)
    (getEstimatedPrice (OrderRequest.symbol rq) (OrderRequest.side rq)).

Definition isLimitType (t : OrderType) : bool :=
  match t with limit | stop_limit => true | _ => false end.
Definition isStopType (t : OrderType) : bool :=
  match t with stop | stop_limit => true | _ => false end.
Definition isMarket (t : OrderType) : bool :=
  match t with market => true | _ => false end.
Definition isBuy (s : Side) : bool :=
  match s with buy => true | sell => false end.

Definition basicErrors (rq : OrderRequest.t) : list ValidationError :=
  (if emptyString (OrderRequest.symbol rq) then [SymbolRequired] else [])
  ++ (if missingOrNonPositive (Some (OrderRequest.quantity rq))
      then [QuantityNotPositive] else [])
  ++ (if isLimitType (OrderRequest.type rq)
         && missingOrNonPositive (OrderRequest.price rq)
      then [PriceRequired] else [])
  ++ (if isStopType (OrderRequest.type rq)
         && missingOrNonPositive (OrderRequest.stopPrice rq)
      then [StopPriceRequired] else []).

Definition fundsErrors (rq : OrderRequest.t) (portfolio : Portfolio.t)
    (estimatedCost estimatedCommission : num) : list ValidationError :=
  (if isBuy (OrderRequest.side rq)
      && (Portfolio.cashBalance portfolio
          <? estimatedCost + estimatedCommission)%num
   then [InsufficientCash (estimatedCost + estimatedCommission)%num
                          (Portfolio.cashBalance portfolio)]
   else [])
  ++ (match OrderRequest.side rq with
      | buy => []
      | sell =>
          let existingPosition :=
            find (fun p => String.eqb (Position.symbol p)
                                      (OrderRequest.symbol rq))
                 (Portfolio.positions portfolio) in
          match existingPosition with
          | Some p =>
              if (Position.quantity p <? OrderRequest.quantity rq)%num
              then [InsufficientPosition (OrderRequest.quantity rq)
                      (JS.or_else (Some (Position.quantity p)) (Fin 0))]
              else []
          | None =>
              [InsufficientPosition (OrderRequest.quantity rq) (Fin 0)]
          end
      end).

Definition riskErrors (w : World) (rq : OrderRequest.t)
    (portfolio : Portfolio.t) (estimatedPrice : num) : list ValidationError :=
  let mockAccount :=
    {| Risk.balance := Portfolio.cashBalance portfolio;
       Risk.equity := Portfolio.totalEquity portfolio;
       Risk.marginUsed := Portfolio.marginUsed portfolio;
       Risk.freeMargin := Portfolio.freeMargin portfolio;
       Risk.marginLevel := Fin 100 |} in
  let riskValidation :=
    Risk.validateOrder (riskLimits w)
      {| Risk.o_symbol := OrderRequest.symbol rq;
         Risk.o_side := OrderRequest.side rq;
         Risk.o_type := OrderRequest.type rq;
         Risk.o_size := OrderRequest.quantity rq;
         Risk.o_price := Some estimatedPrice;
         Risk.o_stopLoss := OrderRequest.stopLoss rq;
         Risk.o_takeProfit := OrderRequest.takeProfit rq |}
      (riskView portfolio) mockAccount in
  match Risk.valid riskValidation, Risk.reason riskValidation with
  | false, Some r => [RiskRejected r]
  | _, _ => []
  end.

Definition assessRisk (rq : OrderRequest.t) (portfolio : Portfolio.t)
    (estimatedCost : num) : RiskAssessment :=
  let percent :=
    (estimatedCost / Portfolio.totalValue portfolio * Fin 100)%num in
  let '(factors, level) :=
    if (percent >? Fin 10)%num then ([LargePositionSize], high)
    else if (percent >? Fin 5)%num then ([MediumPositionSize], medium)
    else ([], low) in
  let '(factors, level) :=
    if isMarket (OrderRequest.type rq)
    then (factors ++ [MarketOrderPriceUncertainty],
          match level with low => medium | other => other end)
    else (factors, level) in
  {| riskLevel := level; riskFactors := factors;
     positionSizePercent := percent; leverageImpact := Fin 0 |}.

Definition validateOrder (w : World) (rq : OrderRequest.t)
    : World * OrderValidation.t :=
  let errors := basicErrors rq in
  match getPortfolio w (OrderRequest.portfolioId rq) with
  | (w1, None) =>
      (w1,
       {| OrderValidation.valid := false;
          OrderValidation.errors := errors ++ [PortfolioNotFound];
          OrderValidation.warnings := [];
          OrderValidation.estimatedCost := Fin 0;
          OrderValidation.estimatedCommission := Fin 0;
          OrderValidation.riskAssessment :=
            {| riskLevel := high; riskFactors := [PortfolioMissing];
               positionSizePercent := Fin 0; leverageImpact := Fin 0 |} |})
  | (w1, Some portfolio) =>
      let estimatedPrice := estimatedPriceOf rq in
      let estimatedCost := (OrderRequest.quantity rq * estimatedPrice)%num in
      let estimatedCommission :=
        calculateCommission (OrderRequest.exchange rq) estimatedCost in
      let errors :=
        errors
        ++ fundsErrors rq portfolio estimatedCost estimatedCommission
        ++ riskErrors w1 rq portfolio estimatedPrice in
      (w1,
       {| OrderValidation.valid := (length errors =? 0)%nat;
          OrderValidation.errors := errors;
          OrderValidation.warnings :=
            if isMarketOpen w1 (OrderRequest.symbol rq) then []
            else [MarketClosed];
          OrderValidation.estimatedCost := estimatedCost;
          OrderValidation.estimatedCommission := estimatedCommission;
          OrderValidation.riskAssessment :=
            assessRisk rq portfolio estimatedCost |})
  end.

Definition orderToRow (order : Order.t) : OrderRow.t :=
  {| OrderRow.id := Order.id order;
     OrderRow.portfolio_id := Order.portfolioId order;
     OrderRow.symbol := Order.symbol order;
     OrderRow.side := Order.side order;
     OrderRow.type := Order.type order;
     OrderRow.quantity := Order.quantity order;
     OrderRow.price := Order.price order;
     OrderRow.stop_price := Order.stopPrice order;
     OrderRow.status := Order.status order;
     OrderRow.filled_quantity := Some (Order.filledQuantity order);
     OrderRow.remaining_quantity := Some (Order.remainingQuantity order);
     OrderRow.avg_fill_price := Some (Order.avgFillPrice order);
     OrderRow.total_fill_value := Some (Order.totalFillValue order);
     OrderRow.commission := Some (Order.commission order);
     OrderRow.exchange := Order.exchange order;
     OrderRow.exchange_order_id := Order.exchangeOrderId order;
     OrderRow.time_in_force := Some (Order.timeInForce order);
     OrderRow.stop_loss := Order.stopLoss order;
     OrderRow.take_profit := Order.takeProfit order;
     OrderRow.notes := Order.notes order;
     OrderRow.created_at := Order.createdAt order;
     OrderRow.updated_at := Some (Order.updatedAt order);
     OrderRow.filled_at :=
       if truthyTime (Order.filledAt order) then Order.filledAt order
       else None;
     OrderRow.rejection_reason := Order.rejectionReason order |}.

(** [saveOrder]: upsert of the order's row. *)
Definition saveOrder (order : Order.t) (w : World) : World :=
  w |> set_database
         (set_ordersTable
            (<[Order.id order := orderToRow order]>
               (ordersTable (database w)))
            (database w)).

Definition mapDatabaseToOrder (data : OrderRow.t) : Order.t :=
  {| Order.id := OrderRow.id data;
     Order.portfolioId := OrderRow.portfolio_id data;
     Order.symbol := OrderRow.symbol data;
     Order.side := OrderRow.side data;
     Order.type := OrderRow.type data;
     Order.quantity := OrderRow.quantity data;
     Order.price := OrderRow.price data;
     Order.stopPrice := OrderRow.stop_price data;
     Order.status := OrderRow.status data;
     Order.filledQuantity := JS.or_else (OrderRow.filled_quantity data) (Fin 0);
     Order.remainingQuantity :=
       JS.or_else (OrderRow.remaining_quantity data) (OrderRow.quantity data);
     Order.avgFillPrice := JS.or_else (OrderRow.avg_fill_price data) (Fin 0);
     Order.totalFillValue :=
       JS.or_else (OrderRow.total_fill_value data) (Fin 0);
     Order.commission := JS.or_else (OrderRow.commission data) (Fin 0);
     Order.exchange := OrderRow.exchange data;
     Order.exchangeOrderId := OrderRow.exchange_order_id data;
     Order.timeInForce := default GTC (OrderRow.time_in_force data);
     Order.stopLoss := OrderRow.stop_loss data;
     Order.takeProfit := OrderRow.take_profit data;
     Order.notes := OrderRow.notes data;
     Order.createdAt := OrderRow.created_at data;
     Order.updatedAt :=
       default (OrderRow.created_at data) (OrderRow.updated_at data);
     Order.filledAt := OrderRow.filled_at data;
     Order.fills := [];
     Order.rejectionReason := OrderRow.rejection_reason data |}.

(** A mutation of an order object shows in the map that holds it. *)
Definition commit (key : string) (order : Order.t) (w : World) : World :=
  w |> set_orders (<[key := order]> (orders w)).

Definition notifySubscribers (order : Order.t) (w : World) : World :=
  w |> set_orderEvents (orderEvents w ++ [order]).

Definition notifyExecutionSubscribers (report : ExecutionReport.t) (w : World)
    : World :=
  w |> set_executionEvents (executionEvents w ++ [report]).

Definition getOrder (w : World) (orderId : string) : World * option Order.t :=
  match orders w !! orderId with
  | Some order => (w, Some order)
  | None =>
      match ordersTable (database w) !! orderId with
      | None => (w, None)
      | Some data =>
          let order := mapDatabaseToOrder data in
          (commit orderId order w, Some order)
      end
  end.

Definition createOrder (w : World) (rq : OrderRequest.t)
    (validation : OrderValidation.t) : World * Order.t :=
  let orderId := freshId "order_" w in
  let estimatedPrice := estimatedPriceOf rq in
  let order :=
    {| Order.id := orderId;
       Order.portfolioId := OrderRequest.portfolioId rq;
       Order.symbol := OrderRequest.symbol rq;
       Order.side := OrderRequest.side rq;
       Order.type := OrderRequest.type rq;
       Order.quantity := OrderRequest.quantity rq;
       Order.price := estimatedPrice;
       Order.stopPrice := OrderRequest.stopPrice rq;
       Order.status := pending;
       Order.filledQuantity := Fin 0;
       Order.remainingQuantity := OrderRequest.quantity rq;
       Order.avgFillPrice := Fin 0;
       Order.totalFillValue := Fin 0;
       Order.commission := Fin 0;
       Order.exchange := OrderRequest.exchange rq;
       Order.exchangeOrderId := None;
       Order.timeInForce := default GTC (OrderRequest.timeInForce rq);
       Order.stopLoss := OrderRequest.stopLoss rq;
       Order.takeProfit := OrderRequest.takeProfit rq;
       Order.notes := OrderRequest.notes rq;
       Order.createdAt := now w;
       Order.updatedAt := now w;
       Order.filledAt := None;
       Order.fills := [];
       Order.rejectionReason := None |} in
  (w |> tick |> commit orderId order
     |> set_pendingOrders ({[orderId]} ∪ pendingOrders w),
   order).

Definition opposite (s : Side) : Side :=
  match s with buy => sell | sell => buy end.

(** The requests [placeStopLossOrder] and [takeProfitOrder] build. *)
Definition stopLossRequest (parentOrder : Order.t) : OrderRequest.t :=
  {| OrderRequest.portfolioId := Order.portfolioId parentOrder;
     OrderRequest.symbol := Order.symbol parentOrder;
     OrderRequest.side := opposite (Order.side parentOrder);
     OrderRequest.type := stop;
     OrderRequest.quantity := Order.filledQuantity parentOrder;
     OrderRequest.price := None;
     OrderRequest.stopPrice := Order.stopLoss parentOrder;
     OrderRequest.timeInForce := Some GTC;
     OrderRequest.exchange := Order.exchange parentOrder;
     OrderRequest.stopLoss := None;
     OrderRequest.takeProfit := None;
     OrderRequest.notes :=
       Some ("Stop loss for order " +:+ Order.id parentOrder) |}.

Definition takeProfitRequest (parentOrder : Order.t) : OrderRequest.t :=
  {| OrderRequest.portfolioId := Order.portfolioId parentOrder;
     OrderRequest.symbol := Order.symbol parentOrder;
     OrderRequest.side := opposite (Order.side parentOrder);
     OrderRequest.type := limit;
     OrderRequest.quantity := Order.filledQuantity parentOrder;
     OrderRequest.price := Order.takeProfit parentOrder;
     OrderRequest.stopPrice := None;
     OrderRequest.timeInForce := Some GTC;
     OrderRequest.exchange := Order.exchange parentOrder;
     OrderRequest.stopLoss := None;
     OrderRequest.takeProfit := None;
     OrderRequest.notes :=
       Some ("Take profit for order " +:+ Order.id parentOrder) |}.

(** The fill [processExecution] builds and the assignments it makes to
    the order for it. *)
Definition newFill (w : World) (order : Order.t) (quantity price : num)
    : Fill.t :=
  {| Fill.id := freshId "fill_" w;
     Fill.orderId := Order.id order;
     Fill.quantity := quantity;
     Fill.price := price;
     Fill.commission :=
       calculateCommission (Order.exchange order) (quantity * price)%num;
     Fill.timestamp := now w |}.

Definition recordFill (fill : Fill.t) (order : Order.t) : Order.t :=
  let filledQuantity :=
    (Order.filledQuantity order + Fill.quantity fill)%num in
  let totalFillValue :=
    (Order.totalFillValue order
     + Fill.quantity fill * Fill.price fill)%num in
  order
    |> Order.set_fills (Order.fills order ++ [fill])
    |> Order.set_filledQuantity filledQuantity
    |> Order.set_remainingQuantity
         (JS.max (Fin 0) (Order.quantity order - filledQuantity)%num)
    |> Order.set_commission
         (Order.commission order + Fill.commission fill)%num
    |> Order.set_totalFillValue totalFillValue
    |> Order.set_avgFillPrice (totalFillValue / filledQuantity)%num.

(** The trade a filled order posts to the ledger. *)
Definition tradeOf (w : World) (order : Order.t) : Trade.t :=
  {| Trade.id := freshId "trade_" w;
     Trade.portfolioId := Order.portfolioId order;
     Trade.symbol := Order.symbol order;
     Trade.side := Order.side order;
     Trade.quantity := Order.filledQuantity order;
     Trade.price := Order.avgFillPrice order;
     Trade.timestamp := now w;
     Trade.commission := Order.commission order;
     Trade.exchange := Order.exchange order;
     Trade.orderId := Some (Order.id order) |}.

(** The child stop-loss and take-profit submissions of a filled order.
    They are started without being awaited, so they are returned as
    requests still to be executed. *)
Definition childRequests (order : Order.t) : list OrderRequest.t :=
  (if JS.falsy (Order.stopLoss order) then []
   else [stopLossRequest order])
  ++ (if JS.falsy (Order.takeProfit order) then []
      else [takeProfitRequest order]).

Definition processExecution (w : World) (order : Order.t)
    (quantity price : num) : World * Order.t * list OrderRequest.t :=
  let fill := newFill w order quantity price in
  let w := tick w in
  let order := recordFill fill order in
  if (Order.remainingQuantity order =? Fin 0)%num then
    let order :=
      order |> Order.set_status filled
            |> Order.set_filledAt (Some (now w)) in
    let w := w |> set_pendingOrders (pendingOrders w ∖ {[Order.id order]}) in
    let trade := tradeOf w order in
    let w := tick w in
    let w := fst (updatePositions w (Order.portfolioId order) [trade]) in
    let children := childRequests order in
    let order := order |> Order.set_updatedAt (now w) in
    (commit (Order.id order) order w, order, children)
  else
    let order :=
      order |> Order.set_status partially_filled
            |> Order.set_updatedAt (now w) in
    (commit (Order.id order) order w, order, []).

Definition failedReport (w : World) (rq : OrderRequest.t) (orderId : string)
    (message : ReportMessage) : ExecutionReport.t :=
  {| ExecutionReport.orderId := orderId;
     ExecutionReport.symbol := OrderRequest.symbol rq;
     ExecutionReport.side := OrderRequest.side rq;
     ExecutionReport.executedQuantity := Fin 0;
     ExecutionReport.avgPrice := Fin 0;
     ExecutionReport.totalValue := Fin 0;
     ExecutionReport.commission := Fin 0;
     ExecutionReport.status := failed;
     ExecutionReport.message := message;
     ExecutionReport.timestamp := now w;
     ExecutionReport.fills := [] |}.

Definition reportOf (w : World) (order : Order.t) : ExecutionReport.t :=
  let isFilled := OrderStatus_eqb (Order.status order) filled in
  {| ExecutionReport.orderId := Order.id order;
     ExecutionReport.symbol := Order.symbol order;
     ExecutionReport.side := Order.side order;
     ExecutionReport.executedQuantity := Order.filledQuantity order;
     ExecutionReport.avgPrice := Order.avgFillPrice order;
     ExecutionReport.totalValue := Order.totalFillValue order;
     ExecutionReport.commission := Order.commission order;
     ExecutionReport.status := if isFilled then success else partial;
     ExecutionReport.message :=
       if isFilled then ExecutedSuccessfully else PartiallyExecuted;
     ExecutionReport.timestamp := now w;
     ExecutionReport.fills := Order.fills order |}.

(** [executeOrder] returns the world it leaves, its report and the child
    requests it started without awaiting them. *)
Definition executeOrder (w : World) (rq : OrderRequest.t)
    : World * ExecutionReport.t * list OrderRequest.t :=
  let '(w, validation) := validateOrder w rq in
  if negb (OrderValidation.valid validation) then
    (w,
     failedReport w rq ""
       (ValidationFailed (OrderValidation.errors validation)),
     [])
  else
    let '(w, order) := createOrder w rq validation in
    match
      placeOrder w (OrderRequest.exchange rq)
        {| ExchangeOrderRequest.symbol := OrderRequest.symbol rq;
           ExchangeOrderRequest.type := OrderRequest.type rq;
           ExchangeOrderRequest.side := OrderRequest.side rq;
           ExchangeOrderRequest.amount := OrderRequest.quantity rq;
           ExchangeOrderRequest.price := OrderRequest.price rq;
           ExchangeOrderRequest.stopPrice := None |}
    with
    | Ok (w, exchangeOrderId) =>
        let order :=
          order |> Order.set_exchangeOrderId (Some exchangeOrderId)
                |> Order.set_status submitted
                |> Order.set_updatedAt (now w) in
        let '(w, order, children) :=
          if isMarket (OrderRequest.type rq)
          then
            processExecution w order (OrderRequest.quantity rq)
              (OrderValidation.estimatedCost validation
               / OrderRequest.quantity rq)%num
          else (commit (Order.id order) order w, order, []) in
        let w := w |> saveOrder order |> notifySubscribers order in
        let executionReport := reportOf w order in
        (notifyExecutionSubscribers executionReport w, executionReport,
         children)
    | Throw message =>
        let order :=
          order |> Order.set_status rejected
                |> Order.set_rejectionReason (Some message)
                |> Order.set_updatedAt (now w) in
        (w |> commit (Order.id order) order |> saveOrder order
           |> notifySubscribers order,
         failedReport w rq (Order.id order) (ExecutionFailed message),
         [])
    end.

(** Runs a request and then, in turn, the child requests it started.
    A child is a stop or a limit order and starts no further child;
    [depth] bounds the nesting all the same. *)
Fixpoint executeWithChildren (depth : nat) (w : World) (rq : OrderRequest.t)
    : World * ExecutionReport.t :=
  let '(w1, report, children) := executeOrder w rq in
  match depth with
  | O => (w1, report)
  | S depth' =>
      (fold_left (fun w' child => fst (executeWithChildren depth' w' child))
                 children w1,
       report)
  end.

Definition isCompleted (s : OrderStatus) : bool :=
  match s with
  | filled | canceled | rejected => true
  | _ => false
  end.

Definition cancelOrder (w : World) (orderId : string) : World * bool :=
  match orders w !! orderId with
  | None => (w, false)
  | Some order =>
      if isCompleted (Order.status order) then (w, false)
      else
        let canceledOnExchange :=
          match Order.exchangeOrderId order with
          | Some exchangeOrderId =>
              if negb (emptyString exchangeOrderId)
                 && OrderStatus_eqb (Order.status order) submitted
              then exchangeCancelOrder w (Order.exchange order) exchangeOrderId
              else Ok true
          | None => Ok true
          end in
        match canceledOnExchange with
        | Throw _ => (w, false)
        | Ok _ =>
            let order :=
              order |> Order.set_status canceled
                    |> Order.set_updatedAt (now w) in
            (w |> commit orderId order
               |> set_pendingOrders (pendingOrders w ∖ {[orderId]})
               |> saveOrder order |> notifySubscribers order,
             true)
        end
  end.

Record Modifications := {
  newPrice : option num;
  newQuantity : option num;
  newStopPrice : option num
}.

Definition applyModifications (m : Modifications) (order : Order.t)
    : Order.t :=
  let order :=
    match newPrice m with
    | Some p => order |> Order.set_price p
    | None => order
    end in
  let order :=
    match newQuantity m with
    | Some q =>
        order |> Order.set_quantity q
              |> Order.set_remainingQuantity
                   (q - Order.filledQuantity order)%num
    | None => order
    end in
  match newStopPrice m with
  | Some s => order |> Order.set_stopPrice (Some s)
  | None => order
  end.

Definition modifyOrder (w : World) (orderId : string) (m : Modifications)
    : World * bool :=
  match getOrder w orderId with
  | (w, None) => (w, false)
  | (w, Some order) =>
      if negb (OrderStatus_eqb (Order.status order) submitted)
      then (w, false)
      else
        let canceledOnExchange :=
          match Order.exchangeOrderId order with
          | Some exchangeOrderId =>
              if negb (emptyString exchangeOrderId)
              then exchangeCancelOrder w (Order.exchange order) exchangeOrderId
              else Ok true
          | None => Ok true
          end in
        match canceledOnExchange with
        | Throw _ => (w, false)
        | Ok _ =>
            let order := applyModifications m order in
            let w := commit orderId order w in
            match
              placeOrder w (Order.exchange order)
                {| ExchangeOrderRequest.symbol := Order.symbol order;
                   ExchangeOrderRequest.type := Order.type order;
                   ExchangeOrderRequest.side := Order.side order;
                   ExchangeOrderRequest.amount :=
                     Order.remainingQuantity order;
                   ExchangeOrderRequest.price := Some (Order.price order);
                   ExchangeOrderRequest.stopPrice := None |}
            with
            | Throw _ => (w, false)
            | Ok (w, newExchangeOrderId) =>
                let order :=
                  order
                    |> Order.set_exchangeOrderId (Some newExchangeOrderId)
                    |> Order.set_updatedAt (now w) in
                (w |> commit orderId order |> saveOrder order
                   |> notifySubscribers order,
                 true)
            end
        end
  end.

End Operations.

End Services.

(** ** Risk engine: monitoring, alerts and exit levels (riskService.ts) *)

Module RiskMonitor.

Import Risk.

Inductive AlertType := warning | critical.
Inductive Level := low | medium | high.

(** The message of an alert, with the values the source interpolates
    into its text. *)
Inductive AlertMessage :=
  | HighLeverage (ratio : num)
  | HighMarginUtilization (percent : num)
  | HighDrawdown (percent : num)
  | LargePosition (symbol : string) (percent : num)
  | Custom (text : string).

Module Alert.
Record t := {
  id : string;
  type : AlertType;
  level : Level;
  message : AlertMessage;
  timestamp : Z;
  symbol : option string;
  value : option num;
  threshold : option num
}.
End Alert.

Module Metrics.
Record t := {
  totalExposure : num;
  leverageRatio : num;
  marginUtilization : num;
  valueAtRisk : num;
  maxDrawdown : num;
  sharpeRatio : num;
  correlation : gmap string num;
  diversificationRatio : num;
  riskScore : num;
  alerts : list Alert.t
}.
End Metrics.

(** The fields of the service.  ([priceHistory] is declared by the class
    and used by none of its methods.) *)
Record Service := {
  riskLimits : RiskLimits;
  alerts : list Alert.t
}.

Definition setAlerts (v : list Alert.t) (svc : Service) : Service :=
  {| riskLimits := riskLimits svc; alerts := v |}.

(** [zScores[confidence] || 1.645]: the table is keyed by the three
    confidence levels. *)
Definition getZScore (conf : num) : num :=
  match conf with
  | Fin c =>
      if Qeq_bool c 0.90 then Fin 1.282
      else if Qeq_bool c 0.95 then Fin 1.645
      else if Qeq_bool c 0.99 then Fin 2.326
      else Fin 1.645
  | _ => Fin 1.645
  end.

Section Monitoring.

(** [Math.sqrt], the random source (the draws a call makes, in order) and
    the clock are taken as given. *)
Variable sqrt : num -> num.
Variable random : nat -> Q.
Variable now : Z.

(** The draws left after the first [k]. *)
Definition after (k : nat) (draws : nat -> Q) : nat -> Q :=
  fun i => draws (k + i)%nat.

(** Mean and variance as the source folds them. *)
Definition meanOf (returns : list Q) : num :=
  (JS.sum (map Fin returns) / JS.of_nat (length returns))%num.

Definition varianceOf (returns : list Q) (mean : num) : num :=
  (fold_left (fun sum r => (sum + (Fin r - mean) * (Fin r - mean))%num)
             returns (Fin 0)
   / JS.of_nat (length returns))%num.

Definition calculateParametricVaR (draws : nat -> Q) (portfolio : Portfolio)
    (conf horizon : num) : VaRCalculation :=
  let portfolioReturns := calculatePortfolioReturns draws portfolio in
  if (length portfolioReturns =? 0)%nat
  then {| confidence := conf; timeHorizon := horizon; value := Fin 0 |}
  else
    let mean := meanOf portfolioReturns in
    let variance := varianceOf portfolioReturns mean in
    let stdDev := sqrt variance in
    let zScore := getZScore conf in
    let varReturn := (mean - zScore * stdDev)%num in
    let scaledVaR := (varReturn * sqrt horizon * totalValue portfolio)%num in
    {| confidence := conf; timeHorizon := horizon; value := JS.abs scaledVaR |}.

Inductive Method := historical | parametric.

Definition calculateVaR (draws : nat -> Q) (portfolio : Portfolio)
    (conf horizon : option num) (method : option Method) : VaRCalculation :=
  let conf := default (Fin 0.95) conf in
  let horizon := default (Fin 1) horizon in
  match default historical method with
  | historical => calculateHistoricalVaR sqrt draws portfolio conf horizon
  | parametric => calculateParametricVaR draws portfolio conf horizon
  end.

Definition calculateMaxDrawdown (draws : nat -> Q) (portfolio : Portfolio)
    : num :=
  Fin (draws 0%nat * 15).

Definition calculateSharpeRatio (draws : nat -> Q) (portfolio : Portfolio)
    : num :=
  let returns := calculatePortfolioReturns draws portfolio in
  if (length returns =? 0)%nat then Fin 0
  else
    let avgReturn := meanOf returns in
    let variance := varianceOf returns avgReturn in
    let stdDev := sqrt variance in
    let riskFreeRate := (Fin 0.02 / Fin 252)%num in
    if (stdDev >? Fin 0)%num then ((avgReturn - riskFreeRate) / stdDev)%num
    else Fin 0.

(** [table[key] = v] on a plain object used as a map of numbers: assigning
    a number to the key [__proto__] adds no property. *)
Definition assign (key : string) (v : num) (table : gmap string num)
    : gmap string num :=
  if String.eqb key "__proto__" then table else <[key := v]> table.

Definition calculatePortfolioCorrelation (draws : nat -> Q)
    (portfolio : Portfolio) : gmap string num :=
  fold_left
    (fun correlations '(i, position) =>
       assign (symbol position) (Fin (draws i * 0.8)) correlations)
    (imap (fun i position => (i, position)) (positions portfolio)) ∅.

Definition calculateDiversificationRatio (portfolio : Portfolio) : num :=
  let numPositions := JS.of_nat (length (positions portfolio)) in
  JS.max (Fin 0.1) (JS.min (Fin 1) (numPositions / Fin 10)%num).

Definition calculateRiskScore (limits : RiskLimits)
    (leverage marginUtilization drawdown avgCorrelation : num) : num :=
  let score := Fin 0 in
  let score :=
    (score + JS.min (Fin 30) (leverage / maxLeverage limits * Fin 30))%num in
  let score :=
    (score + JS.min (Fin 25) (marginUtilization / Fin 100 * Fin 25))%num in
  let score :=
    (score + JS.min (Fin 25) (drawdown / maxDrawdown limits * Fin 25))%num in
  let score := (score + JS.min (Fin 20) (avgCorrelation * Fin 20))%num in
  JS.min (Fin 100) score.

(** A plain object of numbers where a number is expected.  Its primitive
    value is the string "[object Object]" of the inherited [toString],
    which converts to NaN; an own property [toString] hides the inherited
    method, and the conversion raises a TypeError ([None]). *)
Definition objectAsNumber (object : gmap string num) : option num :=
  match object !! "toString" with
  | Some _ => None
  | None => Some NaN
  end.

(** [None]: the TypeError of the conversion. *)
Definition calculateRiskMetrics (svc : Service) (portfolio : Portfolio)
    (account : Account) : option Metrics.t :=
  let totalExposure := calculateTotalExposure portfolio in
  let leverageRatio := (totalExposure / totalValue portfolio)%num in
  let marginUtilization :=
    (marginUsed account / equity account * Fin 100)%num in
  let valueAtRisk := value (calculateVaR random portfolio None None None) in
  let maxDrawdown := calculateMaxDrawdown (after 100 random) portfolio in
  let sharpeRatio := calculateSharpeRatio (after 101 random) portfolio in
  let correlation :=
    calculatePortfolioCorrelation (after 201 random) portfolio in
  let diversificationRatio := calculateDiversificationRatio portfolio in
  avgCorrelation ← objectAsNumber correlation;
  let riskScore :=
    calculateRiskScore (riskLimits svc) leverageRatio marginUtilization
      maxDrawdown avgCorrelation in
  Some
  {| Metrics.totalExposure := totalExposure;
     Metrics.leverageRatio := leverageRatio;
     Metrics.marginUtilization := marginUtilization;
     Metrics.valueAtRisk := valueAtRisk;
     Metrics.maxDrawdown := maxDrawdown;
     Metrics.sharpeRatio := sharpeRatio;
     Metrics.correlation := correlation;
     Metrics.diversificationRatio := diversificationRatio;
     Metrics.riskScore := riskScore;
     Metrics.alerts := alerts svc |}.

(** An alert is critical and of high level above its limit, a warning of
    medium level otherwise. *)
Definition graded (exceeded : bool) : AlertType * Level :=
  if exceeded then (critical, high) else (warning, medium).

Definition leverageAlert (limits : RiskLimits) (metrics : Metrics.t)
    : list Alert.t :=
  let ratio := Metrics.leverageRatio metrics in
  if (ratio >? maxLeverage limits * Fin 0.8)%num then
    let '(type, level) := graded (ratio >? maxLeverage limits)%num in
    [ {| Alert.id := "leverage_" +:+ pretty now;
         Alert.type := type; Alert.level := level;
         Alert.message := HighLeverage ratio;
         Alert.timestamp := now; Alert.symbol := None;
         Alert.value := Some ratio;
         Alert.threshold := Some (maxLeverage limits) |} ]
  else [].

Definition marginAlert (metrics : Metrics.t) : list Alert.t :=
  let utilization := Metrics.marginUtilization metrics in
  if (utilization >? Fin 80)%num then
    let '(type, level) := graded (utilization >? Fin 90)%num in
    [ {| Alert.id := "margin_" +:+ pretty now;
         Alert.type := type; Alert.level := level;
         Alert.message := HighMarginUtilization utilization;
         Alert.timestamp := now; Alert.symbol := None;
         Alert.value := Some utilization;
         Alert.threshold := Some (Fin 90) |} ]
  else [].

Definition drawdownAlert (limits : RiskLimits) (metrics : Metrics.t)
    : list Alert.t :=
  let drawdown := Metrics.maxDrawdown metrics in
  if (drawdown >? maxDrawdown limits * Fin 0.7)%num then
    let '(type, level) := graded (drawdown >? maxDrawdown limits)%num in
    [ {| Alert.id := "drawdown_" +:+ pretty now;
         Alert.type := type; Alert.level := level;
         Alert.message := HighDrawdown drawdown;
         Alert.timestamp := now; Alert.symbol := None;
         Alert.value := Some drawdown;
         Alert.threshold := Some (maxDrawdown limits) |} ]
  else [].

Definition positionAlert (limits : RiskLimits) (portfolio : Portfolio)
    (position : Position) : list Alert.t :=
  let positionValue := JS.abs (size position * currentPrice position)%num in
  let positionPercent :=
    (positionValue / totalValue portfolio * Fin 100)%num in
  if (positionPercent >? maxPositionSize limits * Fin 0.8)%num then
    let '(type, level) :=
      graded (positionPercent >? maxPositionSize limits)%num in
    [ {| Alert.id :=
           "position_" +:+ pretty now +:+ "_" +:+ symbol position;
         Alert.type := type; Alert.level := level;
         Alert.message := LargePosition (symbol position) positionPercent;
         Alert.timestamp := now;
         Alert.symbol := Some (symbol position);
         Alert.value := Some positionPercent;
         Alert.threshold := Some (maxPositionSize limits) |} ]
  else [].

Definition generateRiskAlerts (svc : Service) (metrics : Metrics.t)
    (portfolio : Portfolio) (account : Account) : Service :=
  let limits := riskLimits svc in
  setAlerts
    (leverageAlert limits metrics ++ marginAlert metrics
     ++ drawdownAlert limits metrics
     ++ flat_map (positionAlert limits portfolio) (positions portfolio))
    svc.

(** [None]: the error of [calculateRiskMetrics], raised before the alerts
    are touched. *)
Definition monitorRisk (svc : Service) (portfolio : Portfolio)
    (account : Account) : option (Service * Metrics.t) :=
  metrics ← calculateRiskMetrics svc portfolio account;
  Some (generateRiskAlerts svc metrics portfolio account, metrics).

Definition getRiskAlerts (svc : Service) : list Alert.t := alerts svc.

Definition clearRiskAlerts (svc : Service) : Service := setAlerts [] svc.

(** [addRiskAlert]: the alert without its id and timestamp. *)
Definition addRiskAlert (svc : Service) (type : AlertType) (level : Level)
    (message : AlertMessage) (symbol : option string)
    (value threshold : option num) : Service :=
  setAlerts
    (alerts svc
     ++ [ {| Alert.id := "custom_" +:+ pretty now;
             Alert.type := type; Alert.level := level;
             Alert.message := message; Alert.timestamp := now;
             Alert.symbol := symbol; Alert.value := value;
             Alert.threshold := threshold |} ])
    svc.

End Monitoring.

(** *** Exit levels and position risk *)

Module StopLevels.
Record t := { stopLoss : num; takeProfit : num }.
End StopLevels.

Definition calculateStopLossLevels (limits : RiskLimits) (entryPrice : num)
    (side : Side) (volatility : num) (riskRewardRatio : option num)
    : StopLevels.t :=
  let riskRewardRatio := default (Fin 2) riskRewardRatio in
  let volatilityFactor := JS.max (Fin 0.01) volatility in
  match side with
  | buy =>
      {| StopLevels.stopLoss :=
           (entryPrice * (Fin 1 - stopLossPercent limits / Fin 100))%num;
         StopLevels.takeProfit :=
           (entryPrice
            * (Fin 1
               + stopLossPercent limits * riskRewardRatio / Fin 100))%num |}
  | sell =>
      {| StopLevels.stopLoss :=
           (entryPrice * (Fin 1 + stopLossPercent limits / Fin 100))%num;
         StopLevels.takeProfit :=
           (entryPrice
            * (Fin 1
               - stopLossPercent limits * riskRewardRatio / Fin 100))%num |}
  end.

Module PositionRisk.
Record t := {
  riskAmount : num;
  riskPercent : num;
  marginRequired : num;
  unrealizedPnLPercent : num
}.
End PositionRisk.

Definition calculatePositionRisk (position : Position) (account : Account)
    : PositionRisk.t :=
  let positionValue := JS.abs (size position * entryPrice position)%num in
  let riskAmount :=
    match stopLoss position with
    | Some stopLossPrice =>
        if JS.truthy stopLossPrice
        then JS.abs (size position
                     * (entryPrice position - stopLossPrice))%num
        else Fin 0
    | None => Fin 0
    end in
  let riskPercent :=
    if (balance account >? Fin 0)%num
    then (riskAmount / balance account * Fin 100)%num
    else Fin 0 in
  let marginRequired := (positionValue * Fin 0.1)%num in
  let unrealizedPnLPercent :=
    if (entryPrice position >? Fin 0)%num
    then (unrealizedPnL position / (size position * entryPrice position)
          * Fin 100)%num
    else Fin 0 in
  {| PositionRisk.riskAmount := riskAmount;
     PositionRisk.riskPercent := riskPercent;
     PositionRisk.marginRequired := marginRequired;
     PositionRisk.unrealizedPnLPercent := unrealizedPnLPercent |}.

(** Why a position should be closed, with the values of the message. *)
Inductive CloseReason :=
  | PositionRiskExceeded (riskPercent : num)
  | MarginLevelTooLow (marginLevel minimum : num)
  | UnrealizedLossExceeded (percent : num).

Module Closure.
Record t := {
  shouldClose : bool;
  reason : option CloseReason;
  urgency : Level
}.
End Closure.

Definition shouldClosePosition (limits : RiskLimits) (position : Position)
    (portfolio : Portfolio) (account : Account) : Closure.t :=
  let positionRisk := calculatePositionRisk position account in
  if (PositionRisk.riskPercent positionRisk
      >? maxRiskPerTrade limits * Fin 2)%num
  then {| Closure.shouldClose := true;
          Closure.reason :=
            Some (PositionRiskExceeded (PositionRisk.riskPercent positionRisk));
          Closure.urgency := high |}
  else if (marginLevel account <? minimumMarginLevel limits)%num
  then {| Closure.shouldClose := true;
          Closure.reason :=
            Some (MarginLevelTooLow (marginLevel account)
                    (minimumMarginLevel limits));
          Closure.urgency := high |}
  else if (PositionRisk.unrealizedPnLPercent positionRisk
           <? JS.neg (maxDailyLoss limits))%num
  then {| Closure.shouldClose := true;
          Closure.reason :=
            Some (UnrealizedLossExceeded
                    (PositionRisk.unrealizedPnLPercent positionRisk));
          Closure.urgency := medium |}
  else {| Closure.shouldClose := false; Closure.reason := None;
          Closure.urgency := low |}.

End RiskMonitor.

(** ** Strategy engine: signal history (strategyEngine.ts) *)

Module StrategyHistory.

Import Strategy.

(** [l.slice(start)] for an integer [start]. *)
Definition sliceFrom {A : Type} (start : Z) (l : list A) : list A :=
  let len := Z.of_nat (length l) in
  let k := if (start <? 0)%Z then Z.max (len + start) 0 else Z.min start len in
  drop (Z.to_nat k) l.

(** [getSignalHistory(limit = 100)], for an integer limit. *)
Definition getSignalHistory (e : Engine) (limit : option Z) : list Signal.t :=
  sliceFrom (- default 100%Z limit) (signalHistory e).

Definition getActiveStrategies (e : Engine) : list string :=
  activeStrategies e.

End StrategyHistory.

(** ** Order service and portfolio ledger: further operations
       (orderService.ts, portfolioService.ts) *)

Module ServicesMore.

Import Services.

Module CancelResult.
Record t := { successful : list string; failed : list string }.
End CancelResult.

(** [cancelOrders]: the ids in turn, each filed under the outcome of its
    [cancelOrder]. *)
Definition cancelOrders (w : World) (orderIds : list string)
    : World * CancelResult.t :=
  fold_left
    (fun '(w, outcome) orderId =>
       let '(w, wasCanceled) := cancelOrder w orderId in
       (w,
        if wasCanceled
        then {| CancelResult.successful :=
                  CancelResult.successful outcome ++ [orderId];
                CancelResult.failed := CancelResult.failed outcome |}
        else {| CancelResult.successful := CancelResult.successful outcome;
                CancelResult.failed :=
                  CancelResult.failed outcome ++ [orderId] |}))
    orderIds
    (w, {| CancelResult.successful := []; CancelResult.failed := [] |}).

(** [getPendingOrders]: the values of the pending map.  An order is put
    there as the very object that the order map holds under the same id,
    so the values are read from the order map; the pending ids are kept
    as a set, and the list is given up to its order. *)
Definition getPendingOrders (w : World) : list Order.t :=
  omap (fun orderId => orders w !! orderId) (elements (pendingOrders w)).

(** *** Rebalancing *)

Module AllocationTarget.
Record t := {
  symbol : string;
  targetPercent : num;
  currentPercent : num;
  difference : num
}.
End AllocationTarget.

(** The reason of a rebalance order, with the two percentages its text
    shows. *)
Inductive RebalanceReason :=
  | RebalanceFromTo (currentPercent targetPercent : num).

Module RebalanceOrder.
Record t := {
  symbol : string;
  action : Side;
  quantity : num;
  currentQuantity : num;
  targetQuantity : num;
  estimatedValue : num;
  reason : RebalanceReason
}.
End RebalanceOrder.

(** One turn of the loop of [rebalance]. *)
Definition rebalanceTarget (portfolio : Portfolio.t)
    (target : AllocationTarget.t) : list RebalanceOrder.t :=
  let totalValue := Portfolio.totalValue portfolio in
  let currentPosition :=
    find (fun p => String.eqb (Position.symbol p)
                              (AllocationTarget.symbol target))
         (Portfolio.positions portfolio) in
  let currentValue :=
    match currentPosition with
    | Some p => Position.marketValue p
    | None => Fin 0
    end in
  let targetValue :=
    (totalValue * (AllocationTarget.targetPercent target / Fin 100))%num in
  let difference := (targetValue - currentValue)%num in
  if (JS.abs difference >? totalValue * Fin 0.01)%num then
    let currentPrice :=
      JS.or_else (Position.currentPrice <$> currentPosition) (Fin 0) in
    if (currentPrice >? Fin 0)%num then
      let quantityDifference := (difference / currentPrice)%num in
      [ {| RebalanceOrder.symbol := AllocationTarget.symbol target;
           RebalanceOrder.action :=
             if (quantityDifference >? Fin 0)%num then buy else sell;
           RebalanceOrder.quantity := JS.abs quantityDifference;
           RebalanceOrder.currentQuantity :=
             JS.or_else (Position.quantity <$> currentPosition) (Fin 0);
           RebalanceOrder.targetQuantity := (targetValue / currentPrice)%num;
           RebalanceOrder.estimatedValue := JS.abs difference;
           RebalanceOrder.reason :=
             RebalanceFromTo (AllocationTarget.currentPercent target)
                             (AllocationTarget.targetPercent target) |} ]
    else []
  else [].

Section Rebalance.

Variable loadPositions : Database -> string -> list Position.t.

Definition rebalance (w : World) (portfolioId : string)
    (targets : list AllocationTarget.t) : World * list RebalanceOrder.t :=
  match getPortfolio loadPositions w portfolioId with
  | (w, None) => (w, [])
  | (w, Some portfolio) => (w, flat_map (rebalanceTarget portfolio) targets)
  end.

End Rebalance.

End ServicesMore.

(** * Vocabulary of the statements and example inputs *)

(** ** Risk engine *)

Module RiskCases.

Import Risk.
Local Open Scope Q_scope.

Definition account10000 : Account :=
  {| balance := Fin 10000; equity := Fin 10000; marginUsed := Fin 0;
     freeMargin := Fin 10000; marginLevel := Fin 100 |}.

Definition withMaxPositionSize (m : Q) : RiskLimits :=
  {| maxPositionSize := Fin m;
     maxLeverage := maxLeverage defaultLimits;
     maxDrawdown := maxDrawdown defaultLimits;
     maxDailyLoss := maxDailyLoss defaultLimits;
     maxCorrelation := maxCorrelation defaultLimits;
     stopLossPercent := stopLossPercent defaultLimits;
     takeProfitPercent := takeProfitPercent defaultLimits;
     maxOpenPositions := maxOpenPositions defaultLimits;
     maxRiskPerTrade := maxRiskPerTrade defaultLimits;
     minimumMarginLevel := minimumMarginLevel defaultLimits |}.

Definition leveragedPortfolio : Portfolio :=
  {| totalValue := Fin 100; totalEquity := Fin 100;
     positions :=
       [ {| symbol := "XYZ"; size := Fin 4; entryPrice := Fin 100;
            currentPrice := Fin 100; unrealizedPnL := Fin 0;
            stopLoss := None |} ];
     cash := Fin 0 |}.

Definition orderWithoutPrice : OrderRequest :=
  {| o_symbol := "ABC"; o_side := buy; o_type := market; o_size := Fin 1;
     o_price := None; o_stopLoss := None; o_takeProfit := None |}.

Definition tooManyPositions (limits : RiskLimits) (portfolio : Portfolio) : bool :=
  (JS.of_nat (length (positions portfolio)) >=? maxOpenPositions limits)%num.

Definition overLeveraged (limits : RiskLimits) (portfolio : Portfolio) : bool :=
  (calculateTotalExposure portfolio / totalValue portfolio
   >? maxLeverage limits)%num.

Definition negativeFreeMargin (account : Account) : bool :=
  (freeMargin account <? Fin 0)%num.

Definition tooCorrelated (limits : RiskLimits) (order : OrderRequest)
    (portfolio : Portfolio) : bool :=
  (calculateCorrelation (o_symbol order) portfolio
   >? maxCorrelation limits)%num.

(** The quantile index in exact arithmetic: floor((1 - c) * n). *)
Definition quantileIndex (c : Q) (n : nat) : nat :=
  Z.to_nat (Qfloor ((1 - c) * inject_Z (Z.of_nat n))).

(** The same index in the arithmetic of the program: the difference and
    the product are rounded to binary64 before the floor is taken. *)
Definition selectedIndex (conf : num) (n : nat) : num :=
  JS.floor (Binary64.mul (Binary64.sub (Fin 1) conf) (JS.of_nat n)).

(** A run of the random source that rises from 0 in steps of 1/100, so
    that the mock history comes out in ascending order. *)
Definition risingDraws (i : nat) : Q := inject_Z (Z.of_nat i) / 100.

End RiskCases.

(** ** Strategy engine *)

Module StrategyCases.

Import Strategy.
Local Open Scope Q_scope.

(** The strength-weighted mean of (confidence, strength) pairs. *)
Definition sumQ (l : list Q) : Q := fold_right Qplus 0 l.
Definition weightedMean (pairs : list (Q * Q)) : Q :=
  sumQ (map (fun '(conf, str) => conf * str) pairs) / sumQ (map snd pairs).

(** The votes for a type: how many of the signals are of that type. *)
Definition sameType (a b : SignalType) : {a = b} + {a <> b}.
Proof. decide equality. Defined.

Definition votes (ty : SignalType) (signals : list Signal.t) : nat :=
  count_occ sameType (map Signal.type signals) ty.

Definition hasValues (s : Signal.t) (p : Q * Q) : Prop :=
  Signal.confidence s = Fin (fst p) /\ Signal.strength s = Fin (snd p).

Definition mkSignal (ty : SignalType) (str conf : num) (by_ : string)
    : Signal.t :=
  {| Signal.id := by_; Signal.symbol := "BTC/USD"; Signal.type := ty;
     Signal.strength := str; Signal.confidence := conf;
     Signal.price := Fin 45000; Signal.timestamp := 0%Z;
     Signal.strategy := by_; Signal.reason := "";
     Signal.stopLoss := None; Signal.takeProfit := None;
     Signal.riskReward := None |}.

Definition exampleSignals (c1 c2 c3 : num) : list Signal.t :=
  [mkSignal buy (Fin 80) c1 "RSI"; mkSignal buy (Fin 60) c2 "MACD";
   mkSignal sell (Fin 50) c3 "Bollinger"].

Definition failingStrategy : TradingStrategy :=
  {| name := "Broken"; description := "always fails"; timeframe := "1h";
     config := {| configName := "Broken"; enabled := true;
                  riskManagement :=
                    {| maxPositionSize := Fin 0.1; stopLossPercent := Fin 2;
                       takeProfitPercent := Fin 4; maxDrawdown := Fin 10 |} |};
     execute := fun _ => Throw "boom"%string;
     validate := fun _ => true |}.

Definition emptyEngine : Engine :=
  {| strategies := ∅; activeStrategies := []; signalHistory := [];
     subscribers := []; trace := [] |}.

Definition brokenEngine : Engine :=
  fst (enableStrategy (registerStrategy emptyEngine failingStrategy) "Broken").

End StrategyCases.

(** ** Order lifecycle manager and portfolio ledger *)

Module ServicesCases.

Import Services.
Local Open Scope Q_scope.

Definition hasSymbol (trade : Trade.t) (p : Position.t) : bool :=
  String.eqb (Position.symbol p) (Trade.symbol trade).

Definition applePosition : Position.t :=
  {| Position.id := "pos_1"; Position.portfolioId := "pf";
     Position.symbol := "AAPL"; Position.quantity := Fin 10;
     Position.avgPrice := Fin 100; Position.currentPrice := Fin 100;
     Position.marketValue := Fin 1000; Position.unrealizedPnL := Fin 0;
     Position.unrealizedPnLPercent := Fin 0; Position.side := long;
     Position.entryDate := 0; Position.lastUpdated := 0 |}.

Definition applePortfolio : Portfolio.t :=
  {| Portfolio.id := "pf"; Portfolio.userId := "u"; Portfolio.name := "main";
     Portfolio.description := None; Portfolio.totalValue := Fin 2000;
     Portfolio.totalEquity := Fin 2000; Portfolio.cashBalance := Fin 1000;
     Portfolio.marginUsed := Fin 0; Portfolio.freeMargin := Fin 1000;
     Portfolio.unrealizedPnL := Fin 0; Portfolio.realizedPnL := Fin 0;
     Portfolio.totalReturn := Fin 0; Portfolio.totalReturnPercent := Fin 0;
     Portfolio.dayChange := Fin 0; Portfolio.dayChangePercent := Fin 0;
     Portfolio.positions := [applePosition];
     Portfolio.createdAt := 0; Portfolio.updatedAt := 0 |}.

Definition sellFive : Trade.t :=
  {| Trade.id := "t1"; Trade.portfolioId := "pf"; Trade.symbol := "AAPL";
     Trade.side := sell; Trade.quantity := Fin 5; Trade.price := Fin 120;
     Trade.timestamp := 1; Trade.commission := Fin 1;
     Trade.exchange := "binance"; Trade.orderId := None |}.

Definition emptyDatabase : Database :=
  {| ordersTable := ∅; portfoliosTable := ∅; tradesTable := [];
     positionsTable := [] |}.

Definition cashPortfolio : Portfolio.t :=
  {| Portfolio.id := "pf"; Portfolio.userId := "u"; Portfolio.name := "main";
     Portfolio.description := None; Portfolio.totalValue := Fin 100000;
     Portfolio.totalEquity := Fin 100000; Portfolio.cashBalance := Fin 100000;
     Portfolio.marginUsed := Fin 0; Portfolio.freeMargin := Fin 100000;
     Portfolio.unrealizedPnL := Fin 0; Portfolio.realizedPnL := Fin 0;
     Portfolio.totalReturn := Fin 0; Portfolio.totalReturnPercent := Fin 0;
     Portfolio.dayChange := Fin 0; Portfolio.dayChangePercent := Fin 0;
     Portfolio.positions := [];
     Portfolio.createdAt := 0; Portfolio.updatedAt := 0 |}.

Definition restingOrder (s : OrderStatus) : Order.t :=
  {| Order.id := "order_7"; Order.portfolioId := "pf";
     Order.symbol := "AAPL"; Order.side := buy; Order.type := limit;
     Order.quantity := Fin 10; Order.price := Fin 140;
     Order.stopPrice := None; Order.status := s;
     Order.filledQuantity := Fin 0; Order.remainingQuantity := Fin 10;
     Order.avgFillPrice := Fin 0; Order.totalFillValue := Fin 0;
     Order.commission := Fin 0; Order.exchange := "binance";
     Order.exchangeOrderId := Some "order_8"%string; Order.timeInForce := DAY;
     Order.stopLoss := None; Order.takeProfit := None; Order.notes := None;
     Order.createdAt := 1000; Order.updatedAt := 1000;
     Order.filledAt := None; Order.fills := [];
     Order.rejectionReason := None |}.

Definition worldWith (known : gset string) (os : gmap string Order.t)
    : World :=
  {| orders := os; pendingOrders := ∅;
     portfolios := {[ "pf"%string := cashPortfolio ]};
     exchanges := known; riskLimits := Risk.defaultLimits;
     database := emptyDatabase; now := 1700000000000; nextId := 0;
     orderEvents := []; executionEvents := []; portfolioEvents := [] |}.

Definition expiredWorld : World :=
  worldWith {[ "binance"%string ]}
    {[ "order_7"%string := restingOrder expired ]}.

Definition marketBuy : OrderRequest.t :=
  {| OrderRequest.portfolioId := "pf"; OrderRequest.symbol := "AAPL";
     OrderRequest.side := buy; OrderRequest.type := market;
     OrderRequest.quantity := Fin 2; OrderRequest.price := Some (Fin 100);
     OrderRequest.stopPrice := None; OrderRequest.timeInForce := None;
     OrderRequest.exchange := "binance"; OrderRequest.stopLoss := None;
     OrderRequest.takeProfit := None; OrderRequest.notes := None |}.

(** Modelled from the spec: [recalculatePortfolio] is called by
    [updatePositions] but its body is not in the sources.  The
    specification has it recompute the aggregates, with totalValue =
    cashBalance + sum of the positions' market values and the unrealized
    profit summed over the positions. *)
Definition recalculateFromSpec (p : Portfolio.t) : Portfolio.t :=
  p |> Portfolio.set_totalValue
         (fold_left (fun total position =>
                       (total + Position.marketValue position)%num)
                    (Portfolio.positions p) (Portfolio.cashBalance p))
    |> Portfolio.set_unrealizedPnL
         (fold_left (fun total position =>
                       (total + Position.unrealizedPnL position)%num)
                    (Portfolio.positions p) (Fin 0)).

(** Stand-ins for the persistence helpers that are taken as given. *)
Definition noPositions (_ : Database) (_ : string) : list Position.t := [].
Definition keepDatabase {A} (_ : A) (d : Database) : Database := d.

Definition run w rq :=
  executeOrder recalculateFromSpec noPositions keepDatabase keepDatabase w rq.

(** The invariant of the data model. *)
Definition quantitiesAgree (o : Order.t) : Prop :=
  (Order.filledQuantity o + Order.remainingQuantity o)%num ≡ Order.quantity o.

Definition binanceWorld : World := worldWith {[ "binance"%string ]} ∅.
Definition noExchangeWorld : World := worldWith ∅ ∅.

(** The order a market buy leaves behind, and the same order as a new
    session reads it back from the store. *)
Definition executedWorld : World := fst (fst (run binanceWorld marketBuy)).
Definition executedOrderId : string :=
  ExecutionReport.orderId (snd (fst (run binanceWorld marketBuy))).
Definition newSession (w : World) : World :=
  w |> set_orders ∅ |> set_pendingOrders ∅.

Definition filledOrder : Order.t :=
  {| Order.id := "order_1700000000000_0"; Order.portfolioId := "pf";
     Order.symbol := "AAPL"; Order.side := buy; Order.type := market;
     Order.quantity := Fin 2; Order.price := Fin 100;
     Order.stopPrice := None; Order.status := filled;
     Order.filledQuantity := Fin 2; Order.remainingQuantity := Fin 0;
     Order.avgFillPrice := Fin (400 # 4);
     Order.totalFillValue := Fin (400 # 2);
     Order.commission := Fin (400 # 2000); Order.exchange := "binance";
     Order.exchangeOrderId := Some "order_1700000000000_1"%string;
     Order.timeInForce := GTC; Order.stopLoss := None;
     Order.takeProfit := None; Order.notes := None;
     Order.createdAt := 1700000000000; Order.updatedAt := 1700000000000;
     Order.filledAt := Some 1700000000000%Z;
     Order.fills :=
       [ {| Fill.id := "fill_1700000000000_2";
            Fill.orderId := "order_1700000000000_0";
            Fill.quantity := Fin 2; Fill.price := Fin (200 # 2);
            Fill.commission := Fin (400 # 2000);
            Fill.timestamp := 1700000000000 |} ];
     Order.rejectionReason := None |}.

End ServicesCases.

(** ** Risk engine: monitoring *)

Module RiskMonitorCases.

Import Risk RiskMonitor.
Local Open Scope Q_scope.

(** An alert whose grade agrees with its numbers: critical and of high
    level exactly when the value exceeds the threshold, otherwise a
    warning of medium level. *)
Definition wellGraded (alert : Alert.t) : Prop :=
  exists v t : num,
    Alert.value alert = Some v /\ Alert.threshold alert = Some t
    /\ (Alert.type alert = critical <-> (v >? t)%num = true)
    /\ (Alert.type alert = critical <-> Alert.level alert = high)
    /\ (Alert.type alert = warning <-> Alert.level alert = medium).

(** A service that holds one alert from an earlier check. *)
Definition watchedService : Service :=
  {| riskLimits := defaultLimits;
     alerts :=
       [ {| Alert.id := "custom_1"; Alert.type := warning;
            Alert.level := low; Alert.message := Custom "earlier";
            Alert.timestamp := 1; Alert.symbol := None;
            Alert.value := None; Alert.threshold := None |} ] |}.

(** A losing position held without a stop. *)
Definition unprotectedPosition : Position :=
  {| symbol := "XYZ"; size := Fin 50; entryPrice := Fin 100;
     currentPrice := Fin 60; unrealizedPnL := Fin (-2000);
     stopLoss := None |}.

End RiskMonitorCases.

(** ** Strategy engine: registry and history *)

Module StrategyMoreCases.

Import Strategy.

(** Every active name is registered. *)
Definition activeRegistered (e : Engine) : Prop :=
  forall strategyName,
    In strategyName (activeStrategies e) ->
    is_Some (strategies e !! strategyName).

Definition onSymbol (sym : string) (s : Signal.t) : bool :=
  String.eqb (Signal.symbol s) sym.

(** The distinct symbols of a list, in the order in which they first
    appear in it. *)
Fixpoint firstAppearances (symbols : list string) : list string :=
  match symbols with
  | [] => []
  | sym :: rest =>
      sym :: List.filter (fun other => negb (String.eqb other sym))
                         (firstAppearances rest)
  end.

(** The members filed under a symbol: those of the first group with
    that key. *)
Fixpoint membersOf (sym : string) (groups : list (string * list Signal.t))
    : list Signal.t :=
  match groups with
  | [] => []
  | (k, members) :: rest =>
      if String.eqb k sym then members else membersOf sym rest
  end.

End StrategyMoreCases.

(** ** Indicator library *)

Module IndicatorCases.

Local Open Scope Q_scope.

(** What an RSI value can be: NaN on a flat window, else within 0..100. *)
Definition rsiInRange (v : num) : Prop :=
  v = NaN \/ exists r : Q, v = Fin r /\ 0 <= r <= 100.

(** Price bars with finite values. *)
Record Bar := { barHigh : Q; barLow : Q; barClose : Q }.
Definition wellFormed (b : Bar) : Prop :=
  barLow b <= barClose b <= barHigh b.
Definition highsOf (bars : list Bar) : list num :=
  map Fin (map barHigh bars).
Definition lowsOf (bars : list Bar) : list num :=
  map Fin (map barLow bars).
Definition closesOf (bars : list Bar) : list num :=
  map Fin (map barClose bars).
Definition exampleBars : list Bar :=
  [ {| barHigh := 12; barLow := 9; barClose := 10 |};
    {| barHigh := 13; barLow := 10; barClose := 13 |};
    {| barHigh := 12; barLow := 11; barClose := 11 |} ].

(** A finite number that is not negative. *)
Definition nonnegative (v : num) : Prop := exists a : Q, v = Fin a /\ 0 <= a.

Definition nonnegativePair (p : num * num) : Prop :=
  nonnegative (fst p) /\ nonnegative (snd p).

End IndicatorCases.

(** ** Order service and ledger: further inputs *)

Module ServicesMoreCases.

Import Services ServicesMore ServicesCases.

(** The position a portfolio holds in a symbol, as the ledger looks it
    up. *)
Definition held (portfolio : Portfolio.t) (sym : string)
    : option Position.t :=
  find (fun p => String.eqb (Position.symbol p) sym)
       (Portfolio.positions portfolio).

Definition stopRejection : string := "Stop price is required for stop orders".

Definition restingLimit : OrderRequest.t :=
  {| OrderRequest.portfolioId := "pf"; OrderRequest.symbol := "AAPL";
     OrderRequest.side := buy; OrderRequest.type := limit;
     OrderRequest.quantity := Fin 2; OrderRequest.price := Some (Fin 100);
     OrderRequest.stopPrice := None; OrderRequest.timeInForce := None;
     OrderRequest.exchange := "binance"; OrderRequest.stopLoss := None;
     OrderRequest.takeProfit := None; OrderRequest.notes := None |}.

Definition protectiveStop : OrderRequest.t :=
  {| OrderRequest.portfolioId := "pf"; OrderRequest.symbol := "AAPL";
     OrderRequest.side := buy; OrderRequest.type := stop;
     OrderRequest.quantity := Fin 2; OrderRequest.price := Some (Fin 100);
     OrderRequest.stopPrice := Some (Fin 95);
     OrderRequest.timeInForce := None;
     OrderRequest.exchange := "binance"; OrderRequest.stopLoss := None;
     OrderRequest.takeProfit := None; OrderRequest.notes := None |}.

(** A request without a quantity, and one for a fifth of the portfolio. *)
Definition emptyBuy : OrderRequest.t :=
  {| OrderRequest.portfolioId := "pf"; OrderRequest.symbol := "AAPL";
     OrderRequest.side := buy; OrderRequest.type := market;
     OrderRequest.quantity := Fin 0; OrderRequest.price := Some (Fin 100);
     OrderRequest.stopPrice := None; OrderRequest.timeInForce := None;
     OrderRequest.exchange := "binance"; OrderRequest.stopLoss := None;
     OrderRequest.takeProfit := None; OrderRequest.notes := None |}.

Definition largeBuy : OrderRequest.t :=
  {| OrderRequest.portfolioId := "pf"; OrderRequest.symbol := "AAPL";
     OrderRequest.side := buy; OrderRequest.type := market;
     OrderRequest.quantity := Fin 200; OrderRequest.price := Some (Fin 100);
     OrderRequest.stopPrice := None; OrderRequest.timeInForce := None;
     OrderRequest.exchange := "binance"; OrderRequest.stopLoss := None;
     OrderRequest.takeProfit := None; OrderRequest.notes := None |}.

(** A session that holds the portfolio with the AAPL position, and a
    target of a tenth of its value for that symbol. *)
Definition appleWorld : World :=
  binanceWorld |> set_portfolios {[ "pf"%string := applePortfolio ]}.

Definition appleTarget : AllocationTarget.t :=
  {| AllocationTarget.symbol := "AAPL";
     AllocationTarget.targetPercent := Fin 10;
     AllocationTarget.currentPercent := Fin 50;
     AllocationTarget.difference := Fin (-40) |}.

Definition isCanceled (w : World) (orderId : string) : Prop :=
  exists order,
    orders w !! orderId = Some order /\ Order.status order = canceled.

Definition buyFive : Trade.t :=
  {| Trade.id := "t2"; Trade.portfolioId := "pf"; Trade.symbol := "AAPL";
     Trade.side := buy; Trade.quantity := Fin 5; Trade.price := Fin 130;
     Trade.timestamp := 2; Trade.commission := Fin 1;
     Trade.exchange := "binance"; Trade.orderId := None |}.

(** Two orders with the same data, numbers compared up to the
    representation of the rational. *)
Definition sameOrder (a b : Order.t) : Prop :=
  Order.id a = Order.id b
  /\ Order.portfolioId a = Order.portfolioId b
  /\ Order.symbol a = Order.symbol b
  /\ Order.side a = Order.side b
  /\ Order.type a = Order.type b
  /\ Order.quantity a = Order.quantity b
  /\ Order.price a = Order.price b
  /\ Order.stopPrice a = Order.stopPrice b
  /\ Order.status a = Order.status b
  /\ Order.filledQuantity a ≡ Order.filledQuantity b
  /\ Order.remainingQuantity a = Order.remainingQuantity b
  /\ Order.avgFillPrice a ≡ Order.avgFillPrice b
  /\ Order.totalFillValue a ≡ Order.totalFillValue b
  /\ Order.commission a ≡ Order.commission b
  /\ Order.exchange a = Order.exchange b
  /\ Order.exchangeOrderId a = Order.exchangeOrderId b
  /\ Order.timeInForce a = Order.timeInForce b
  /\ Order.stopLoss a = Order.stopLoss b
  /\ Order.takeProfit a = Order.takeProfit b
  /\ Order.notes a = Order.notes b
  /\ Order.createdAt a = Order.createdAt b
  /\ Order.updatedAt a = Order.updatedAt b
  /\ Order.filledAt a = Order.filledAt b
  /\ Order.fills a = Order.fills b
  /\ Order.rejectionReason a = Order.rejectionReason b.

End ServicesMoreCases.

(** * Properties *)

(** ** Facts about numbers *)

Module NumFacts.

Local Open Scope Q_scope.

#[export] Instance num_eq_equivalence : Equivalence JS.num_eq.
Proof.
  split.
  - intros [x| | |]; simpl; auto with qarith.
  - intros [x| | |] [y| | |]; simpl; auto with qarith.
  - intros [x| | |] [y| | |] [z| | |]; simpl; try tauto.
    intros H1 H2. now rewrite H1.
Qed.

Lemma Qeq_bool_false (x y : Q) : ~ x == y -> Qeq_bool x y = false.
Proof.
  intros H. destruct (Qeq_bool x y) eqn:E; [|reflexivity].
  apply Qeq_bool_iff in E. contradiction.
Qed.

Lemma Qeq_bool_true (x y : Q) : x == y -> Qeq_bool x y = true.
Proof. apply Qeq_bool_iff. Qed.

Lemma Qltb_true (x y : Q) : x < y -> JS.Qltb x y = true.
Proof.
  intros H. unfold JS.Qltb. destruct (Qle_bool y x) eqn:E; [|reflexivity].
  apply Qle_bool_iff in E. lra.
Qed.

Lemma Qltb_false (x y : Q) : y <= x -> JS.Qltb x y = false.
Proof.
  intros H. unfold JS.Qltb. apply Qle_bool_iff in H. now rewrite H.
Qed.

Lemma Qltb_iff (x y : Q) : JS.Qltb x y = true <-> x < y.
Proof.
  split; [|apply Qltb_true].
  unfold JS.Qltb. destruct (Qle_bool y x) eqn:E; [discriminate|].
  intros _. destruct (Qlt_le_dec x y) as [H|H]; [assumption|].
  apply Qle_bool_iff in H. congruence.
Qed.

Lemma Qabs_zero_iff (x : Q) : Qabs x == 0 <-> x == 0.
Proof.
  split; intros H.
  - revert H. apply Qabs_case; intros; lra.
  - rewrite H. reflexivity.
Qed.

#[export] Instance Qeq_bool_proper : Proper (Qeq ==> Qeq ==> eq) Qeq_bool.
Proof.
  intros x x' Hx y y' Hy.
  destruct (Qeq_bool x y) eqn:E1, (Qeq_bool x' y') eqn:E2; try reflexivity.
  - apply Qeq_bool_iff in E1. rewrite Hx, Hy in E1.
    apply Qeq_bool_iff in E1. congruence.
  - apply Qeq_bool_iff in E2. rewrite <- Hx, <- Hy in E2.
    apply Qeq_bool_iff in E2. congruence.
Qed.

#[export] Instance Qle_bool_proper : Proper (Qeq ==> Qeq ==> eq) Qle_bool.
Proof.
  intros x x' Hx y y' Hy.
  destruct (Qle_bool x y) eqn:E1, (Qle_bool x' y') eqn:E2; try reflexivity.
  - apply Qle_bool_iff in E1. rewrite Hx, Hy in E1.
    apply Qle_bool_iff in E1. congruence.
  - apply Qle_bool_iff in E2. rewrite <- Hx, <- Hy in E2.
    apply Qle_bool_iff in E2. congruence.
Qed.

#[export] Instance Qltb_proper : Proper (Qeq ==> Qeq ==> eq) JS.Qltb.
Proof. intros x x' Hx y y' Hy. unfold JS.Qltb. now rewrite Hx, Hy. Qed.

Ltac num_cases :=
  unfold equiv, JS.num_equiv in *;
  repeat match goal with
  | H : JS.num_eq ?a ?b |- _ =>
      destruct a, b; cbn [JS.num_eq] in H; try contradiction
  end; try exact I.

#[export] Instance add_proper : Proper ((≡) ==> (≡) ==> (≡)) JS.add.
Proof.
  intros a a' Ha b b' Hb. num_cases; cbn; try exact I. now rewrite Ha, Hb.
Qed.

#[export] Instance neg_proper : Proper ((≡) ==> (≡)) JS.neg.
Proof. intros a a' Ha. num_cases; cbn; try exact I. now rewrite Ha. Qed.

#[export] Instance sub_proper : Proper ((≡) ==> (≡) ==> (≡)) JS.sub.
Proof.
  intros a a' Ha b b' Hb. num_cases; cbn; try exact I. now rewrite Ha, Hb.
Qed.

Ltac sign_rewrite H :=
  match type of H with
  | ?x == ?y =>
      rewrite ?(Qeq_bool_proper x y H 0 0 (Qeq_refl 0)),
              ?(Qltb_proper 0 0 (Qeq_refl 0) x y H),
              ?(Qltb_proper x y H 0 0 (Qeq_refl 0)),
              ?(Qle_bool_proper 0 0 (Qeq_refl 0) x y H)
  end.

Ltac inf_cases :=
  repeat match goal with
  | |- context [if ?c then _ else _] => destruct c
  end; try reflexivity; try exact I.

#[export] Instance mul_proper : Proper ((≡) ==> (≡) ==> (≡)) JS.mul.
Proof.
  intros a a' Ha b b' Hb. num_cases; cbn -[Qeq_bool JS.Qltb];
    try (now rewrite Ha, Hb);
    try solve [sign_rewrite Ha; inf_cases];
    try solve [sign_rewrite Hb; inf_cases].
Qed.

#[export] Instance div_proper : Proper ((≡) ==> (≡) ==> (≡)) JS.div.
Proof.
  intros a a' Ha b b' Hb.
  num_cases; cbn -[Qeq_bool JS.Qltb Qle_bool]; try reflexivity;
    try solve [sign_rewrite Hb; inf_cases].
  sign_rewrite Ha. sign_rewrite Hb. inf_cases.
  cbn [JS.num_eq]. now rewrite Ha, Hb.
Qed.

#[export] Instance lt_proper : Proper ((≡) ==> (≡) ==> eq) JS.lt.
Proof.
  intros a a' Ha b b' Hb. num_cases; cbn -[JS.Qltb]; try reflexivity.
  now rewrite Ha, Hb.
Qed.

#[export] Instance gt_proper : Proper ((≡) ==> (≡) ==> eq) JS.gt.
Proof. intros a a' Ha b b' Hb. unfold JS.gt. now rewrite Ha, Hb. Qed.

#[export] Instance eqb_proper : Proper ((≡) ==> (≡) ==> eq) JS.eqb.
Proof.
  intros a a' Ha b b' Hb. num_cases; cbn -[Qeq_bool]; try reflexivity.
  now rewrite Ha, Hb.
Qed.

#[export] Instance max_proper : Proper ((≡) ==> (≡) ==> (≡)) JS.max.
Proof.
  intros a a' Ha b b' Hb. num_cases; cbn -[Qmin Qmax]; try exact I.
  all: try assumption.
  now rewrite Ha, Hb.
Qed.

#[export] Instance min_proper : Proper ((≡) ==> (≡) ==> (≡)) JS.min.
Proof.
  intros a a' Ha b b' Hb. num_cases; cbn -[Qmin Qmax]; try exact I.
  all: try assumption.
  now rewrite Ha, Hb.
Qed.

#[export] Instance abs_proper : Proper ((≡) ==> (≡)) JS.abs.
Proof. intros a a' Ha. num_cases; cbn; try exact I. now rewrite Ha. Qed.

Lemma div_fin (x y : Q) : ~ y == 0 -> (Fin x / Fin y)%num = Fin (x / y).
Proof. intros H. unfold JS.div. now rewrite (Qeq_bool_false y 0). Qed.

Lemma eqb_fin_true (x y : Q) : x == y -> (Fin x =? Fin y)%num = true.
Proof. apply Qeq_bool_true. Qed.

Lemma eqb_fin_false (x y : Q) : ~ x == y -> (Fin x =? Fin y)%num = false.
Proof. apply Qeq_bool_false. Qed.

Lemma lt_fin_true (x y : Q) : x < y -> (Fin x <? Fin y)%num = true.
Proof. apply Qltb_true. Qed.

Lemma lt_fin_false (x y : Q) : y <= x -> (Fin x <? Fin y)%num = false.
Proof. apply Qltb_false. Qed.

Lemma add_fin (x y : Q) : (Fin x + Fin y)%num = Fin (x + y).
Proof. reflexivity. Qed.
Lemma sub_fin (x y : Q) : (Fin x - Fin y)%num = Fin (x - y).
Proof. reflexivity. Qed.
Lemma mul_fin (x y : Q) : (Fin x * Fin y)%num = Fin (x * y).
Proof. reflexivity. Qed.
Lemma max_fin (x y : Q) : JS.max (Fin x) (Fin y) = Fin (Qmax x y).
Proof. reflexivity. Qed.
Lemma min_fin (x y : Q) : JS.min (Fin x) (Fin y) = Fin (Qmin x y).
Proof. reflexivity. Qed.
Lemma fin_equiv (x y : Q) : Fin x ≡ Fin y <-> x == y.
Proof. reflexivity. Qed.
Lemma add_zero_l (a : num) : (Fin 0 + a)%num ≡ a.
Proof.
  destruct a; cbn [JS.add]; unfold equiv, num_equiv; cbn [JS.num_eq];
    try exact I. lra.
Qed.

Lemma or_else_fin (r : Q) : JS.or_else (Some (Fin r)) (Fin 0) ≡ Fin r.
Proof.
  cbn. destruct (Qeq_bool r 0) eqn:E; cbn; [|reflexivity].
  apply Qeq_bool_iff in E. unfold equiv, num_equiv. cbn. lra.
Qed.

End NumFacts.

Import NumFacts.

(** Side conditions of the form [~ x == 0]. *)
Ltac nonzero :=
  solve [ assumption | lra | rewrite Qabs_zero_iff; lra
        | let H := fresh in intro H; vm_compute in H; discriminate H ].

Ltac fin_rw := rewrite ?add_fin, ?sub_fin, ?mul_fin, ?max_fin, ?min_fin.

(** Arithmetic on finite numbers stays finite. *)
Ltac js_fin :=
  repeat first
    [ rewrite div_fin by nonzero
    | progress cbn [JS.add JS.sub JS.mul JS.neg JS.abs JS.min JS.max
                    JS.floor JS.of_nat] ].

(** ** Risk engine *)

Module RiskSpec.

Import Risk RiskCases.
Local Open Scope Q_scope.

Lemma calculatePositionSize_finite limits account (b r e s m : Q) :
  balance account = Fin b -> maxPositionSize limits = Fin m ->
  ~ e == 0 -> ~ e == s ->
  calculatePositionSize limits account (Fin r) (Fin e) (Fin s)
  = Ok (Fin (Qmin (b * (r / 100) / Qabs (e - s)) (b * (m / 100) / e))).
Proof.
  intros Hb Hm He Hes. unfold calculatePositionSize. rewrite Hb, Hm.
  js_fin. rewrite eqb_fin_false by nonzero. js_fin. reflexivity.
Qed.

Lemma calculatePositionSize_zero_distance limits account (r e s : Q) :
  e == s ->
  calculatePositionSize limits account (Fin r) (Fin e) (Fin s)
  = Throw StopLossDistanceZero.
Proof.
  intros Hes. unfold calculatePositionSize. js_fin.
  rewrite eqb_fin_true; [reflexivity|]. apply Qabs_zero_iff. lra.
Qed.




Lemma add_zero_r (a : num) (z : Q) : z == 0 -> (a + Fin z)%num ≡ a.
Proof.
  intros Hz. destruct a; cbn; try exact I. unfold equiv, num_equiv. cbn. lra.
Qed.

Lemma gt_nan_l (a : num) : (NaN >? a)%num = false.
Proof. now destruct a. Qed.

Lemma positionSize_check_passes (sz : Q) (tv limit : num) :
  (limit <? Fin 0)%num = false ->
  (Fin (sz * 0) / tv * Fin 100 >? limit)%num = false.
Proof.
  intros Hl. unfold JS.gt.
  assert (E : (Fin (sz * 0) / tv * Fin 100)%num ≡ Fin 0 \/ (Fin (sz * 0) / tv * Fin 100)%num = NaN).
  { destruct tv as [t| | |]; cbn -[Qeq_bool].
    - rewrite (Qeq_bool_true (sz * 0) 0) by lra.
      destruct (Qeq_bool t 0) eqn:E; [right; reflexivity|left].
      apply Qeq_bool_neq in E. unfold equiv, num_equiv. cbn. field. assumption.
    - left. unfold equiv, num_equiv. cbn. lra.
    - left. unfold equiv, num_equiv. cbn. lra.
    - right. reflexivity. }
  destruct E as [E|E].
  - rewrite E. assumption.
  - rewrite E. now destruct limit.
Qed.

Lemma validateOrder_without_price_cases limits order portfolio account sz :
  o_price order = None -> o_size order = Fin sz ->
  (maxPositionSize limits <? Fin 0)%num = false ->
  validateOrder limits order portfolio account =
    if tooManyPositions limits portfolio
    then reject (TooManyPositions (maxOpenPositions limits))
    else if overLeveraged limits portfolio
    then reject (LeverageExceeded
                   ((calculateTotalExposure portfolio + Fin (sz * 0))
                    / totalValue portfolio)%num (maxLeverage limits))
    else if negativeFreeMargin account
    then reject (InsufficientMargin (Fin (sz * 0 * 0.1)) (freeMargin account))
    else if tooCorrelated limits order portfolio
    then reject (CorrelationExceeded
                   (calculateCorrelation (o_symbol order) portfolio)
                   (maxCorrelation limits))
    else accept.
Proof.
  intros Hp Hs Hl. unfold validateOrder, tooManyPositions, overLeveraged,
    negativeFreeMargin, tooCorrelated, calculateRequiredMargin.
  rewrite Hp, Hs. cbn [JS.or_else JS.mul]. cbv zeta.
  destruct (_ >=? _)%num; [reflexivity|].
  rewrite positionSize_check_passes by assumption.
  assert (Hlev :
    ((calculateTotalExposure portfolio + Fin (sz * 0)) / totalValue portfolio
     >? maxLeverage limits)%num
    = (calculateTotalExposure portfolio / totalValue portfolio
       >? maxLeverage limits)%num)
    by (now rewrite add_zero_r by lra).
  rewrite Hlev. clear Hlev. destruct (_ >? maxLeverage limits)%num; [reflexivity|].
  assert (Hmargin :
    (freeMargin account <? Fin (sz * 0 * 0.1))%num
    = (freeMargin account <? Fin 0)%num).
  { apply lt_proper; [reflexivity|]. unfold equiv, num_equiv. cbn. lra. }
  rewrite Hmargin. clear Hmargin. destruct (_ <? _)%num; reflexivity.
Qed.

Lemma reason_reject r : reason (reject r) = Some r.
Proof. reflexivity. Qed.

(** C10, as stated: an order without a price can be rejected by the
    leverage check.  With a portfolio worth 100 that already holds
    4 units marked at 100, the exposure of 400 alone gives a leverage of
    4 against the limit of 3. *)
Lemma validateOrder_without_price_leverage_rejects :
  o_price orderWithoutPrice = None
  /\ exists leverage,
       reason (validateOrder defaultLimits orderWithoutPrice
                 leveragedPortfolio account10000)
       = Some (LeverageExceeded leverage (Fin 3))
       /\ leverage ≡ Fin 4.
Proof.
  split; [reflexivity|]. eexists. split; [vm_compute; reflexivity|].
  reflexivity.
Qed.

(** C10 (amended): for an order request whose price is undefined and
    whose size is finite, the notional value and the required margin
    are zero, and the position-size check never rejects (the limit not
    being negative).  The leverage check then compares the existing
    exposure alone with the limit and rejects when it is exceeded; the
    margin check rejects when the free margin is negative; the order is
    valid exactly when none of the open-positions, leverage, margin and
    correlation checks fires. *)
Theorem validateOrder_without_price limits order portfolio account (sz : Q) :
  o_price order = None -> o_size order = Fin sz ->
  (maxPositionSize limits <? Fin 0)%num = false ->
  let v := validateOrder limits order portfolio account in
  (o_size order * JS.or_else (o_price order) (Fin 0))%num ≡ Fin 0
  /\ calculateRequiredMargin order account ≡ Fin 0
  /\ (forall percent limit,
        reason v <> Some (PositionSizeExceeded percent limit))
  /\ ((exists leverage limit,
         reason v = Some (LeverageExceeded leverage limit))
      <-> tooManyPositions limits portfolio = false
          /\ overLeveraged limits portfolio = true)
  /\ ((exists required available,
         reason v = Some (InsufficientMargin required available))
      <-> tooManyPositions limits portfolio = false
          /\ overLeveraged limits portfolio = false
          /\ negativeFreeMargin account = true)
  /\ (valid v = true
      <-> tooManyPositions limits portfolio = false
          /\ overLeveraged limits portfolio = false
          /\ negativeFreeMargin account = false
          /\ tooCorrelated limits order portfolio = false).
Proof.
  intros Hp Hs Hl v. subst v.
  rewrite (validateOrder_without_price_cases _ _ _ _ sz Hp Hs Hl).
  unfold calculateRequiredMargin. rewrite Hp, Hs. cbn [JS.or_else JS.mul].
  split; [unfold equiv, num_equiv; cbn; lra|].
  split; [unfold equiv, num_equiv; cbn; lra|].
  destruct (tooManyPositions limits portfolio),
    (overLeveraged limits portfolio), (negativeFreeMargin account),
    (tooCorrelated limits order portfolio); cbn [reason valid reject accept];
    repeat split; intros;
    repeat match goal with
    | H : exists _, _ |- _ => destruct H
    | H : _ /\ _ |- _ => destruct H
    end; try discriminate; try congruence; eauto.
Qed.

Lemma validateOrder_without_price_witness :
  calculateRequiredMargin orderWithoutPrice account10000 ≡ Fin 0.
Proof.
  exact (proj1 (proj2 (validateOrder_without_price defaultLimits
           orderWithoutPrice leveragedPortfolio account10000 1
           eq_refl eq_refl eq_refl))).
Defined.

#[export] Instance Qle_total : Total Qle.
Proof. intros x y. destruct (Qlt_le_dec x y); [left|right]; lra. Qed.

#[export] Instance Qle_trans_inst : Transitive Qle.
Proof. intros x y z. apply Qle_trans. Qed.

Lemma sortAscending_sorted returns : StronglySorted Qle (sortAscending returns).
Proof. apply StronglySorted_merge_sort; apply _. Qed.

Lemma sortAscending_perm returns : sortAscending returns ≡ₚ returns.
Proof. apply merge_sort_Permutation. Qed.

Lemma sortAscending_length returns :
  length (sortAscending returns) = length returns.
Proof. apply Permutation_length, sortAscending_perm. Qed.

Lemma inject_Z_nat_pos n : (0 < n)%nat -> 0 < inject_Z (Z.of_nat n).
Proof.
  intros Hn. replace 0 with (inject_Z 0) by reflexivity.
  rewrite <- Zlt_Qlt. lia.
Qed.

Lemma index_nat (arr : list num) (k : nat) :
  JS.index arr (Fin (inject_Z (Z.of_nat k))) = arr !! k.
Proof.
  cbn [JS.index]. rewrite Qfloor_Z.
  rewrite Qeq_bool_true by reflexivity.
  replace (0 <=? Z.of_nat k)%Z with true by (symmetry; apply Z.leb_le; lia).
  cbn [andb]. now rewrite Nat2Z.id.
Qed.

Lemma calculatePortfolioReturns_length (random : nat -> Q) portfolio :
  length (calculatePortfolioReturns random portfolio) = 100%nat.
Proof. unfold calculatePortfolioReturns. now rewrite length_map, length_seq. Qed.

(** C8, as amended: [calculateHistoricalVaR] sorts the hundred returns of
    the mock history ascending and reads the return at the index
    floor((1 - confidence) * n), where the difference and the product are
    those of binary64 as the program computes them; it reports the
    absolute value of that return scaled by sqrt(horizon) *
    portfolioValue, with the confidence and the horizon it was given.
    At confidence 0.95 the index is floor(0.05 * n), the sixth smallest
    return. *)
Theorem historicalVaR_quantile (sqrt : num -> num) (random : nat -> Q)
    (portfolio : Portfolio) (conf horizon : num) (k : nat) :
  selectedIndex conf 100 = Fin (inject_Z (Z.of_nat k)) -> (k < 100)%nat ->
  let returns := calculatePortfolioReturns random portfolio in
  let result := calculateHistoricalVaR sqrt random portfolio conf horizon in
  exists (sorted : list Q) (r : Q),
    StronglySorted Qle sorted
    /\ sorted ≡ₚ returns
    /\ sorted !! k = Some r
    /\ value result ≡ JS.abs (Fin r * sqrt horizon * totalValue portfolio)%num
    /\ confidence result = conf
    /\ timeHorizon result = horizon
    /\ (conf = Fin 0.95 ->
        k = Z.to_nat (Qfloor (0.05 * inject_Z (Z.of_nat (length returns))))).
Proof.
  intros Hindex Hk returns result.
  pose proof (calculatePortfolioReturns_length random portfolio) as Hlen.
  fold returns in Hlen.
  destruct (lookup_lt_is_Some_2 (sortAscending returns) k) as [r Hr].
  { rewrite sortAscending_length, Hlen. exact Hk. }
  exists (sortAscending returns), r.
  split; [apply sortAscending_sorted|].
  split; [apply sortAscending_perm|].
  split; [exact Hr|].
  subst result. unfold calculateHistoricalVaR, historicalVaROf. fold returns.
  rewrite Hlen. cbn [Nat.eqb value confidence timeHorizon].
  rewrite length_map, sortAscending_length, Hlen.
  fold (selectedIndex conf 100). rewrite Hindex, index_nat.
  rewrite list_lookup_fmap, Hr. cbn [fmap option_fmap option_map].
  split; [now rewrite or_else_fin|].
  split; [reflexivity|]. split; [reflexivity|].
  intros ->.
  assert (E : selectedIndex (Fin 0.95) 100 = Fin (inject_Z 5))
    by (vm_compute; reflexivity).
  rewrite E in Hindex. injection Hindex as Hindex.
  apply Nat2Z.inj. rewrite <- Hindex. vm_compute. reflexivity.
Qed.

Lemma historicalVaR_quantile_witness :
  exists (sorted : list Q) (r : Q),
    StronglySorted Qle sorted
    /\ sorted ≡ₚ calculatePortfolioReturns risingDraws leveragedPortfolio
    /\ sorted !! 5%nat = Some r
    /\ value (calculateHistoricalVaR (fun x => x) risingDraws
                leveragedPortfolio (Fin 0.95) (Fin 1))
       ≡ JS.abs (Fin r * Fin 1 * totalValue leveragedPortfolio)%num.
Proof.
  destruct (historicalVaR_quantile (fun x => x) risingDraws
              leveragedPortfolio (Fin 0.95) (Fin 1) 5)
    as (sorted & r & Hsorted & Hperm & Hr & Hvalue & _).
  - vm_compute. reflexivity.
  - lia.
  - exists sorted, r.
    split; [exact Hsorted|]. split; [exact Hperm|].
    split; [exact Hr | exact Hvalue].
Defined.

(** C8, as stated: read in exact arithmetic the index at confidence 0.9
    on a hundred returns is floor(0.1 * 100) = 10.  The program computes
    (1 - 0.9) * 100 in binary64, which is 9.999999999999998, and reads
    index 9.  On a history that is already ascending it reports the
    return at index 9 (a loss of 4.1 percent, scaled by a portfolio worth
    100), not the return at index 10 (4.0 percent). *)
Lemma historicalVaR_index_at_90 :
  let returns := calculatePortfolioReturns risingDraws leveragedPortfolio in
  let result :=
    calculateHistoricalVaR (fun x => x) risingDraws leveragedPortfolio
      (Fin 0.9) (Fin 1) in
  sortAscending returns = returns
  /\ quantileIndex 0.9 (length returns) = 10%nat
  /\ selectedIndex (Fin 0.9) (length returns) = Fin (inject_Z 9)
  /\ (exists r9 r10 : Q,
        returns !! 9%nat = Some r9 /\ returns !! 10%nat = Some r10
        /\ value result ≡ JS.abs (Fin r9 * Fin 1 * Fin 100)%num
        /\ ~ value result ≡ JS.abs (Fin r10 * Fin 1 * Fin 100)%num).
Proof.
  cbv zeta. split; [vm_compute; reflexivity|].
  split; [vm_compute; reflexivity|].
  split; [vm_compute; reflexivity|].
  eexists. eexists.
  split; [vm_compute; reflexivity|]. split; [vm_compute; reflexivity|].
  split; [vm_compute; reflexivity|].
  vm_compute. discriminate.
Qed.

End RiskSpec.

(** ** Strategy engine *)

Module StrategySpec.

Import Strategy StrategyCases.
Local Open Scope Q_scope.

Lemma addToGroup_same s sym members :
  Signal.symbol s = sym ->
  addToGroup s [(sym, members)] = [(sym, members ++ [s])].
Proof. intros <-. cbn. now rewrite String.eqb_refl. Qed.

Lemma fold_addToGroup_same signals sym members :
  Forall (fun s => Signal.symbol s = sym) signals ->
  fold_left (fun groups s => addToGroup s groups) signals [(sym, members)]
  = [(sym, members ++ signals)].
Proof.
  revert members. induction signals as [|s rest IH]; intros members Hall.
  - now rewrite app_nil_r.
  - inversion Hall as [|? ? Hs Hrest]; subst. cbn [fold_left].
    rewrite addToGroup_same by reflexivity. rewrite IH by assumption.
    now rewrite <- app_assoc.
Qed.

Lemma groupBySymbol_same signals sym :
  signals <> [] -> Forall (fun s => Signal.symbol s = sym) signals ->
  groupBySymbol signals = [(sym, signals)].
Proof.
  intros Hne Hall. destruct signals as [|s rest]; [congruence|].
  inversion Hall as [|? ? Hs Hrest]; subst. unfold groupBySymbol.
  cbn [fold_left addToGroup]. now rewrite fold_addToGroup_same.
Qed.

Lemma totalConfidence_fin signals pairs acc :
  Forall2 hasValues signals pairs ->
  exists t,
    fold_left (fun sum s => (sum + Signal.confidence s * Signal.strength s)%num)
      signals (Fin acc) = Fin t
    /\ t == acc + sumQ (map (fun '(conf, str) => conf * str) pairs).
Proof.
  intros H. revert acc. induction H as [|s [cf st] signals pairs [Hc Hs] _ IH];
    intros acc.
  - exists acc. split; [reflexivity|]. unfold sumQ. cbn [map fold_right]. lra.
  - cbn [fold_left]. cbn in Hc, Hs. rewrite Hc, Hs. cbn [JS.mul JS.add].
    destruct (IH (acc + cf * st)) as [t [Ht Heq]]. exists t.
    split; [assumption|]. rewrite Heq. unfold sumQ. cbn [map fold_right snd]. lra.
Qed.

Lemma totalWeight_fin signals pairs acc :
  Forall2 hasValues signals pairs ->
  exists t,
    fold_left (fun sum s => (sum + Signal.strength s)%num) signals (Fin acc)
    = Fin t
    /\ t == acc + sumQ (map snd pairs).
Proof.
  intros H. revert acc. induction H as [|s [cf st] signals pairs [Hc Hs] _ IH];
    intros acc.
  - exists acc. split; [reflexivity|]. unfold sumQ. cbn [map fold_right]. lra.
  - cbn [fold_left]. cbn in Hs. rewrite Hs. cbn [JS.add].
    destruct (IH (acc + st)) as [t [Ht Heq]]. exists t.
    split; [assumption|]. rewrite Heq. unfold sumQ. cbn [map fold_right snd]. lra.
Qed.

Lemma consolidate_many now sym signals :
  (2 <= length signals)%nat ->
  Signal.symbol (consolidate now sym signals) = sym
  /\ Signal.confidence (consolidate now sym signals)
     = JS.min (Fin 1) (totalConfidence signals / totalWeight signals)%num
  /\ Signal.type (consolidate now sym signals) = dominantType signals.
Proof.
  intros Hlen.
  destruct signals as [|s1 [|s2 rest]]; [cbn in Hlen; lia | cbn in Hlen; lia|].
  repeat split.
Qed.

Lemma countType_votes ty signals : countType ty signals = votes ty signals.
Proof.
  unfold countType, votes.
  induction signals as [|s signals IH]; [reflexivity|].
  cbn [List.filter map count_occ].
  destruct (sameType (Signal.type s) ty) as [E|E].
  - rewrite E. replace (SignalType_eqb ty ty) with true
      by (destruct ty; reflexivity).
    cbn [length]. now rewrite IH.
  - replace (SignalType_eqb (Signal.type s) ty) with false
      by (destruct (Signal.type s), ty; try reflexivity; congruence).
    exact IH.
Qed.

Lemma dominantType_example c1 c2 c3 :
  dominantType (exampleSignals c1 c2 c3) = buy.
Proof. reflexivity. Qed.

(** C5: a list of two or more signals on one symbol consolidates to one
    signal.  Its confidence is min(1, sum(confidence * strength) /
    sum(strength)) in the arithmetic of the source, which for finite
    values and a non-zero total strength is the strength-weighted
    average capped at 1.  The votes for a type are the number of input
    signals of that type; the type of the result is the one with
    strictly more votes than each of the other two, and hold when there
    is none.  Signals buy@80, buy@60 and sell@50 consolidate to buy
    whatever their confidences. *)
Theorem consolidateSignals_same_symbol (now : Z) (signals : list Signal.t)
    (sym : string) :
  (2 <= length signals)%nat ->
  Forall (fun s => Signal.symbol s = sym) signals ->
  let buys := votes buy signals in
  let sells := votes sell signals in
  let holds := votes hold signals in
  exists c,
    consolidateSignals now signals = [c]
    /\ Signal.symbol c = sym
    /\ Signal.confidence c
       = JS.min (Fin 1) (totalConfidence signals / totalWeight signals)%num
    /\ (forall pairs,
          Forall2 hasValues signals pairs -> ~ sumQ (map snd pairs) == 0 ->
          Signal.confidence c ≡ Fin (Qmin 1 (weightedMean pairs)))
    /\ (Signal.type c = buy <-> (sells < buys /\ holds < buys)%nat)
    /\ (Signal.type c = sell <-> (buys < sells /\ holds < sells)%nat)
    /\ (Signal.type c = hold <->
        ~ (sells < buys /\ holds < buys)%nat
        /\ ~ (buys < sells /\ holds < sells)%nat)
    /\ (forall c1 c2 c3 consolidated,
          consolidateSignals now (exampleSignals c1 c2 c3) = [consolidated]
          -> Signal.type consolidated = buy).
Proof.
  intros Hlen Hall buys sells holds.
  assert (Hne : signals <> [])
    by (destruct signals; [cbn in Hlen; lia|discriminate]).
  unfold consolidateSignals. rewrite (groupBySymbol_same signals sym Hne Hall).
  cbn [map]. eexists. split; [reflexivity|].
  destruct (consolidate_many now sym signals Hlen) as (Hsym & Hconf & Hty).
  rewrite Hsym, Hconf, Hty. split; [reflexivity|]. split; [reflexivity|].
  split.
  { intros pairs Hv Hnz. unfold totalConfidence, totalWeight.
    destruct (totalConfidence_fin signals pairs 0 Hv) as [tc [Htc Etc]].
    destruct (totalWeight_fin signals pairs 0 Hv) as [tw [Htw Etw]].
    rewrite Htc, Htw. rewrite div_fin by (rewrite Etw; lra).
    cbn [JS.min]. unfold equiv, num_equiv. cbn [JS.num_eq].
    apply Q.min_compat; [reflexivity|]. unfold weightedMean.
    rewrite Etc, Etw. field. lra. }
  split; [|split; [|split]].
  4: { intros c1 c2 c3 consolidated H.
       rewrite (groupBySymbol_same _ "BTC/USD") in H;
         [|discriminate|repeat constructor].
       cbn [map] in H. inversion H.
       apply (consolidate_many now "BTC/USD" (exampleSignals c1 c2 c3)).
       cbn. lia. }
  all: unfold dominantType; rewrite !countType_votes; fold buys sells holds;
    destruct (Nat.ltb_spec sells buys), (Nat.ltb_spec holds buys),
      (Nat.ltb_spec buys sells), (Nat.ltb_spec holds sells);
    cbn [andb]; split; intros; try discriminate; try lia; try tauto;
    try reflexivity.
Qed.

Lemma consolidateSignals_same_symbol_witness :
  exists c,
    consolidateSignals 0 (exampleSignals (Fin 0.9) (Fin 0.5) (Fin 1)) = [c]
    /\ Signal.type c = buy.
Proof.
  destruct (consolidateSignals_same_symbol 0
              (exampleSignals (Fin 0.9) (Fin 0.5) (Fin 1)) "BTC/USD")
    as (c & Hc & _ & _ & _ & Hbuy & _).
  - cbn. lia.
  - repeat constructor.
  - exists c. split; [exact Hc|]. apply Hbuy. cbn. lia.
Defined.

(** C9: [runStrategy] throws a not-found error for an unregistered
    name, returns no signals and changes nothing for a registered
    strategy that is not active, and when the execute step of an active
    strategy fails it catches the failure and returns no signals,
    leaving registry, active set and signal history as they were. *)
Theorem runStrategy_outcomes (e : Engine) (strategyName : string)
    (marketData : list MarketData.t) :
  (strategies e !! strategyName = None ->
   runStrategy e strategyName marketData
   = Throw (StrategyNotFound strategyName))
  /\ (forall strategy,
        strategies e !! strategyName = Some strategy ->
        isActive e strategyName = false ->
        runStrategy e strategyName marketData = Ok (e, []))
  /\ (forall strategy message,
        strategies e !! strategyName = Some strategy ->
        isActive e strategyName = true ->
        execute strategy marketData = Throw message ->
        exists e',
          runStrategy e strategyName marketData = Ok (e', [])
          /\ strategies e' = strategies e
          /\ activeStrategies e' = activeStrategies e
          /\ signalHistory e' = signalHistory e)
  /\ (forall strategy signals,
        strategies e !! strategyName = Some strategy ->
        isActive e strategyName = true ->
        execute strategy marketData = Ok signals ->
        exists e',
          runStrategy e strategyName marketData = Ok (e', signals)).
Proof.
  unfold runStrategy. repeat split.
  - intros ->. reflexivity.
  - intros strategy -> ->. reflexivity.
  - intros strategy message -> -> ->. cbn. eexists. repeat split.
  - intros strategy signals -> -> ->. cbn. eexists. reflexivity.
Qed.

Lemma runStrategy_outcomes_witness :
  exists e', runStrategy brokenEngine "Broken" [] = Ok (e', [])
             /\ signalHistory e' = signalHistory brokenEngine.
Proof.
  destruct (proj1 (proj2 (proj2 (runStrategy_outcomes brokenEngine "Broken" [])))
              failingStrategy "boom"%string)
    as (e' & Hrun & _ & _ & Hhist).
  - reflexivity.
  - reflexivity.
  - reflexivity.
  - exists e'. split; assumption.
Defined.

Example consolidateSignals_example :
  exists c,
    consolidateSignals 1700000000000
      (exampleSignals (Fin 0.9) (Fin 0.5) (Fin 1)) = [c]
    /\ Signal.id c = "consolidated_1700000000000_BTC/USD"%string
    /\ Signal.reason c
       = "Consolidated from 3 strategies: RSI, MACD, Bollinger"%string
    /\ Signal.confidence c ≡ Fin 0.8
    /\ Signal.strength c ≡ Fin (190 / 3).
Proof. eexists. repeat split. Qed.

End StrategySpec.

(** ** Indicator library *)

Module IndicatorSpec.

Import TechnicalIndicators.

Lemma ltb_true n m : (n < m)%nat -> (n <? m)%nat = true.
Proof. apply Nat.ltb_lt. Qed.

Lemma windows_short n period : (n < period)%nat -> windows n period = [].
Proof.
  intros H. unfold windows. replace (n + 1 - period)%nat with 0%nat by lia.
  reflexivity.
Qed.

Lemma emaFrom_length multiplier prev rest :
  length (emaFrom multiplier prev rest) = length rest.
Proof.
  revert prev. induction rest as [|p rest IH]; intros prev; cbn; [|rewrite IH];
    reflexivity.
Qed.

Lemma ema_length prices period : length (ema prices period) = length prices.
Proof.
  destruct prices as [|p rest]; cbn; [|rewrite emaFrom_length]; reflexivity.
Qed.

Lemma vwapLoop_length highs lows closes volumes tpv vol indices :
  length (vwapLoop highs lows closes volumes tpv vol indices)
  = length indices.
Proof.
  revert tpv vol. induction indices as [|i rest IH]; intros tpv vol; cbn;
    [|rewrite IH]; reflexivity.
Qed.

(** C7, as stated: [ema] and [atr] return values on series shorter than
    their period, and [vwap] throws when its series differ in length. *)
Lemma short_series_exceptions :
  (length [Fin 10; Fin 11] < 5)%nat
  /\ ema [Fin 10; Fin 11] 5 <> []
  /\ atr [Fin 10; Fin 12] [Fin 9; Fin 10] [Fin 9.5; Fin 11] 14 <> []
  /\ vwap [Fin 10; Fin 12] [Fin 9; Fin 10] [Fin 9.5; Fin 11] [Fin 100]
     = Throw LengthMismatch.
Proof. repeat split; try discriminate. cbn. lia. Qed.

(** C7 (amended): [sma], [rsi], [macd], [bollingerBands], [stochastic],
    [cci], [williamsR], [mfi] and [parabolicSAR] return an empty result
    on a series shorter than the length their guard asks for (the
    period; period + 1 for rsi and mfi; the slow period for macd; 2 for
    parabolicSAR), and none of them throws.  [ema] ignores its period
    and returns one value per price; [atr] is empty only below two bars,
    whatever its period; [vwap] throws when its four series differ in
    length and otherwise returns one value per bar; [ichimoku] returns
    empty lines below 9, 26 and 52 bars but always copies the closes
    into its lagging span; [findSupportResistance] finds no level in at
    most two lookback periods of bars. *)
Theorem short_series_results :
  (forall prices period,
     (length prices < period)%nat -> sma prices period = [])
  /\ (forall prices period,
       (length prices < period + 1)%nat -> rsi prices period = [])
  /\ (forall prices fastPeriod slowPeriod signalPeriod,
       (length prices < slowPeriod)%nat ->
       macd prices fastPeriod slowPeriod signalPeriod = [])
  /\ (forall sqrt prices period stdDev,
       (length prices < period)%nat ->
       bollingerBands sqrt prices period stdDev = [])
  /\ (forall highs lows closes kPeriod dPeriod,
       (length highs < kPeriod \/ length lows < kPeriod
        \/ length closes < kPeriod)%nat ->
       stochastic highs lows closes kPeriod dPeriod = [])
  /\ (forall highs lows closes period,
       (length highs < period)%nat -> cci highs lows closes period = [])
  /\ (forall highs lows closes period,
       (length highs < period)%nat ->
       williamsR highs lows closes period = [])
  /\ (forall highs lows closes volumes period,
       (length highs < period + 1)%nat ->
       mfi highs lows closes volumes period = [])
  /\ (forall highs lows step max,
       (length highs < 2 \/ length lows < 2)%nat ->
       parabolicSAR highs lows step max = [])
  /\ (forall prices period,
       length (ema prices period) = length prices)
  /\ (forall highs lows closes period,
       (length highs < 2 \/ length lows < 2 \/ length closes < 2)%nat ->
       atr highs lows closes period = [])
  /\ (forall highs lows closes period,
       (2 <= length highs /\ 2 <= length lows /\ 2 <= length closes)%nat ->
       length (atr highs lows closes period) = (length highs - 1)%nat)
  /\ (forall highs lows closes volumes,
       ~ (length highs = length lows /\ length lows = length closes
          /\ length closes = length volumes) ->
       vwap highs lows closes volumes = Throw LengthMismatch)
  /\ (forall highs lows closes volumes,
       length highs = length lows -> length lows = length closes ->
       length closes = length volumes ->
       exists values,
         vwap highs lows closes volumes = Ok values
         /\ length values = length highs)
  /\ (forall highs lows closes,
       laggingSpan (ichimoku highs lows closes) = closes
       /\ ((length highs < 9)%nat ->
           conversionLine (ichimoku highs lows closes) = [])
       /\ ((length highs < 26)%nat ->
           baseLine (ichimoku highs lows closes) = []
           /\ leadingSpanA (ichimoku highs lows closes) = [])
       /\ ((length highs < 52)%nat ->
           leadingSpanB (ichimoku highs lows closes) = []))
  /\ (forall highs lows lookbackPeriod minTouches,
       (length highs <= 2 * lookbackPeriod)%nat ->
       findSupportResistance highs lows lookbackPeriod minTouches
       = {| support := []; resistance := [] |}).
Proof.
  repeat apply conj.
  - intros prices period H. unfold sma. now rewrite ltb_true.
  - intros prices period H. unfold rsi. now rewrite ltb_true.
  - intros prices fastPeriod slowPeriod signalPeriod H. unfold macd.
    now rewrite ltb_true.
  - intros sqrt prices period stdDev H. unfold bollingerBands.
    now rewrite ltb_true.
  - intros highs lows closes kPeriod dPeriod H. unfold stochastic.
    destruct H as [H|[H|H]]; rewrite (ltb_true _ _ H);
      rewrite ?orb_true_r; reflexivity.
  - intros highs lows closes period H. unfold cci. now rewrite ltb_true.
  - intros highs lows closes period H. unfold williamsR.
    now rewrite ltb_true.
  - intros highs lows closes volumes period H. unfold mfi.
    now rewrite ltb_true.
  - intros highs lows step max H. unfold parabolicSAR.
    destruct H as [H|H]; rewrite (ltb_true _ _ H);
      rewrite ?orb_true_r; reflexivity.
  - apply ema_length.
  - intros highs lows closes period H. unfold atr.
    destruct H as [H|[H|H]]; rewrite (ltb_true _ _ H);
      rewrite ?orb_true_r; reflexivity.
  - intros highs lows closes period (Hh & Hl & Hc). unfold atr.
    replace (length highs <? 2)%nat with false
      by (symmetry; apply Nat.ltb_ge; lia).
    replace (length lows <? 2)%nat with false
      by (symmetry; apply Nat.ltb_ge; lia).
    replace (length closes <? 2)%nat with false
      by (symmetry; apply Nat.ltb_ge; lia).
    cbn [orb]. now rewrite ema_length, length_map, length_seq.
  - intros highs lows closes volumes H. unfold vwap.
    destruct (Nat.eqb_spec (length highs) (length lows)); [|reflexivity].
    destruct (Nat.eqb_spec (length lows) (length closes)); [|reflexivity].
    destruct (Nat.eqb_spec (length closes) (length volumes)); [|reflexivity].
    tauto.
  - intros highs lows closes volumes H1 H2 H3. unfold vwap.
    rewrite H1, H2, H3, Nat.eqb_refl. cbn [negb orb]. eexists.
    split; [reflexivity|]. now rewrite vwapLoop_length, length_seq.
  - intros highs lows closes. unfold ichimoku.
    cbn [laggingSpan conversionLine baseLine leadingSpanA leadingSpanB].
    split; [reflexivity|]. unfold midline. repeat split.
    + intros H. now rewrite windows_short.
    + now rewrite (windows_short _ 26).
    + rewrite (windows_short _ 26) by assumption.
      cbn [map length]. now rewrite Nat.min_0_r.
    + intros H. now rewrite windows_short.
  - intros highs lows lookbackPeriod minTouches H.
    unfold findSupportResistance.
    replace (length highs - lookbackPeriod - lookbackPeriod)%nat with 0%nat
      by lia.
    reflexivity.
Qed.

Lemma short_series_results_witness : sma [Fin 1; Fin 2] 3 = [].
Proof.
  apply (proj1 short_series_results [Fin 1; Fin 2] 3%nat). cbn. lia.
Defined.

(** The indicators on a few bars, as worked by hand from the source. *)
Example sma_example :
  sma [Fin 1; Fin 2; Fin 3; Fin 4] 2 = [Fin (3 # 2); Fin (5 # 2); Fin (7 # 2)].
Proof. reflexivity. Qed.

Example sma_period_zero : sma [Fin 1; Fin 2] 0 = [NaN; NaN; NaN].
Proof. reflexivity. Qed.

Example rsi_without_losses :
  rsi [Fin 1; Fin 2; Fin 3; Fin 4; Fin 6] 2 = [Fin 100; Fin 100].
Proof. reflexivity. Qed.

Example parabolicSAR_example :
  parabolicSAR [Fin 3; Fin 4; Fin 5; Fin 4] [Fin 1; Fin 2; Fin 3; Fin 2]
    (Fin 0.02) (Fin 0.2)
  ≡ [Fin 1; Fin 1; Fin 1.16].
Proof. repeat constructor. Qed.

Example findSupportResistance_example :
  findSupportResistance [Fin 3; Fin 4; Fin 5; Fin 4; Fin 3]
    [Fin 1; Fin 2; Fin 0; Fin 2; Fin 3] 1 2
  = {| support := [Fin 0]; resistance := [Fin 4; Fin 5] |}.
Proof. reflexivity. Qed.

End IndicatorSpec.

(** ** Order lifecycle manager and portfolio ledger *)

Module ServicesSpec.

Import Services ServicesCases.
Local Open Scope Q_scope.

(** *** The ledger *)

Lemma processTrade_buy_cash newId portfolio trade :
  Trade.side trade = buy ->
  Portfolio.cashBalance (processTrade newId portfolio trade)
  = (Portfolio.cashBalance portfolio
     - (Trade.quantity trade * Trade.price trade + Trade.commission trade))%num.
Proof.
  intros Hside. unfold processTrade. rewrite Hside.
  destruct (find _ _); reflexivity.
Qed.

Lemma processTrade_sell_new_cash newId portfolio trade :
  Trade.side trade = sell ->
  find (hasSymbol trade) (Portfolio.positions portfolio) = None ->
  Portfolio.cashBalance (processTrade newId portfolio trade)
  = (Portfolio.cashBalance portfolio
     + (Trade.quantity trade * Trade.price trade - Trade.commission trade))%num.
Proof.
  intros Hside Hfind. unfold processTrade. unfold hasSymbol in Hfind.
  rewrite Hside, Hfind. reflexivity.
Qed.

Lemma processTrade_sell_existing newId portfolio trade position :
  Trade.side trade = sell ->
  find (hasSymbol trade) (Portfolio.positions portfolio) = Some position ->
  let credit :=
    (Trade.quantity trade * Trade.price trade - Trade.commission trade)%num in
  Portfolio.cashBalance (processTrade newId portfolio trade)
  = (Portfolio.cashBalance portfolio + credit + credit)%num
  /\ Portfolio.realizedPnL (processTrade newId portfolio trade)
     = (Portfolio.realizedPnL portfolio
        + Trade.quantity trade
          * (Trade.price trade - Position.avgPrice position))%num.
Proof.
  intros Hside Hfind. unfold processTrade. unfold hasSymbol in Hfind.
  rewrite Hside, Hfind. split; reflexivity.
Qed.

(** C1: a sell trade against an existing position credits the cash
    balance twice with quantity * price - commission, first in the
    branch that reduces the position and again in the cash update that
    every trade goes through, where the ledger's rule asks for one
    credit.  The realized profit is booked as the claim says, and a buy
    trade is debited once ([processTrade_buy_cash]). *)
Theorem processTrade_sell_credits_twice newId portfolio trade position
    (cash q price commission : Q) :
  Trade.side trade = sell ->
  find (hasSymbol trade) (Portfolio.positions portfolio) = Some position ->
  Portfolio.cashBalance portfolio = Fin cash ->
  Trade.quantity trade = Fin q -> Trade.price trade = Fin price ->
  Trade.commission trade = Fin commission ->
  Portfolio.cashBalance (processTrade newId portfolio trade)
  ≡ Fin (cash + 2 * (q * price - commission))
  /\ Portfolio.realizedPnL (processTrade newId portfolio trade)
     = (Portfolio.realizedPnL portfolio
        + Fin q * (Fin price - Position.avgPrice position))%num
  /\ (~ q * price == commission ->
      ~ Portfolio.cashBalance (processTrade newId portfolio trade)
        ≡ Fin (cash + (q * price - commission))).
Proof.
  intros Hside Hfind Hcash Hq Hprice Hcomm.
  destruct (processTrade_sell_existing newId portfolio trade position
              Hside Hfind) as [Hc Hr].
  rewrite Hc, Hr, Hcash, Hq, Hprice, Hcomm. cbn [JS.mul JS.sub JS.add].
  unfold equiv, num_equiv. cbn [JS.num_eq].
  split; [lra|]. split; [reflexivity|]. intros Hne H. apply Hne. lra.
Qed.

Lemma processTrade_sell_credits_twice_witness :
  Portfolio.cashBalance (processTrade "pos_2" applePortfolio sellFive)
  ≡ Fin 2198
  /\ ~ Portfolio.cashBalance (processTrade "pos_2" applePortfolio sellFive)
       ≡ Fin 1599.
Proof.
  destruct (processTrade_sell_credits_twice "pos_2" applePortfolio sellFive
              applePosition 1000 5 120 1
              eq_refl eq_refl eq_refl eq_refl eq_refl eq_refl)
    as (Hcash & _ & Hnot).
  split.
  - rewrite Hcash. reflexivity.
  - intros H. apply Hnot.
    + intro E. vm_compute in E. discriminate E.
    + rewrite H. reflexivity.
Defined.

(** *** Cancelling *)

Lemma orders_commit key order w :
  orders (commit key order w) = <[key := order]> (orders w).
Proof. reflexivity. Qed.

Lemma cancelOrder_completed w orderId order :
  orders w !! orderId = Some order ->
  isCompleted (Order.status order) = true ->
  cancelOrder w orderId = (w, false).
Proof. intros Ho Hc. unfold cancelOrder. now rewrite Ho, Hc. Qed.

Lemma cancelOrder_expired w orderId order :
  orders w !! orderId = Some order ->
  Order.status order = expired ->
  snd (cancelOrder w orderId) = true
  /\ Order.status <$> orders (fst (cancelOrder w orderId)) !! orderId
     = Some canceled.
Proof.
  intros Ho Hs. unfold cancelOrder. rewrite Ho, Hs. cbn [isCompleted].
  assert (E : match Order.exchangeOrderId order with
              | Some exchangeOrderId =>
                  if negb (emptyString exchangeOrderId)
                     && OrderStatus_eqb expired submitted
                  then exchangeCancelOrder w (Order.exchange order)
                         exchangeOrderId
                  else Ok true
              | None => Ok true
              end = Ok true).
  { destruct (Order.exchangeOrderId order); [|reflexivity].
    now rewrite andb_false_r. }
  rewrite E. cbn [fst snd]. split; [reflexivity|].
  cbn. rewrite lookup_insert_eq. reflexivity.
Qed.

(** C4: [cancelOrder] is a no-op returning [false] on a filled, canceled
    or rejected order, but on an expired order it returns [true] and
    turns the order into a canceled one: the guard lists three of the
    four terminal states. *)
Theorem cancelOrder_terminal w orderId order :
  orders w !! orderId = Some order ->
  (Order.status order = filled \/ Order.status order = canceled
   \/ Order.status order = rejected ->
   cancelOrder w orderId = (w, false))
  /\ (Order.status order = expired ->
      snd (cancelOrder w orderId) = true
      /\ Order.status <$> orders (fst (cancelOrder w orderId)) !! orderId
         = Some canceled).
Proof.
  intros Ho. split.
  - intros Hs. apply (cancelOrder_completed w orderId order Ho).
    destruct Hs as [-> | [-> | ->]]; reflexivity.
  - apply cancelOrder_expired. assumption.
Qed.

Lemma cancelOrder_terminal_witness :
  snd (cancelOrder expiredWorld "order_7") = true
  /\ Order.status <$> orders (fst (cancelOrder expiredWorld "order_7"))
       !! "order_7"%string = Some canceled.
Proof.
  apply (proj2 (cancelOrder_terminal expiredWorld "order_7"
                  (restingOrder expired) eq_refl)).
  reflexivity.
Defined.

(** *** The quantity invariant *)

Lemma createOrder_quantitiesAgree w rq validation (q : Q) :
  OrderRequest.quantity rq = Fin q ->
  quantitiesAgree (snd (createOrder w rq validation)).
Proof.
  intros Hq. unfold quantitiesAgree. cbn. rewrite Hq. cbn [JS.add].
  unfold equiv, num_equiv. cbn [JS.num_eq]. lra.
Qed.

Lemma applyModifications_quantitiesAgree m order (f q : Q) :
  Order.filledQuantity order = Fin f ->
  newQuantity m = Some (Fin q) ->
  quantitiesAgree (applyModifications m order).
Proof.
  intros Hf Hq. unfold quantitiesAgree, applyModifications. rewrite Hq.
  destruct (newPrice m), (newStopPrice m); cbn; rewrite Hf; cbn [JS.add JS.sub];
    unfold equiv, num_equiv; cbn [JS.num_eq]; lra.
Qed.

Lemma applyModifications_filledQuantity m order :
  Order.filledQuantity (applyModifications m order)
  = Order.filledQuantity order.
Proof.
  unfold applyModifications.
  destruct (newPrice m), (newQuantity m), (newStopPrice m); reflexivity.
Qed.

Lemma reload_filledQuantity order :
  Order.filledQuantity (mapDatabaseToOrder (orderToRow order))
  = JS.or_else (Some (Order.filledQuantity order)) (Fin 0).
Proof. reflexivity. Qed.

Lemma reload_remainingQuantity order :
  Order.remainingQuantity (mapDatabaseToOrder (orderToRow order))
  = JS.or_else (Some (Order.remainingQuantity order)) (Order.quantity order).
Proof. reflexivity. Qed.

Lemma reload_quantity order :
  Order.quantity (mapDatabaseToOrder (orderToRow order))
  = Order.quantity order.
Proof. reflexivity. Qed.

Lemma or_else_nonzero (q : Q) (d : num) :
  ~ q == 0 -> JS.or_else (Some (Fin q)) d = Fin q.
Proof. intros H. cbn. now rewrite (Qeq_bool_false q 0 H). Qed.

Lemma or_else_zero (d : num) : JS.or_else (Some (Fin 0)) d = d.
Proof. reflexivity. Qed.

Lemma recordFill_filledQuantity fill order :
  Order.filledQuantity (recordFill fill order)
  = (Order.filledQuantity order + Fill.quantity fill)%num.
Proof. reflexivity. Qed.

(** Orders with something left to fill survive the round trip through
    the store. *)
Lemma reload_quantitiesAgree order (f r : Q) :
  Order.filledQuantity order = Fin f ->
  Order.remainingQuantity order = Fin r -> ~ r == 0 ->
  quantitiesAgree order ->
  quantitiesAgree (mapDatabaseToOrder (orderToRow order)).
Proof.
  unfold quantitiesAgree. intros Hf Hr Hnz H.
  rewrite reload_filledQuantity, reload_remainingQuantity, reload_quantity.
  rewrite Hf, Hr, (or_else_nonzero r _ Hnz), or_else_fin.
  now rewrite Hf, Hr in H.
Qed.

(** C6: an order that was filled in full agrees with the invariant in
    memory, but not after its row has been saved and read back:
    [remaining_quantity || quantity] takes the stored zero for a missing
    value, so the reloaded order has remainingQuantity = quantity while
    filledQuantity = quantity. *)
Theorem reloaded_filled_order_breaks_invariant (order : Order.t) (q : Q) :
  Order.quantity order = Fin q -> ~ q == 0 ->
  Order.filledQuantity order = Fin q ->
  Order.remainingQuantity order = Fin 0 ->
  let reloaded := mapDatabaseToOrder (orderToRow order) in
  quantitiesAgree order
  /\ Order.filledQuantity reloaded = Fin q
  /\ Order.remainingQuantity reloaded = Fin q
  /\ Order.quantity reloaded = Fin q
  /\ ~ quantitiesAgree reloaded.
Proof.
  intros Hq Hnz Hf Hr reloaded. subst reloaded. unfold quantitiesAgree.
  rewrite reload_filledQuantity, reload_remainingQuantity, reload_quantity.
  rewrite Hq, Hf, Hr, or_else_zero, (or_else_nonzero q _ Hnz).
  cbn [JS.add]. unfold equiv, num_equiv. cbn [JS.num_eq].
  repeat split; try reflexivity; try lra.
Qed.

(** *** Execution *)

Arguments JS.add : simpl never.
Arguments JS.sub : simpl never.
Arguments JS.mul : simpl never.
Arguments JS.div : simpl never.
Arguments JS.max : simpl never.
Arguments JS.min : simpl never.
Arguments JS.eqb : simpl never.
Arguments JS.lt : simpl never.
Arguments calculateCommission : simpl never.
Arguments freshId : simpl never.
Arguments estimatedPriceOf : simpl never.

Section Execution.

Variable recalculatePortfolio : Portfolio.t -> Portfolio.t.
Variable loadPositions : Database -> string -> list Position.t.
Variable savePortfolio : Portfolio.t -> Database -> Database.
Variable saveTrade : Trade.t -> Database -> Database.

Hypothesis recalculate_cash :
  forall p, Portfolio.cashBalance (recalculatePortfolio p)
            = Portfolio.cashBalance p.

Abbreviation getPortfolio := (getPortfolio loadPositions).
Abbreviation updatePositions :=
  (updatePositions recalculatePortfolio loadPositions savePortfolio saveTrade).
Abbreviation processExecution :=
  (processExecution recalculatePortfolio loadPositions savePortfolio saveTrade).
Abbreviation validateOrder := (validateOrder loadPositions).
Abbreviation executeOrder :=
  (executeOrder recalculatePortfolio loadPositions savePortfolio saveTrade).

Lemma getPortfolio_found w portfolioId w1 portfolio :
  getPortfolio w portfolioId = (w1, Some portfolio) ->
  portfolios w1 !! portfolioId = Some portfolio
  /\ exchanges w1 = exchanges w /\ now w1 = now w /\ nextId w1 = nextId w
  /\ orders w1 = orders w /\ riskLimits w1 = riskLimits w.
Proof.
  unfold Services.getPortfolio.
  destruct (portfolios w !! portfolioId) as [p|] eqn:Hp.
  - intros H. inversion H; subst. tauto.
  - destruct (portfoliosTable (database w) !! portfolioId); [|discriminate].
    intros H. inversion H; subst. cbn. rewrite lookup_insert_eq. tauto.
Qed.

Lemma getPortfolio_cached w portfolioId portfolio :
  portfolios w !! portfolioId = Some portfolio ->
  getPortfolio w portfolioId = (w, Some portfolio).
Proof. intros H. unfold Services.getPortfolio. now rewrite H. Qed.

Lemma updatePositions_buy w portfolioId portfolio trade :
  portfolios w !! portfolioId = Some portfolio ->
  Trade.side trade = buy ->
  exists portfolio',
    portfolios (fst (updatePositions w portfolioId [trade])) !! portfolioId
    = Some portfolio'
    /\ Portfolio.cashBalance portfolio'
       = (Portfolio.cashBalance portfolio
          - (Trade.quantity trade * Trade.price trade
             + Trade.commission trade))%num
    /\ orders (fst (updatePositions w portfolioId [trade])) = orders w
    /\ now (fst (updatePositions w portfolioId [trade])) = now w.
Proof.
  intros Hp Hside. unfold Services.updatePositions.
  rewrite (getPortfolio_cached _ _ _ Hp). cbn [processTrades fold_left].
  eexists. cbn [fst]. split.
  - cbn. apply lookup_insert_eq.
  - split; [|split; reflexivity].
    rewrite recalculate_cash. now apply processTrade_buy_cash.
Qed.

Lemma positive_quantity (q : Q) :
  missingOrNonPositive (Some (Fin q)) = false -> 0 < q.
Proof.
  unfold missingOrNonPositive, JS.falsy, JS.truthy, JS.le, JS.lt, JS.eqb.
  rewrite negb_involutive. intros H.
  apply orb_false_elim in H as [H0 H1].
  apply orb_false_elim in H1 as [Hlt _].
  destruct (Qlt_le_dec 0 q) as [Hq|Hq]; [assumption|].
  destruct (Qeq_bool q 0) eqn:E; [discriminate|].
  apply Qeq_bool_neq in E.
  rewrite Qltb_true in Hlt; [discriminate|]. lra.
Qed.

Lemma app_nil_inv {A} (l1 l2 : list A) : l1 ++ l2 = [] -> l1 = [] /\ l2 = [].
Proof. destruct l1; [tauto|discriminate]. Qed.

Lemma length_zero_nil {A} (l : list A) : (length l =? 0)%nat = true -> l = [].
Proof. destruct l; [reflexivity|discriminate]. Qed.

(** What a successful validation tells. *)
Lemma validateOrder_valid w rq :
  OrderValidation.valid (snd (validateOrder w rq)) = true ->
  exists portfolio,
    getPortfolio w (OrderRequest.portfolioId rq)
    = (fst (validateOrder w rq), Some portfolio)
    /\ basicErrors rq = []
    /\ OrderValidation.estimatedCost (snd (validateOrder w rq))
       = (OrderRequest.quantity rq * estimatedPriceOf rq)%num
    /\ OrderValidation.estimatedCommission (snd (validateOrder w rq))
       = calculateCommission (OrderRequest.exchange rq)
           (OrderRequest.quantity rq * estimatedPriceOf rq)%num.
Proof.
  unfold Services.validateOrder.
  destruct (getPortfolio w (OrderRequest.portfolioId rq)) as [w1 [portfolio|]];
    cbn [snd fst OrderValidation.valid OrderValidation.estimatedCost
         OrderValidation.estimatedCommission]; [|discriminate].
  intros Hvalid. apply length_zero_nil in Hvalid.
  apply app_nil_inv in Hvalid as [Hbasic _].
  exists portfolio. repeat split. assumption.
Qed.

Lemma full_fill_remaining (q : Q) :
  (JS.max (Fin 0) (Fin q - (Fin 0 + Fin q)) =? Fin 0)%num = true.
Proof.
  fin_rw. apply eqb_fin_true. rewrite Q.max_l; lra.
Qed.

Lemma processExecution_full w order (q : Q) (price : num) portfolio :
  Order.quantity order = Fin q -> Order.filledQuantity order = Fin 0 ->
  Order.side order = buy ->
  portfolios w !! Order.portfolioId order = Some portfolio ->
  let fillCommission :=
    calculateCommission (Order.exchange order) (Fin q * price)%num in
  let totalFillValue := (Order.totalFillValue order + Fin q * price)%num in
  let result := processExecution w order (Fin q) price in
  let order' := snd (fst result) in
  let w' := fst (fst result) in
  Order.status order' = filled
  /\ Order.filledQuantity order' = (Fin 0 + Fin q)%num
  /\ Order.remainingQuantity order'
     = JS.max (Fin 0) (Fin q - (Fin 0 + Fin q))%num
  /\ Order.id order' = Order.id order
  /\ orders w' !! Order.id order = Some order'
  /\ exists portfolio',
       portfolios w' !! Order.portfolioId order = Some portfolio'
       /\ Portfolio.cashBalance portfolio'
          = (Portfolio.cashBalance portfolio
             - ((Fin 0 + Fin q) * (totalFillValue / (Fin 0 + Fin q))
                + (Order.commission order + fillCommission)))%num.
Proof.
  intros Hq Hf Hside Hp fillCommission totalFillValue result order' w'.
  subst result order' w'. unfold Services.processExecution.
  set (fill := newFill w order (Fin q) price).
  assert (Hrem : Order.remainingQuantity (recordFill fill order)
                 = JS.max (Fin 0) (Fin q - (Fin 0 + Fin q))%num).
  { cbn [recordFill Order.remainingQuantity Order.set_avgFillPrice
         Order.set_totalFillValue Order.set_commission
         Order.set_remainingQuantity]. now rewrite Hq, Hf. }
  rewrite Hrem, full_fill_remaining.
  set (order1 := Order.set_filledAt _ _).
  set (w1 := set_pendingOrders _ _).
  assert (Hp1 : portfolios (tick w1) !! Order.portfolioId order1
                = Some portfolio) by exact Hp.
  destruct (updatePositions_buy (tick w1) (Order.portfolioId order1)
              portfolio (tradeOf w1 order1) Hp1 Hside)
    as (portfolio' & Hp' & Hcash & Horders & Hnow).
  cbn [fst snd]. repeat split.
  - cbn. now rewrite Hf.
  - exact Hrem.
  - cbn. apply lookup_insert_eq.
  - exists portfolio'. split; [exact Hp'|]. rewrite Hcash.
    cbn [tradeOf Trade.quantity Trade.price Trade.commission].
    subst order1. cbn. now rewrite Hf.
Qed.

#[export] Instance calculateCommission_proper exchange :
  Proper ((≡) ==> (≡)) (calculateCommission exchange).
Proof. intros a b Hab. unfold calculateCommission. now rewrite Hab. Qed.

Lemma basicErrors_nil rq :
  basicErrors rq = [] ->
  emptyString (OrderRequest.symbol rq) = false
  /\ missingOrNonPositive (Some (OrderRequest.quantity rq)) = false.
Proof.
  unfold basicErrors. intros H.
  apply app_nil_inv in H as [H1 H]. apply app_nil_inv in H as [H2 _].
  split.
  - destruct (emptyString _); [discriminate|reflexivity].
  - destruct (missingOrNonPositive _); [discriminate|reflexivity].
Qed.

Lemma getPortfolio_keeps w portfolioId key p :
  portfolios w !! key = Some p ->
  portfolios (fst (getPortfolio w portfolioId)) !! key = Some p.
Proof.
  intros Hp. unfold Services.getPortfolio.
  destruct (portfolios w !! portfolioId) as [cached|] eqn:Hc; [exact Hp|].
  destruct (portfoliosTable (database w) !! portfolioId); [|exact Hp].
  cbn. rewrite lookup_insert_ne; [exact Hp|]. congruence.
Qed.

Lemma validateOrder_world w rq :
  fst (validateOrder w rq)
  = fst (getPortfolio w (OrderRequest.portfolioId rq)).
Proof.
  unfold Services.validateOrder.
  now destruct (getPortfolio w (OrderRequest.portfolioId rq)) as [w1 [p|]].
Qed.

(** An order that is not a market order is never filled by
    [executeOrder]: it starts no child and leaves every cached portfolio
    as it was. *)
Lemma executeOrder_resting w rq :
  isMarket (OrderRequest.type rq) = false ->
  snd (executeOrder w rq) = []
  /\ forall key p,
       portfolios w !! key = Some p ->
       portfolios (fst (fst (executeOrder w rq))) !! key = Some p.
Proof.
  intros Hty. unfold Services.executeOrder.
  pose proof (validateOrder_world w rq) as Hw.
  destruct (validateOrder w rq) as [w1 validation]. cbn [fst] in Hw.
  assert (Hkeep : forall key p,
            portfolios w !! key = Some p -> portfolios w1 !! key = Some p).
  { intros key p Hp. rewrite Hw. now apply getPortfolio_keeps. }
  destruct (negb (OrderValidation.valid validation)); [split; [reflexivity|exact Hkeep]|].
  unfold createOrder. rewrite Hty.
  destruct (placeOrder _ _ _) as [[w3 exchangeOrderId]|message] eqn:Hplace.
  - unfold placeOrder in Hplace.
    destruct (bool_decide _); [|discriminate].
    destruct (exchangeValidateOrder _); [|discriminate].
    inversion Hplace; subst. split; [reflexivity|]. exact Hkeep.
  - split; [reflexivity|]. exact Hkeep.
Qed.

Lemma childRequests_resting order :
  Forall (fun child => isMarket (OrderRequest.type child) = false)
         (childRequests order).
Proof.
  unfold childRequests.
  destruct (falsy (Order.stopLoss order)), (falsy (Order.takeProfit order));
    repeat constructor.
Qed.

Lemma processExecution_children w order quantity price :
  Forall (fun child => isMarket (OrderRequest.type child) = false)
         (snd (processExecution w order quantity price)).
Proof.
  unfold Services.processExecution.
  destruct (_ =? _)%num; cbn [snd]; [apply childRequests_resting|constructor].
Qed.

Lemma executeOrder_children w rq :
  Forall (fun child => isMarket (OrderRequest.type child) = false)
         (snd (executeOrder w rq)).
Proof.
  unfold Services.executeOrder.
  destruct (validateOrder w rq) as [w1 validation].
  destruct (negb _); [constructor|].
  destruct (createOrder w1 rq validation) as [w2 order].
  destruct (placeOrder _ _ _) as [[w3 exchangeOrderId]|message];
    [|constructor].
  destruct (isMarket (OrderRequest.type rq)); [|constructor].
  pose proof (processExecution_children w3
    (Order.set_updatedAt (now w3)
       (Order.set_status submitted
          (Order.set_exchangeOrderId (Some exchangeOrderId) order)))
    (OrderRequest.quantity rq)
    (OrderValidation.estimatedCost validation / OrderRequest.quantity rq)%num)
    as H.
  destruct (processExecution _ _ _ _) as [[w4 order'] children]. exact H.
Qed.

Abbreviation executeWithChildren :=
  (executeWithChildren recalculatePortfolio loadPositions savePortfolio
     saveTrade).

(** Running the children a request started changes no cached
    portfolio. *)
Lemma executeWithChildren_portfolios w rq key p :
  portfolios (fst (fst (executeOrder w rq))) !! key = Some p ->
  portfolios (fst (executeWithChildren 1 w rq)) !! key = Some p.
Proof.
  intros Hp. cbn [Services.executeWithChildren].
  pose proof (executeOrder_children w rq) as Hc.
  destruct (executeOrder w rq) as [[w1 report] children].
  cbn [fst snd] in *. revert w1 Hp.
  induction Hc as [|child rest Hchild _ IH]; intros w1 Hp; [exact Hp|].
  cbn [fold_left]. apply IH.
  destruct (executeOrder w1 child) as [[w2 report2] grandchildren] eqn:E.
  cbn [fst]. pose proof (proj2 (executeOrder_resting w1 child Hchild) key p Hp)
    as H. now rewrite E in H.
Qed.
(** A market buy that passes validation and reaches an initialised
    exchange is filled in full and paid for once. *)
Lemma executeOrder_market_buy_filled w rq (q p : Q) :
  OrderRequest.type rq = market -> OrderRequest.side rq = buy ->
  OrderRequest.quantity rq = Fin q -> estimatedPriceOf rq = Fin p ->
  OrderValidation.valid (snd (validateOrder w rq)) = true ->
  OrderRequest.exchange rq ∈ exchanges w ->
  let result := executeOrder w rq in
  let w' := fst (fst result) in
  let report := snd (fst result) in
  exists order portfolio portfolio',
    snd (getPortfolio w (OrderRequest.portfolioId rq)) = Some portfolio
    /\ orders w' !! ExecutionReport.orderId report = Some order
    /\ Order.status order = filled
    /\ Order.filledQuantity order ≡ Fin q
    /\ Order.remainingQuantity order ≡ Fin 0
    /\ ExecutionReport.status report = success
    /\ portfolios w' !! OrderRequest.portfolioId rq = Some portfolio'
    /\ Portfolio.cashBalance portfolio'
       ≡ (Portfolio.cashBalance portfolio
          - (Fin (q * p)
             + calculateCommission (OrderRequest.exchange rq)
                 (Fin (q * p))))%num
    /\ portfolios (fst (executeWithChildren 1 w rq))
         !! OrderRequest.portfolioId rq = Some portfolio'.
Proof.
  intros Htype Hside Hq Hp Hvalid Hex result w' report.
  pose proof (executeWithChildren_portfolios w rq
                (OrderRequest.portfolioId rq)) as Hchildren.
  revert Hchildren.
  destruct (validateOrder_valid w rq Hvalid)
    as (portfolio & Hget & Hbasic & Hcost & _).
  destruct (basicErrors_nil rq Hbasic) as [Hsym Hqty].
  rewrite Hq in Hqty. pose proof (positive_quantity q Hqty) as Hqpos.
  rewrite Hq, Hp in Hcost.
  subst result w' report. generalize (executeWithChildren 1 w rq).
  unfold Services.executeOrder.
  destruct (validateOrder w rq) as [w1 validation]. cbn [fst snd] in *.
  rewrite Hvalid, Hcost. cbn [negb].
  destruct (getPortfolio_found w _ w1 portfolio Hget)
    as (Hpf & Hexch & _).
  unfold createOrder.
  set (order0 := Order.mk _ _ _ _ _ _ _ _ _ _ _ _ _ _ _ _ _ _ _ _ _ _ _ _ _).
  set (w2 := set_pendingOrders _ _).
  unfold placeOrder.
  rewrite bool_decide_eq_true_2 by (cbn; rewrite Hexch; exact Hex).
  unfold exchangeValidateOrder.
  cbn [ExchangeOrderRequest.symbol ExchangeOrderRequest.amount
       ExchangeOrderRequest.type].
  rewrite Hsym, Hq, Hqty, Htype. cbn [isMarket].
  set (order1 := Order.set_updatedAt _ _).
  destruct (processExecution_full (tick w2) order1 q
              (Fin q * Fin p / Fin q)%num portfolio)
    as (Hstatus & Hfilled & Hrem & Hid & Horder & portfolio' & Hp' & Hcash).
  { cbn. exact Hq. }
  { reflexivity. }
  { exact Hside. }
  { exact Hpf. }
  set (result := processExecution _ _ _ _) in *.
  destruct result as [[w3 order2] children]. cbn [fst snd] in *.
  intros withChildren Hchildren.
  assert (Hlast : portfolios (fst withChildren) !! OrderRequest.portfolioId rq
                  = Some portfolio') by (apply Hchildren; exact Hp').
  exists order2, portfolio, portfolio'.
  split; [now rewrite Hget|].
  split.
  { cbn [fst snd reportOf ExecutionReport.orderId]. rewrite Hid.
    cbn. exact Horder. }
  split; [exact Hstatus|].
  split.
  { rewrite Hfilled. apply add_zero_l. }
  split.
  { rewrite Hrem. fin_rw. apply fin_equiv. rewrite Q.max_l; lra. }
  split.
  { cbn [fst snd reportOf ExecutionReport.status]. now rewrite Hstatus. }
  split; [exact Hp'|]. split; [|exact Hlast].
  rewrite Hcash. subst order1 order0. cbn [Order.totalFillValue Order.commission
    Order.set_updatedAt Order.set_status Order.set_exchangeOrderId
    Order.exchange].
  assert (Hqnz : ~ q == 0) by lra.
  assert (Hprice : (Fin q * Fin p / Fin q)%num ≡ Fin p).
  { fin_rw. rewrite div_fin by assumption.
    apply fin_equiv. field. assumption. }
  assert (Hvalue : (Fin q * (Fin q * Fin p / Fin q))%num ≡ Fin (q * p)).
  { rewrite Hprice. reflexivity. }
  rewrite Hvalue. rewrite !add_zero_l.
  assert (Hnotional : (Fin q * (Fin (q * p) / Fin q))%num ≡ Fin (q * p)).
  { rewrite div_fin by assumption. fin_rw.
    apply fin_equiv. field. assumption. }
  rewrite Hnotional. reflexivity.
Qed.

(** A request that passes validation but names an exchange the adapter
    has not initialised ends rejected, with nothing filled and the
    portfolio as validation found it. *)
Lemma executeOrder_rejected w rq :
  OrderValidation.valid (snd (validateOrder w rq)) = true ->
  OrderRequest.exchange rq ∉ exchanges w ->
  let result := executeOrder w rq in
  let w' := fst (fst result) in
  let report := snd (fst result) in
  exists order portfolio,
    snd (getPortfolio w (OrderRequest.portfolioId rq)) = Some portfolio
    /\ orders w' !! ExecutionReport.orderId report = Some order
    /\ Order.status order = rejected
    /\ Order.filledQuantity order = Fin 0
    /\ ExecutionReport.status report = failed
    /\ portfolios w' !! OrderRequest.portfolioId rq = Some portfolio
    /\ snd result = [].
Proof.
  intros Hvalid Hex result w' report.
  destruct (validateOrder_valid w rq Hvalid) as (portfolio & Hget & _).
  subst result w' report. unfold Services.executeOrder.
  destruct (validateOrder w rq) as [w1 validation]. cbn [fst snd] in *.
  rewrite Hvalid. cbn [negb].
  destruct (getPortfolio_found w _ w1 portfolio Hget) as (Hpf & Hexch & _).
  unfold createOrder, placeOrder.
  rewrite bool_decide_eq_false_2 by (cbn; rewrite Hexch; exact Hex).
  cbn [fst snd]. eexists. exists portfolio.
  split; [now rewrite Hget|].
  split; [cbn; apply lookup_insert_eq|].
  repeat split. exact Hpf.
Qed.


End Execution.



Lemma getOrder_after_reload :
  exists order,
    snd (getOrder (newSession executedWorld) executedOrderId) = Some order
    /\ Order.status order = filled
    /\ Order.quantity order = Fin 2
    /\ Order.filledQuantity order = Fin 2
    /\ Order.remainingQuantity order = Fin 2.
Proof. vm_compute. eexists. repeat split. Qed.

Lemma executedWorld_order :
  orders executedWorld !! executedOrderId = Some filledOrder
  /\ ordersTable (database executedWorld) !! executedOrderId
     = Some (orderToRow filledOrder).
Proof. vm_compute. split; reflexivity. Qed.

Lemma reloaded_filled_order_breaks_invariant_witness :
  quantitiesAgree filledOrder
  /\ ~ quantitiesAgree (mapDatabaseToOrder (orderToRow filledOrder)).
Proof.
  destruct (reloaded_filled_order_breaks_invariant filledOrder 2)
    as (Hbefore & _ & _ & _ & Hafter);
    [reflexivity | | reflexivity | reflexivity | split; assumption].
  intro H. vm_compute in H. discriminate H.
Defined.

(** Prices, commissions and market hours on a few inputs. *)
Example getEstimatedPrice_example :
  getEstimatedPrice "AAPL" buy ≡ Fin 150.15
  /\ getEstimatedPrice "UNKNOWN" sell ≡ Fin 99.9
  /\ getEstimatedPrice "constructor" buy = NaN.
Proof. repeat split; vm_compute; reflexivity. Qed.

Example calculateCommission_example :
  calculateCommission "Binance" (Fin 200) ≡ Fin 0.2
  /\ calculateCommission "nowhere" (Fin 1) ≡ Fin 0.01
  /\ calculateCommission "toString" (Fin 200) ≡ Fin 0.2
  /\ calculateCommission "constructor" (Fin 200) = NaN.
Proof. repeat split; vm_compute; reflexivity. Qed.

Example isMarketOpen_example :
  isMarketOpen binanceWorld "BTC/USD" = true
  /\ isMarketOpen binanceWorld "EUR/USD" = true
  /\ isMarketOpen binanceWorld "AAPL" = false.
Proof. repeat split; vm_compute; reflexivity. Qed.

End ServicesSpec.

(** ** Further facts about numbers *)

Ltac fin_all := repeat (progress fin_rw).

Module MoreNumFacts.

Local Open Scope Q_scope.

(** A minimum with a finite cap never exceeds the cap. *)
Lemma min_cap (c : Q) (x : num) : (JS.min (Fin c) x >? Fin c)%num = false.
Proof.
  destruct x as [y| | |]; unfold JS.gt; try reflexivity.
  - rewrite min_fin. apply lt_fin_false. apply Q.le_min_l.
  - unfold JS.min, JS.lt. apply Qltb_false. lra.
Qed.

End MoreNumFacts.

(** ** Risk engine: monitoring, alerts and exit levels *)

Module RiskMonitorSpec.

Import Risk RiskMonitor RiskMonitorCases MoreNumFacts.
Local Open Scope Q_scope.

(** X1: for a finite entry price, stop-loss percentage and
    reward-to-risk ratio, none of them negative, the levels of
    [calculateStopLossLevels] bracket the entry: for a buy the stop-loss
    is not above the entry and the take-profit not below it, for a sell
    the reverse.  The volatility argument has no effect on the levels. *)
Theorem stopLossLevels_bracket_entry (limits : RiskLimits) (side : Side)
    (e s r : Q) (volatility : num) :
  stopLossPercent limits = Fin s -> 0 <= e -> 0 <= s -> 0 <= r ->
  let levels :=
    calculateStopLossLevels limits (Fin e) side volatility (Some (Fin r)) in
  match side with
  | buy =>
      (Fin e <? StopLevels.stopLoss levels)%num = false
      /\ (StopLevels.takeProfit levels <? Fin e)%num = false
  | sell =>
      (StopLevels.stopLoss levels <? Fin e)%num = false
      /\ (Fin e <? StopLevels.takeProfit levels)%num = false
  end
  /\ (forall volatility',
        calculateStopLossLevels limits (Fin e) side volatility' (Some (Fin r))
        = levels).
Proof.
  intros Hs He Hs0 Hr levels. split; [|reflexivity].
  subst levels. unfold calculateStopLossLevels. rewrite Hs.
  assert (H1 : 0 <= e * (s / 100)).
  { apply Qmult_le_0_compat; [assumption|]. apply Qle_shift_div_l; lra. }
  assert (H2 : 0 <= e * (s * r / 100)).
  { apply Qmult_le_0_compat; [assumption|]. apply Qle_shift_div_l; [lra|].
    pose proof (Qmult_le_0_compat s r Hs0 Hr). lra. }
  destruct side; cbn [default StopLevels.stopLoss StopLevels.takeProfit];
    fin_all; rewrite !div_fin by lra; fin_all;
    split; apply lt_fin_false; lra.
Qed.

Lemma stopLossLevels_bracket_entry_witness :
  (Fin 100
   <? StopLevels.stopLoss
        (calculateStopLossLevels defaultLimits (Fin 100) buy (Fin 0.5)
           (Some (Fin 2))))%num = false
  /\ (StopLevels.takeProfit
        (calculateStopLossLevels defaultLimits (Fin 100) buy (Fin 0.5)
           (Some (Fin 2)))
      <? Fin 100)%num = false.
Proof.
  apply (stopLossLevels_bracket_entry defaultLimits buy 100 2 2 (Fin 0.5));
    [reflexivity | lra | lra | lra].
Defined.

Lemma min_cap_fin (c x : Q) :
  0 <= c -> 0 <= x ->
  exists q, JS.min (Fin c) (Fin x) = Fin q /\ 0 <= q <= c.
Proof.
  intros Hc Hx. exists (Qmin c x). split; [reflexivity|].
  split; [apply Q.min_glb; assumption | apply Q.le_min_l].
Qed.

(** X2: [calculateRiskScore] never returns a number above 100, and for
    finite non-negative inputs and positive limits it returns a finite
    score between 0 and 100. *)
Theorem riskScore_capped (limits : RiskLimits)
    (leverage marginUtilization drawdown avgCorrelation : num) :
  (calculateRiskScore limits leverage marginUtilization drawdown
     avgCorrelation >? Fin 100)%num = false
  /\ (forall lev util dd corr maxLev maxDd : Q,
        leverage = Fin lev -> marginUtilization = Fin util ->
        drawdown = Fin dd -> avgCorrelation = Fin corr ->
        maxLeverage limits = Fin maxLev -> maxDrawdown limits = Fin maxDd ->
        0 <= lev -> 0 <= util -> 0 <= dd -> 0 <= corr ->
        0 < maxLev -> 0 < maxDd ->
        exists score : Q,
          calculateRiskScore limits leverage marginUtilization drawdown
            avgCorrelation = Fin score
          /\ 0 <= score <= 100).
Proof.
  split; [apply min_cap|].
  intros lev util dd corr maxLev maxDd -> -> -> -> Hl Hd
    Hlev Hutil Hdd Hcorr HmaxLev HmaxDd.
  unfold calculateRiskScore. rewrite Hl, Hd.
  rewrite !div_fin by lra. fin_all.
  eexists. split; [reflexivity|].
  assert (H1 : 0 <= lev / maxLev) by (apply Qle_shift_div_l; lra).
  assert (H2 : 0 <= dd / maxDd) by (apply Qle_shift_div_l; lra).
  assert (H3 : 0 <= util / 100) by (apply Qle_shift_div_l; lra).
  pose proof (Q.le_min_l 30 (lev / maxLev * 30)).
  pose proof (Q.le_min_l 25 (util / 100 * 25)).
  pose proof (Q.le_min_l 25 (dd / maxDd * 25)).
  pose proof (Q.le_min_l 20 (corr * 20)).
  assert (0 <= Qmin 30 (lev / maxLev * 30)) by (apply Q.min_glb; nra).
  assert (0 <= Qmin 25 (util / 100 * 25)) by (apply Q.min_glb; nra).
  assert (0 <= Qmin 25 (dd / maxDd * 25)) by (apply Q.min_glb; nra).
  assert (0 <= Qmin 20 (corr * 20)) by (apply Q.min_glb; nra).
  split.
  - apply Q.min_glb; lra.
  - apply Q.le_min_l.
Qed.

Lemma riskScore_capped_witness :
  exists score : Q,
    calculateRiskScore defaultLimits (Fin 6) (Fin 50) (Fin 10) (Fin 0.5)
    = Fin score
    /\ 0 <= score <= 100.
Proof.
  destruct (riskScore_capped defaultLimits (Fin 6) (Fin 50) (Fin 10)
              (Fin 0.5)) as [_ H].
  apply (H 6 50 10 0.5 3 20); try reflexivity; lra.
Defined.

Lemma add_nan_r (x : num) : (x + NaN)%num = NaN.
Proof. destruct x; reflexivity. Qed.

Lemma riskScore_of_nan limits a b c : calculateRiskScore limits a b c NaN = NaN.
Proof.
  unfold calculateRiskScore.
  change (NaN * Fin 20)%num with NaN.
  change (JS.min (Fin 20) NaN) with NaN.
  rewrite add_nan_r. reflexivity.
Qed.

Lemma correlation_keys (draws : nat -> Q) (key : string)
    (entries : list (nat * Position)) (table : gmap string num) :
  key <> "__proto__" ->
  is_Some (fold_left
             (fun correlations '(i, position) =>
                assign (symbol position) (Fin (draws i * 0.8)) correlations)
             entries table !! key)
  <-> is_Some (table !! key) \/ In key (map (fun e => symbol (snd e)) entries).
Proof.
  intros Hkey. revert table.
  induction entries as [|[i position] entries IH]; intros table.
  - cbn. tauto.
  - cbn [fold_left map In snd]. rewrite IH. unfold assign.
    destruct (String.eqb_spec (symbol position) "__proto__") as [E|E].
    + split; [tauto|]. intros [H|[H|H]]; try tauto. congruence.
    + destruct (decide (symbol position = key)) as [<-|Hne].
      * rewrite lookup_insert_eq. split; [tauto|]. intros _. left. eauto.
      * rewrite lookup_insert_ne by assumption. tauto.
Qed.

Lemma correlation_toString (draws : nat -> Q) (portfolio : Portfolio) :
  is_Some (calculatePortfolioCorrelation draws portfolio !! "toString")
  <-> In "toString" (map symbol (positions portfolio)).
Proof.
  unfold calculatePortfolioCorrelation.
  rewrite correlation_keys by discriminate.
  rewrite lookup_empty.
  assert (E : forall (l : list Position) (n : nat),
             map (fun e : nat * Position => symbol (snd e))
                 (imap (fun i position => (n + i, position)%nat) l)
             = map symbol l).
  { induction l as [|p l IH]; intros n; [reflexivity|].
    cbn. f_equal. rewrite <- (IH (S n)). f_equal.
    apply imap_ext. intros. cbn. f_equal. lia. }
  rewrite (E _ 0%nat). split; [intros [[? H]|H]; [discriminate|exact H]|tauto].
Qed.

(** X3: [monitorRisk] hands the correlation table, an object, to
    [calculateRiskScore] where the average correlation is expected.  The
    call raises a TypeError exactly when a position of the portfolio has
    the symbol [toString]; in every other case it returns metrics whose
    riskScore is NaN. *)
Theorem monitorRisk_score_is_not_a_number (sqrt : num -> num)
    (random : nat -> Q) (now : Z) (svc : Service) (portfolio : Portfolio)
    (account : Account) :
  match monitorRisk sqrt random now svc portfolio account with
  | Some (_, metrics) =>
      Metrics.riskScore metrics = NaN
      /\ ~ In "toString" (map symbol (positions portfolio))
  | None => In "toString" (map symbol (positions portfolio))
  end.
Proof.
  unfold monitorRisk, calculateRiskMetrics.
  pose proof (correlation_toString (after 201 random) portfolio) as Hkeys.
  unfold objectAsNumber.
  destruct (calculatePortfolioCorrelation _ _ !! "toString") as [v|].
  - cbn. apply Hkeys. eauto.
  - cbn. split; [apply riskScore_of_nan|].
    intros H. apply Hkeys in H. destruct H. discriminate.
Qed.

Lemma monitorRisk_returns (sqrt : num -> num) (random : nat -> Q) (now : Z)
    (svc : Service) (portfolio : Portfolio) (account : Account) :
  ~ In "toString" (map symbol (positions portfolio)) ->
  exists (svc' : Service) (metrics : Metrics.t),
    monitorRisk sqrt random now svc portfolio account = Some (svc', metrics).
Proof.
  intros Hkeys. unfold monitorRisk, calculateRiskMetrics, objectAsNumber.
  destruct (calculatePortfolioCorrelation _ _ !! "toString") as [v|] eqn:E.
  - exfalso. apply Hkeys.
    apply (correlation_toString (after 201 random)). rewrite E. eauto.
  - cbn. eauto.
Qed.

(** X4: the alerts inside the metrics that [monitorRisk] returns are
    those the service held before the call, not the ones the call
    generates; the alerts stored by the call do not depend on the earlier
    ones, which are discarded. *)
Theorem monitorRisk_reports_previous_alerts (sqrt : num -> num)
    (random : nat -> Q) (now : Z) (svc svc' : Service)
    (portfolio : Portfolio) (account : Account) (metrics : Metrics.t) :
  monitorRisk sqrt random now svc portfolio account = Some (svc', metrics) ->
  Metrics.alerts metrics = getRiskAlerts svc
  /\ (forall previous : list Alert.t,
        option_map (fun result => getRiskAlerts (fst result))
          (monitorRisk sqrt random now (setAlerts previous svc) portfolio
             account)
        = Some (getRiskAlerts svc')).
Proof.
  unfold monitorRisk, calculateRiskMetrics. intros H.
  destruct (objectAsNumber _) as [avgCorrelation|] eqn:Hobject;
    [|discriminate].
  cbv [mbind option_bind] in H. apply (inj Some), pair_equal_spec in H.
  destruct H as [<- <-].
  split; [reflexivity|].
  intros previous. cbv [mbind option_bind option_map].
  unfold generateRiskAlerts, getRiskAlerts, setAlerts, leverageAlert,
    marginAlert, drawdownAlert.
  cbn [fst alerts riskLimits Metrics.leverageRatio Metrics.marginUtilization
       Metrics.maxDrawdown].
  reflexivity.
Qed.

Lemma monitorRisk_reports_previous_alerts_witness :
  exists (svc' : Service) (metrics : Metrics.t),
    monitorRisk (fun x => x) (fun _ => 1 # 2) 0 watchedService
      RiskCases.leveragedPortfolio RiskCases.account10000
    = Some (svc', metrics)
    /\ Metrics.alerts metrics = getRiskAlerts watchedService.
Proof.
  destruct (monitorRisk_returns (fun x => x) (fun _ => 1 # 2) 0%Z
              watchedService RiskCases.leveragedPortfolio
              RiskCases.account10000) as [svc' [metrics E]].
  { cbn. intuition discriminate. }
  exists svc', metrics. split; [exact E|].
  apply (monitorRisk_reports_previous_alerts (fun x => x) (fun _ => 1 # 2) 0
           watchedService svc' RiskCases.leveragedPortfolio
           RiskCases.account10000 metrics E).
Defined.

Ltac graded_alert :=
  match goal with
  | |- context [graded ?c] =>
      let E := fresh "E" in
      destruct c eqn:E; cbn [graded];
      (constructor; [|constructor]);
      eexists; eexists; cbn;
      (split; [reflexivity|]); (split; [reflexivity|]);
      rewrite E; repeat split; intros; congruence
  end.

(** X5: every alert that [generateRiskAlerts] stores carries its value
    and its threshold, is critical exactly when the value exceeds the
    threshold, and is of high level when critical and of medium level when
    a warning. *)
Theorem generated_alerts_are_graded (now : Z) (svc : Service)
    (metrics : Metrics.t) (portfolio : Portfolio) (account : Account) :
  Forall wellGraded
    (getRiskAlerts (generateRiskAlerts now svc metrics portfolio account)).
Proof.
  unfold getRiskAlerts, generateRiskAlerts. cbn [alerts setAlerts].
  repeat apply Forall_app_2.
  - unfold leverageAlert. destruct (_ >? _ * _)%num; [|constructor].
    graded_alert.
  - unfold marginAlert. destruct (_ >? Fin 80)%num; [|constructor].
    graded_alert.
  - unfold drawdownAlert. destruct (_ >? _ * _)%num; [|constructor].
    graded_alert.
  - apply Forall_flat_map, Forall_forall. intros position _.
    unfold positionAlert. destruct (_ >? _ * _)%num; [|constructor].
    graded_alert.
Qed.

Lemma zero_risk_percent (balance : num) :
  exists z : Q,
    (if (balance >? Fin 0)%num then (Fin 0 / balance * Fin 100)%num
     else Fin 0) = Fin z
    /\ z == 0.
Proof.
  destruct balance as [b| | |]; unfold JS.gt, JS.lt.
  - destruct (JS.Qltb 0 b) eqn:E.
    + apply Qltb_iff in E. rewrite div_fin by lra. fin_all.
      eexists. split; [reflexivity | field; lra].
    + exists 0. split; reflexivity.
  - exists (0 * 100). split; reflexivity.
  - exists 0. split; reflexivity.
  - exists 0. split; reflexivity.
Qed.

Lemma zero_not_above (z : Q) (limit : num) :
  z == 0 -> (limit <? Fin 0)%num = false ->
  (Fin z >? limit * Fin 2)%num = false.
Proof.
  intros Hz Hl. unfold JS.gt. destruct limit as [m| | |]; try reflexivity.
  - fin_all. apply lt_fin_false.
    unfold JS.lt in Hl.
    destruct (Qlt_le_dec m 0) as [H|H]; [|lra].
    apply Qltb_true in H. congruence.
  - discriminate.
Qed.

(** X6: for a position without a stop-loss (absent, zero or NaN) and a
    risk-per-trade limit that is not negative, the risk amount is 0, so
    [shouldClosePosition] never answers with the position-risk reason: it
    recommends closing exactly when the margin level is below the minimum
    or the unrealized loss exceeds the daily limit. *)
Theorem shouldClosePosition_without_stop_loss (limits : RiskLimits)
    (position : Position) (portfolio : Portfolio) (account : Account) :
  JS.falsy (stopLoss position) = true ->
  (maxRiskPerTrade limits <? Fin 0)%num = false ->
  let closure := shouldClosePosition limits position portfolio account in
  PositionRisk.riskAmount (calculatePositionRisk position account) = Fin 0
  /\ (forall riskPercent,
        Closure.reason closure <> Some (PositionRiskExceeded riskPercent))
  /\ Closure.shouldClose closure
     = ((marginLevel account <? minimumMarginLevel limits)%num
        || (PositionRisk.unrealizedPnLPercent
              (calculatePositionRisk position account)
            <? JS.neg (maxDailyLoss limits))%num).
Proof.
  intros Hstop Hlimit closure.
  assert (Hrisk : PositionRisk.riskAmount
                    (calculatePositionRisk position account) = Fin 0).
  { unfold calculatePositionRisk. cbn [PositionRisk.riskAmount].
    destruct (stopLoss position) as [v|]; [|reflexivity].
    cbn [JS.falsy] in Hstop. apply negb_true_iff in Hstop.
    now rewrite Hstop. }
  split; [exact Hrisk|].
  subst closure. unfold shouldClosePosition.
  assert (Hpercent : (PositionRisk.riskPercent
                        (calculatePositionRisk position account)
                      >? maxRiskPerTrade limits * Fin 2)%num = false).
  { unfold calculatePositionRisk in *.
    cbn [PositionRisk.riskPercent PositionRisk.riskAmount] in *.
    rewrite Hrisk.
    destruct (zero_risk_percent (balance account)) as [z [-> Hz]].
    now apply zero_not_above. }
  rewrite Hpercent.
  destruct (marginLevel account <? minimumMarginLevel limits)%num;
    [split; [discriminate | reflexivity]|].
  destruct (_ <? JS.neg _)%num; split; try discriminate; reflexivity.
Qed.

Lemma shouldClosePosition_without_stop_loss_witness :
  PositionRisk.riskAmount
    (calculatePositionRisk unprotectedPosition RiskCases.account10000) = Fin 0.
Proof.
  apply (shouldClosePosition_without_stop_loss defaultLimits
           unprotectedPosition RiskCases.leveragedPortfolio
           RiskCases.account10000); reflexivity.
Defined.

End RiskMonitorSpec.

(** ** Strategy engine: registry, consolidation and history *)

Module StrategyFacts.

Import Strategy StrategyCases StrategyHistory StrategyMoreCases MoreNumFacts.
Local Open Scope Q_scope.

Lemma filter_active_subset (e : Engine) (n strategyName : string) :
  In strategyName
     (List.filter (fun m => negb (String.eqb m n)) (activeStrategies e)) ->
  In strategyName (activeStrategies e) /\ strategyName <> n.
Proof.
  intros H. apply filter_In in H. destruct H as [H1 H2]. split; [exact H1|].
  intros ->. rewrite String.eqb_refl in H2. discriminate.
Qed.

Lemma recordSignals_registry (e : Engine) (signals : list Signal.t) :
  strategies (recordSignals e signals) = strategies e
  /\ activeStrategies (recordSignals e signals) = activeStrategies e.
Proof.
  unfold recordSignals. revert e.
  induction signals as [|s signals IH]; intros e; [now split|].
  cbn [fold_left]. destruct (IH
    {| strategies := strategies e; activeStrategies := activeStrategies e;
       signalHistory := signalHistory e ++ [s]; subscribers := subscribers e;
       trace := trace e ++ notifySubscribers (subscribers e) s |}) as [H1 H2].
  now rewrite H1, H2.
Qed.

Lemma runStrategy_registry (e e' : Engine) (n : string) md signals :
  runStrategy e n md = Ok (e', signals) ->
  strategies e' = strategies e /\ activeStrategies e' = activeStrategies e.
Proof.
  unfold runStrategy. destruct (strategies e !! n); [|discriminate].
  destruct (negb (isActive e n)).
  - intros [= <- _]. now split.
  - destruct (execute t md).
    + intros [= <- _]. apply recordSignals_registry.
    + intros [= <- _]. now split.
Qed.

Lemma runStrategy_registered (e : Engine) (n : string) md :
  is_Some (strategies e !! n) ->
  exists e' signals, runStrategy e n md = Ok (e', signals).
Proof.
  intros [s Hs]. unfold runStrategy. rewrite Hs.
  destruct (negb (isActive e n)); [eauto|].
  destruct (execute s md); eauto.
Qed.

Lemma runEach_registered (e : Engine) (names : list string) md :
  (forall n, In n names -> is_Some (strategies e !! n)) ->
  exists e' signals,
    runEach e names md = Ok (e', signals)
    /\ strategies e' = strategies e
    /\ activeStrategies e' = activeStrategies e.
Proof.
  revert e. induction names as [|n names IH]; intros e Hreg.
  - exists e, []. now repeat split.
  - cbn [runEach].
    destruct (runStrategy_registered e n md) as [e1 [s1 H1]];
      [apply Hreg; now left|].
    rewrite H1. destruct (runStrategy_registry _ _ _ _ _ H1) as [Hs Ha].
    destruct (IH e1) as [e2 [s2 [H2 [Hs2 Ha2]]]].
    { intros m Hm. rewrite Hs. apply Hreg. now right. }
    rewrite H2. exists e2, (s1 ++ s2). repeat split; congruence.
Qed.

(** X14: every active strategy is a registered one: the property holds
    for the empty engine and is kept by [registerStrategy],
    [unregisterStrategy], [enableStrategy], [disableStrategy] and
    [runAllActiveStrategies]; on an engine with the property
    [runAllActiveStrategies] returns normally, never with the not-found
    error of [runStrategy]. *)
Theorem active_strategies_stay_registered :
  activeRegistered emptyEngine
  /\ (forall e strategy,
        activeRegistered e -> activeRegistered (registerStrategy e strategy))
  /\ (forall e strategyName,
        activeRegistered e ->
        activeRegistered (unregisterStrategy e strategyName))
  /\ (forall e strategyName,
        activeRegistered e ->
        activeRegistered (fst (enableStrategy e strategyName)))
  /\ (forall e strategyName,
        activeRegistered e ->
        activeRegistered (disableStrategy e strategyName))
  /\ (forall e now marketData,
        activeRegistered e ->
        exists e' signals,
          runAllActiveStrategies now e marketData = Ok (e', signals)
          /\ activeRegistered e').
Proof.
  unfold activeRegistered. repeat split.
  - intros n [].
  - intros e strategy H n Hn. cbn [registerStrategy strategies] in *.
    destruct (decide (name strategy = n)) as [->|Hne].
    + rewrite lookup_insert_eq. eauto.
    + rewrite lookup_insert_ne by assumption. now apply H.
  - intros e strategyName H n Hn. cbn [unregisterStrategy strategies] in *.
    apply filter_active_subset in Hn. destruct Hn as [Hn Hne].
    rewrite lookup_delete_ne by congruence. now apply H.
  - intros e strategyName H n Hn. unfold enableStrategy in Hn |- *.
    destruct (strategies e !! strategyName) eqn:E; cbn [fst] in *;
      [|now apply H].
    cbn [strategies activeStrategies] in *.
    destruct (isActive e strategyName); [now apply H|].
    apply in_app_or in Hn. destruct Hn as [Hn|[<-|[]]]; [now apply H|].
    rewrite E. eauto.
  - intros e strategyName H n Hn. cbn [disableStrategy strategies] in *.
    apply filter_active_subset in Hn. now apply H.
  - intros e now marketData H. unfold runAllActiveStrategies.
    destruct (runEach_registered e (activeStrategies e) marketData H)
      as [e' [signals [Hrun [Hs Ha]]]].
    rewrite Hrun. eexists. eexists. split; [reflexivity|].
    intros n Hn. rewrite Hs. apply H. now rewrite <- Ha.
Qed.

Lemma membersOf_addToGroup (sym : string) (s : Signal.t) groups :
  membersOf sym (addToGroup s groups)
  = membersOf sym groups ++ (if onSymbol sym s then [s] else []).
Proof.
  unfold onSymbol. induction groups as [|[k members] groups IH].
  - cbn. rewrite String.eqb_sym. now destruct (String.eqb _ _).
  - cbn [addToGroup]. destruct (String.eqb k (Signal.symbol s)) eqn:Ek.
    + apply String.eqb_eq in Ek. subst k. cbn [membersOf].
      rewrite (String.eqb_sym (Signal.symbol s) sym).
      destruct (String.eqb sym (Signal.symbol s)); [reflexivity|].
      now rewrite app_nil_r.
    + cbn [membersOf]. destruct (String.eqb k sym) eqn:Eks; [|exact IH].
      apply String.eqb_eq in Eks. subst k.
      rewrite (String.eqb_sym (Signal.symbol s) sym), Ek.
      now rewrite app_nil_r.
Qed.

Lemma membersOf_fold (sym : string) (signals : list Signal.t) groups :
  membersOf sym (fold_left (fun groups s => addToGroup s groups) signals groups)
  = membersOf sym groups ++ List.filter (onSymbol sym) signals.
Proof.
  revert groups. induction signals as [|s signals IH]; intros groups.
  - cbn. now rewrite app_nil_r.
  - cbn [fold_left List.filter]. rewrite IH, membersOf_addToGroup.
    rewrite <- app_assoc. now destruct (onSymbol sym s).
Qed.

Lemma addToGroup_keys (s : Signal.t) groups :
  map fst (addToGroup s groups)
  = if existsb (fun k => String.eqb k (Signal.symbol s)) (map fst groups)
    then map fst groups
    else map fst groups ++ [Signal.symbol s].
Proof.
  induction groups as [|[sym members] groups IH]; [reflexivity|].
  cbn [addToGroup map fst existsb].
  destruct (String.eqb sym (Signal.symbol s)); [reflexivity|].
  cbn [orb map fst]. rewrite IH.
  now destruct (existsb _ _).
Qed.

Lemma existsb_key (sym : string) (keys : list string) :
  existsb (fun k => String.eqb k sym) keys = true <-> In sym keys.
Proof.
  rewrite existsb_exists. split.
  - intros [k [Hk E]]. apply String.eqb_eq in E. now subst.
  - intros H. exists sym. split; [assumption | apply String.eqb_refl].
Qed.

Lemma keys_fold (signals : list Signal.t) groups :
  List.NoDup (map fst groups) ->
  let result :=
    fold_left (fun groups s => addToGroup s groups) signals groups in
  List.NoDup (map fst result)
  /\ (forall sym,
        In sym (map fst result)
        <-> In sym (map fst groups)
            \/ exists s, In s signals /\ Signal.symbol s = sym).
Proof.
  revert groups. induction signals as [|s signals IH]; intros groups Hnd.
  - cbn. split; [assumption|]. intros sym. split; [auto|].
    intros [H|[s [[] _]]]. assumption.
  - cbn [fold_left]. 
    assert (Hnd' : List.NoDup (map fst (addToGroup s groups))).
    { rewrite addToGroup_keys.
      destruct (existsb _ _) eqn:E; [assumption|].
      apply NoDup_ListNoDup, NoDup_app. repeat split.
      - now apply NoDup_ListNoDup.
      - intros k Hk Hk'. apply list_elem_of_In in Hk.
        apply list_elem_of_In in Hk'. destruct Hk' as [<-|[]].
        apply existsb_key in Hk. congruence.
      - apply NoDup_singleton. }
    destruct (IH _ Hnd') as [H1 H2]. split; [exact H1|].
    intros sym. rewrite H2, addToGroup_keys. split.
    + intros [H|[s' [Hs' Hsym]]].
      * destruct (existsb _ _); [now left|].
        apply in_app_or in H. destruct H as [H|[<-|[]]]; [now left|].
        right. exists s. split; [now left | reflexivity].
      * right. exists s'. split; [now right | assumption].
    + intros [H|[s' [[<-|Hs'] Hsym]]].
      * left. destruct (existsb _ _); [assumption|].
        apply in_or_app. now left.
      * left. destruct (existsb _ _) eqn:E.
        -- apply existsb_key in E. now rewrite <- Hsym.
        -- apply in_or_app. right. left. assumption.
      * right. eauto.
Qed.

Lemma groups_by_key (groups : list (string * list Signal.t)) :
  List.NoDup (map fst groups) ->
  groups = map (fun sym => (sym, membersOf sym groups)) (map fst groups).
Proof.
  induction groups as [|[k members] groups IH]; intros Hnd; [reflexivity|].
  inversion Hnd as [|? ? Hnotin Hnd']; subst.
  cbn [map fst membersOf]. rewrite String.eqb_refl. f_equal.
  rewrite (IH Hnd') at 1. apply map_ext_in. intros sym Hsym.
  destruct (String.eqb k sym) eqn:E; [|reflexivity].
  apply String.eqb_eq in E. subst. contradiction.
Qed.

Lemma filter_filter (f g : string -> bool) (l : list string) :
  List.filter f (List.filter g l) = List.filter (fun x => g x && f x) l.
Proof.
  induction l as [|x l IH]; [reflexivity|].
  cbn [List.filter]. destruct (g x); cbn [List.filter andb]; [|exact IH].
  destruct (f x); now rewrite IH.
Qed.

(** The keys of the groups come in the order of first appearance. *)
Lemma keys_in_order (signals : list Signal.t) groups :
  map fst (fold_left (fun groups s => addToGroup s groups) signals groups)
  = map fst groups
    ++ List.filter
         (fun sym =>
            negb (existsb (fun k => String.eqb k sym) (map fst groups)))
         (firstAppearances (map Signal.symbol signals)).
Proof.
  revert groups. induction signals as [|s signals IH]; intros groups.
  - cbn. now rewrite app_nil_r.
  - cbn [fold_left map firstAppearances List.filter].
    rewrite IH, addToGroup_keys, filter_filter.
    destruct (existsb (fun k => String.eqb k (Signal.symbol s))
                      (map fst groups)) eqn:E.
    + cbn [negb]. f_equal. apply filter_ext_in. intros sym _.
      destruct (String.eqb sym (Signal.symbol s)) eqn:Es; [|reflexivity].
      apply String.eqb_eq in Es. subst sym. now rewrite E.
    + cbn [negb]. rewrite <- app_assoc. cbn [app]. f_equal. f_equal.
      apply filter_ext. intros sym.
      rewrite existsb_app. cbn [existsb]. rewrite orb_false_r.
      rewrite (String.eqb_sym (Signal.symbol s) sym), negb_orb.
      apply andb_comm.
Qed.

(** X15: [consolidateSignals] returns exactly one signal per distinct
    symbol of its input, in the order in which the symbols first appear:
    the consolidation of all the input signals on that symbol.  A signal
    that is alone on its symbol is returned unchanged. *)
Theorem consolidateSignals_one_per_symbol (now : Z)
    (signals : list Signal.t) :
  let symbols := firstAppearances (map Signal.symbol signals) in
  List.NoDup symbols
  /\ (forall sym,
        In sym symbols
        <-> exists s, In s signals /\ Signal.symbol s = sym)
  /\ consolidateSignals now signals
     = map (fun sym =>
              consolidate now sym (List.filter (onSymbol sym) signals))
           symbols
  /\ map Signal.symbol (consolidateSignals now signals) = symbols
  /\ (forall s,
        List.filter (onSymbol (Signal.symbol s)) signals = [s] ->
        In s (consolidateSignals now signals)).
Proof.
  intros symbols.
  destruct (keys_fold signals [] (List.NoDup_nil _)) as [Hnd Hkeys].
  fold (groupBySymbol signals) in Hnd, Hkeys.
  assert (Horder : map fst (groupBySymbol signals) = symbols).
  { unfold groupBySymbol. rewrite keys_in_order. cbn [map app existsb negb].
    subst symbols. induction (firstAppearances _) as [|sym l IH];
      [reflexivity|]. cbn [List.filter]. now rewrite IH. }
  rewrite Horder in Hnd, Hkeys.
  assert (Hout : consolidateSignals now signals
                 = map (fun sym =>
                          consolidate now sym
                            (List.filter (onSymbol sym) signals))
                       symbols).
  { unfold consolidateSignals. rewrite <- Horder.
    rewrite <- Horder in Hnd. rewrite (groups_by_key _ Hnd) at 1.
    rewrite map_map. apply map_ext. intros sym.
    unfold groupBySymbol. now rewrite membersOf_fold. }
  split; [exact Hnd|]. split.
  { intros sym. rewrite Hkeys. cbn. split; [intros [[]|H]; exact H | auto]. }
  split; [exact Hout|]. split.
  - rewrite Hout, map_map. rewrite <- (map_id symbols) at 2.
    apply map_ext_in. intros sym Hsym.
    apply Hkeys in Hsym. destruct Hsym as [[]|[s [Hs Hsym]]].
    unfold consolidate.
    destruct (List.filter (onSymbol sym) signals) as [|only [|second rest]] eqn:E;
      try reflexivity.
    assert (Hin : In only (List.filter (onSymbol sym) signals))
      by (rewrite E; now left).
    apply filter_In in Hin. destruct Hin as [_ Hon].
    now apply String.eqb_eq in Hon.
  - intros s Hs. rewrite Hout. apply in_map_iff.
    exists (Signal.symbol s). split.
    + now rewrite Hs.
    + apply Hkeys. right. exists s. split; [|reflexivity].
      assert (Hin : In s (List.filter (onSymbol (Signal.symbol s)) signals))
        by (rewrite Hs; now left).
      now apply filter_In in Hin.
Qed.

Lemma zero_totals (group : list Signal.t) (w c : Q) :
  w == 0 -> c == 0 ->
  Forall (fun s => Signal.strength s = Fin 0
                   /\ exists q : Q, Signal.confidence s = Fin q) group ->
  exists w' c' : Q,
    fold_left (fun sum s => (sum + Signal.strength s)%num) group (Fin w)
    = Fin w'
    /\ fold_left
         (fun sum s => (sum + Signal.confidence s * Signal.strength s)%num)
         group (Fin c) = Fin c'
    /\ w' == 0 /\ c' == 0.
Proof.
  revert w c. induction group as [|s group IH]; intros w c Hw Hc Hall.
  - exists w, c. now repeat split.
  - inversion Hall as [|? ? [Hs [q Hq]] Hrest]; subst.
    cbn [fold_left]. rewrite Hs, Hq. repeat (progress fin_rw).
    apply IH; [lra | lra | assumption].
Qed.

Lemma consolidate_fields (now : Z) (sym : string) (group : list Signal.t) :
  (2 <= length group)%nat ->
  Signal.strength (consolidate now sym group)
  = JS.min (Fin 100) (totalWeight group / JS.of_nat (length group))%num
  /\ Signal.confidence (consolidate now sym group)
     = JS.min (Fin 1) (totalConfidence group / totalWeight group)%num.
Proof.
  intros H. destruct group as [|first [|second rest]];
    try (cbn in H; lia). split; reflexivity.
Qed.

(** X16: a signal consolidated from two or more signals never has a
    strength above 100 or a confidence above 1; when all the contributing
    strengths are 0 (with finite confidences) its confidence is NaN and
    its strength 0. *)
Theorem consolidated_signal_is_capped (now : Z) (sym : string)
    (group : list Signal.t) :
  (2 <= length group)%nat ->
  let c := consolidate now sym group in
  (Signal.strength c >? Fin 100)%num = false
  /\ (Signal.confidence c >? Fin 1)%num = false
  /\ (Forall (fun s => Signal.strength s = Fin 0
                       /\ exists q : Q, Signal.confidence s = Fin q) group ->
      Signal.confidence c = NaN /\ Signal.strength c ≡ Fin 0).
Proof.
  intros Hlen c. subst c.
  destruct (consolidate_fields now sym group Hlen) as [-> ->].
  split; [apply min_cap|]. split; [apply min_cap|].
  intros Hall.
  destruct (zero_totals group 0 0 ltac:(reflexivity) ltac:(reflexivity) Hall)
    as [w [c [Hw [Hc [Hw0 Hc0]]]]].
  unfold totalConfidence, totalWeight. rewrite Hw, Hc. split.
  - unfold JS.div at 1. rewrite (Qeq_bool_true _ _ Hw0), (Qeq_bool_true _ _ Hc0).
    reflexivity.
  - pose proof (RiskSpec.inject_Z_nat_pos (length group)
                  ltac:(lia)) as HL.
    unfold JS.of_nat. rewrite div_fin by lra. rewrite min_fin.
    apply fin_equiv.
    assert (Hq : w / inject_Z (Z.of_nat (length group)) == 0)
      by (rewrite Hw0; field; lra).
    rewrite Q.min_r by lra. exact Hq.
Qed.

Lemma consolidated_signal_is_capped_witness :
  (Signal.strength
     (consolidate 0 "BTC/USD" (exampleSignals (Fin 0.9) (Fin 0.5) (Fin 1)))
   >? Fin 100)%num = false.
Proof.
  apply (consolidated_signal_is_capped 0 "BTC/USD"
           (exampleSignals (Fin 0.9) (Fin 0.5) (Fin 1))).
  cbn. lia.
Defined.

(** X17: [getSignalHistory] returns the last [limit] signals for a
    positive limit (the last 100 by default), the whole history for limit
    0, and for a negative limit the history without its first -limit
    signals. *)
Theorem getSignalHistory_limit (e : Engine) (limit : Z) :
  let history := signalHistory e in
  ((0 < limit)%Z ->
   getSignalHistory e (Some limit)
   = drop (length history - Z.to_nat limit) history)
  /\ (limit = 0%Z -> getSignalHistory e (Some limit) = history)
  /\ ((limit < 0)%Z ->
      getSignalHistory e (Some limit) = drop (Z.to_nat (- limit)) history)
  /\ getSignalHistory e None = drop (length history - 100) history.
Proof.
  intros history. unfold getSignalHistory, sliceFrom. fold history.
  cbn [default from_option id]. repeat split.
  - intros H. replace (- limit <? 0)%Z with true
      by (symmetry; apply Z.ltb_lt; lia).
    f_equal. lia.
  - intros ->. change (- 0 <? 0)%Z with false. cbn iota.
    rewrite Z.min_l by lia. reflexivity.
  - intros H. replace (- limit <? 0)%Z with false
      by (symmetry; apply Z.ltb_ge; lia).
    destruct (Z.min_spec (- limit) (Z.of_nat (length history)))
      as [[H1 ->]|[H1 ->]]; [reflexivity|].
    rewrite Nat2Z.id, !drop_ge by lia. reflexivity.
  - match goal with
    | |- context [(?a <? 0)%Z] => replace (a <? 0)%Z with true by reflexivity
    end. f_equal. lia.
Qed.

End StrategyFacts.

(** ** Indicator library: values and lengths *)

Module IndicatorFacts.

Import TechnicalIndicators StrategyCases IndicatorCases IndicatorSpec.
Local Open Scope Q_scope.

Lemma of_nat_nonzero n : (0 < n)%nat -> ~ inject_Z (Z.of_nat n) == 0.
Proof.
  intros H E. pose proof (RiskSpec.inject_Z_nat_pos n H). lra.
Qed.

Lemma inject_nat_nonneg n : 0 <= inject_Z (Z.of_nat n).
Proof. change 0 with (inject_Z 0). rewrite <- Zle_Qle. lia. Qed.

Lemma inject_nat_ge1 n : (0 < n)%nat -> 1 <= inject_Z (Z.of_nat n).
Proof. intros H. change 1 with (inject_Z 1). rewrite <- Zle_Qle. lia. Qed.

Lemma get_map_fin (qs : list Q) i q :
  qs !! i = Some q -> get (map Fin qs) i = Fin q.
Proof.
  intros H. unfold get. rewrite list_lookup_fmap, H. reflexivity.
Qed.

Lemma slice_map_fin a b (qs : list Q) :
  slice a b (map Fin qs) = map Fin (take (b - a) (drop a qs)).
Proof. unfold slice. now rewrite <- fmap_drop, <- fmap_take. Qed.

Lemma fold_add_fin (qs : list Q) (acc : Q) :
  fold_left JS.add (map Fin qs) (Fin acc) = Fin (fold_left Qplus qs acc).
Proof.
  revert acc. induction qs as [|q qs IH]; intros acc; cbn [map fold_left];
    [reflexivity|]. rewrite add_fin. apply IH.
Qed.

Lemma emaFrom_bounds (mu lo hi prev : Q) (qs : list Q) :
  0 <= mu <= 1 -> lo <= prev <= hi -> Forall (fun q => lo <= q <= hi) qs ->
  exists es,
    emaFrom (Fin mu) (Fin prev) (map Fin qs) = map Fin es
    /\ Forall (fun e => lo <= e <= hi) es.
Proof.
  intros Hmu. revert prev. induction qs as [|q qs IH]; intros prev Hprev Hqs.
  - exists []. split; [reflexivity | constructor].
  - inversion Hqs as [|? ? Hq Hrest]; subst.
    cbn [map emaFrom]. fin_all.
    destruct (IH (q * mu + prev * (1 - mu))) as [es [Hes Hb]];
      [nra | assumption |].
    exists ((q * mu + prev * (1 - mu)) :: es). split.
    + cbn [map]. now rewrite Hes.
    + constructor; [nra | assumption].
Qed.

Lemma multiplier_fin (period : nat) :
  (Fin 2 / (JS.of_nat period + Fin 1))%num
  = Fin (2 / (inject_Z (Z.of_nat period) + 1)).
Proof.
  unfold JS.of_nat. fin_all. apply div_fin.
  pose proof (inject_nat_nonneg period). lra.
Qed.

Lemma multiplier_range (period : nat) :
  (0 < period)%nat -> 0 <= 2 / (inject_Z (Z.of_nat period) + 1) <= 1.
Proof.
  intros H. pose proof (inject_nat_ge1 period H). split.
  - apply Qle_shift_div_l; lra.
  - apply Qle_shift_div_r; lra.
Qed.

Lemma max_zero_nonnegative (x : Q) : nonnegative (JS.max (Fin x) (Fin 0)).
Proof. exists (Qmax x 0). split; [reflexivity | apply Q.le_max_r]. Qed.

Lemma sum_nonnegative (l : list num) (acc : Q) :
  0 <= acc -> Forall nonnegative l ->
  exists s, fold_left JS.add l (Fin acc) = Fin s /\ 0 <= s.
Proof.
  revert acc. induction l as [|v l IH]; intros acc Hacc Hl.
  - exists acc. now split.
  - inversion Hl as [|? ? [a [-> Ha]] Hrest]; subst.
    cbn [fold_left]. fin_all. apply IH; [lra | assumption].
Qed.

Lemma average_nonnegative (l : list num) (period : nat) :
  (0 < period)%nat -> Forall nonnegative l ->
  nonnegative (JS.sum l / JS.of_nat period)%num.
Proof.
  intros Hp Hl. destruct (sum_nonnegative l 0 ltac:(lra) Hl) as [s [Hs Hs0]].
  unfold JS.sum, JS.of_nat. rewrite Hs, div_fin by now apply of_nat_nonzero.
  eexists. split; [reflexivity|].
  pose proof (inject_nat_ge1 period Hp). apply Qle_shift_div_l; lra.
Qed.

Lemma rsiValue_range (g l : Q) :
  0 <= g -> 0 <= l -> rsiInRange (rsiValue (Fin g) (Fin l)).
Proof.
  intros Hg Hl. unfold rsiValue.
  destruct (Qeq_bool l 0) eqn:El.
  - destruct (Qeq_bool g 0) eqn:Eg.
    + left. unfold JS.div at 2. rewrite El, Eg. reflexivity.
    + right. exists (100 - 0). split; [|lra].
      unfold JS.div at 2. rewrite El, Eg.
      replace (JS.Qltb 0 g) with true; [reflexivity|].
      symmetry. apply Qltb_true.
      destruct (Qeq_dec g 0) as [E|E]; [|lra].
      apply Qeq_bool_iff in E. congruence.
  - assert (Hl0 : 0 < l).
    { destruct (Qeq_dec l 0) as [E|E]; [|lra].
      apply Qeq_bool_iff in E. congruence. }
    assert (Hrs : 0 <= g / l) by (apply Qle_shift_div_l; lra).
    rewrite div_fin by lra. fin_all. rewrite div_fin by lra. fin_all.
    right. eexists. split; [reflexivity|].
    assert (H1 : 0 <= 100 / (1 + g / l)) by (apply Qle_shift_div_l; lra).
    assert (H2 : 100 / (1 + g / l) <= 100) by (apply Qle_shift_div_r; lra).
    lra.
Qed.

Lemma rsiSmooth_range (period : nat) (g l : Q) (rest : list (num * num)) :
  (0 < period)%nat -> 0 <= g -> 0 <= l -> Forall nonnegativePair rest ->
  Forall rsiInRange (rsiSmooth (JS.of_nat period) (Fin g) (Fin l) rest).
Proof.
  intros Hp. pose proof (inject_nat_ge1 period Hp) as Hp1.
  revert g l. induction rest as [|[gain loss] rest IH]; intros g l Hg Hl Hrest.
  - constructor.
  - inversion Hrest as [|? ? [[a [Ea Ha]] [b [Eb Hb]]] Hrest']; subst.
    cbn [fst snd] in Ea, Eb. subst gain loss.
    cbn [rsiSmooth]. unfold JS.of_nat. fin_all.
    rewrite !div_fin by lra.
    assert (Hg' : 0 <= (g * (inject_Z (Z.of_nat period) - 1) + a)
                       / inject_Z (Z.of_nat period))
      by (apply Qle_shift_div_l; nra).
    assert (Hl' : 0 <= (l * (inject_Z (Z.of_nat period) - 1) + b)
                       / inject_Z (Z.of_nat period))
      by (apply Qle_shift_div_l; nra).
    constructor; [now apply rsiValue_range | now apply IH].
Qed.

Lemma zip_nonnegative (gs ls : list num) :
  Forall nonnegative gs -> Forall nonnegative ls ->
  Forall nonnegativePair (zip gs ls).
Proof.
  intros Hg. revert ls. induction Hg as [|g gs Hg Hgs IH]; intros ls Hl.
  - constructor.
  - destruct Hl as [|l ls Hl Hls]; cbn; constructor; [now split | now apply IH].
Qed.

Lemma changes_finite (qs : list Q) :
  Forall (fun c => exists x : Q, c = Fin x)
    (map (fun i => (get (map Fin qs) i - get (map Fin qs) (i - 1))%num)
         (seq 1 (length qs - 1))).
Proof.
  apply Forall_forall. intros c Hc. apply list_elem_of_In, in_map_iff in Hc.
  destruct Hc as [i [<- Hi]]. apply in_seq in Hi.
  destruct (lookup_lt_is_Some_2 qs i) as [a Ha]; [lia|].
  destruct (lookup_lt_is_Some_2 qs (i - 1)) as [b Hb]; [lia|].
  rewrite (get_map_fin _ _ _ Ha), (get_map_fin _ _ _ Hb). fin_all. eauto.
Qed.

(** X9: on finite prices and a positive period, [rsi] returns
    length - period - 1 values (none when the series is shorter than
    period + 1), each either NaN (no gain and no loss over the window) or
    a number between 0 and 100. *)
Theorem rsi_range (qs : list Q) (period : nat) :
  (0 < period)%nat ->
  length (rsi (map Fin qs) period) = (length qs - period - 1)%nat
  /\ Forall rsiInRange (rsi (map Fin qs) period).
Proof.
  intros Hp. unfold rsi. rewrite length_map.
  destruct (length qs <? period + 1)%nat eqn:En.
  - apply Nat.ltb_lt in En. split; [cbn; lia | constructor].
  - apply Nat.ltb_ge in En.
    set (changes := map _ (seq 1 (length qs - 1))).
    assert (Hch : Forall (fun c => exists x : Q, c = Fin x) changes)
      by apply changes_finite.
    assert (Hgains : Forall nonnegative
                       (map (fun change => JS.max change (Fin 0)) changes)).
    { apply Forall_fmap. eapply Forall_impl; [exact Hch|].
      intros c [x ->]. apply max_zero_nonnegative. }
    assert (Hlosses : Forall nonnegative
                        (map (fun change => JS.max (JS.neg change) (Fin 0))
                             changes)).
    { apply Forall_fmap. eapply Forall_impl; [exact Hch|].
      intros c [x ->]. apply max_zero_nonnegative. }
    assert (Hlen : length (zip (map (fun change => JS.max change (Fin 0)) changes)
                     (map (fun change => JS.max (JS.neg change) (Fin 0)) changes))
                   = (length qs - 1)%nat).
    { rewrite length_zip, !length_map. subst changes.
      rewrite length_map, length_seq. lia. }
    pose proof (zip_nonnegative _ _ Hgains Hlosses) as Hzip.
    apply (Forall_drop _ period) in Hzip.
    pose proof (length_drop
                  (zip (map (fun change => JS.max change (Fin 0)) changes)
                     (map (fun change => JS.max (JS.neg change) (Fin 0)) changes))
                  period) as Hdrop.
    rewrite Hlen in Hdrop.
    destruct (drop period _) as [|first rest] eqn:Ed.
    + split; [cbn in *; lia | constructor].
    + inversion Hzip as [|? ? _ Hrest]; subst.
      destruct (average_nonnegative
                  (slice 0 period (map (fun change => JS.max change (Fin 0)) changes))
                  period Hp) as [g [Eg Hg]].
      { unfold slice. now apply Forall_take, Forall_drop. }
      destruct (average_nonnegative
                  (slice 0 period
                     (map (fun change => JS.max (JS.neg change) (Fin 0)) changes))
                  period Hp) as [l [El Hl]].
      { unfold slice. now apply Forall_take, Forall_drop. }
      rewrite Eg, El. split.
      * cbn [length] in *. 
        assert (Hrs : forall p a b r, length (rsiSmooth p a b r) = length r).
        { intros p a b r. revert a b.
          induction r as [|[x y] r IH]; intros a b; cbn; [|rewrite IH];
            reflexivity. }
        rewrite Hrs. lia.
      * constructor; [now apply rsiValue_range | now apply rsiSmooth_range].
Qed.

Lemma rsi_range_witness :
  length (rsi (map Fin [10; 11; 10; 12]) 2) = 1%nat
  /\ Forall rsiInRange (rsi (map Fin [10; 11; 10; 12]) 2).
Proof. apply (rsi_range [10; 11; 10; 12] 2). lia. Defined.

Lemma nonnegative_list (l : list num) :
  Forall nonnegative l ->
  exists qs : list Q, l = map Fin qs /\ Forall (fun q => 0 <= q) qs.
Proof.
  induction 1 as [|v l [a [-> Ha]] _ [qs [-> Hqs]]].
  - exists []. split; [reflexivity | constructor].
  - exists (a :: qs). split; [reflexivity | now constructor].
Qed.

Lemma list_upper_bound (qs : list Q) (lo : Q) :
  Forall (fun q => lo <= q) qs ->
  exists hi, Forall (fun q => lo <= q <= hi) qs.
Proof.
  induction 1 as [|q qs Hq _ [hi Hhi]].
  - exists lo. constructor.
  - exists (Qmax q hi). constructor.
    + split; [assumption | apply Q.le_max_l].
    + eapply Forall_impl; [exact Hhi|]. cbn. intros x [H1 H2].
      split; [assumption|]. pose proof (Q.le_max_r q hi). lra.
Qed.

Lemma ema_bounds (qs : list Q) (period : nat) (lo hi : Q) :
  (0 < period)%nat -> Forall (fun q => lo <= q <= hi) qs ->
  exists es,
    ema (map Fin qs) period = map Fin es
    /\ length es = length qs
    /\ Forall (fun e => lo <= e <= hi) es.
Proof.
  intros Hp Hqs. destruct qs as [|q qs].
  - exists []. repeat split; constructor.
  - inversion Hqs as [|? ? Hq Hrest]; subst.
    cbn [map ema]. rewrite multiplier_fin.
    destruct (emaFrom_bounds _ lo hi q qs (multiplier_range period Hp) Hq Hrest)
      as [es [Hes Hb]].
    exists (q :: es). rewrite Hes. repeat split.
    + apply (f_equal (@length num)) in Hes.
      rewrite emaFrom_length, !length_map in Hes. cbn. now rewrite Hes.
    + now constructor.
Qed.

Lemma trueRange_nonnegative (h l c : Q) :
  nonnegative
    (JS.max (JS.max (Fin h - Fin l)%num (JS.abs (Fin h - Fin c)%num))
            (JS.abs (Fin l - Fin c)%num)).
Proof.
  fin_all. unfold JS.abs. fin_all. eexists. split; [reflexivity|].
  pose proof (Qabs_nonneg (l - c)).
  pose proof (Q.le_max_r (Qmax (h - l) (Qabs (h - c))) (Qabs (l - c))).
  lra.
Qed.

(** X10: on finite highs, lows and closes of the same length and a
    positive period, [atr] returns length - 1 values, whatever the
    period, and none of them is negative. *)
Theorem atr_never_negative (hs ls cs : list Q) (period : nat) :
  (0 < period)%nat -> length ls = length hs -> length cs = length hs ->
  let values := atr (map Fin hs) (map Fin ls) (map Fin cs) period in
  length values = (length hs - 1)%nat
  /\ Forall (fun v => (v <? Fin 0)%num = false) values.
Proof.
  intros Hp Hl Hc values. subst values.
  unfold atr. rewrite !length_map, Hl, Hc, !orb_diag.
  destruct (length hs <? 2)%nat eqn:En.
  - apply Nat.ltb_lt in En. split; [cbn; lia | constructor].
  - set (trueRanges := map _ (seq 1 (length hs - 1))).
    assert (Htr : Forall nonnegative trueRanges).
    { apply Forall_forall. intros v Hv.
      apply list_elem_of_In, in_map_iff in Hv. destruct Hv as [i [<- Hi]].
      apply in_seq in Hi.
      destruct (lookup_lt_is_Some_2 hs i) as [h Hh]; [lia|].
      destruct (lookup_lt_is_Some_2 ls i) as [l Hli]; [lia|].
      destruct (lookup_lt_is_Some_2 cs (i - 1)) as [c Hci]; [lia|].
      rewrite (get_map_fin _ _ _ Hh), (get_map_fin _ _ _ Hli),
        (get_map_fin _ _ _ Hci).
      apply (trueRange_nonnegative h l c). }
    destruct (nonnegative_list _ Htr) as [trs [Etr Htrs]].
    destruct (list_upper_bound trs 0 Htrs) as [hi Hhi].
    destruct (ema_bounds trs period 0 hi Hp Hhi) as [es [Ees [Hlen Hes]]].
    rewrite Etr, Ees. split.
    + rewrite length_map, Hlen. apply (f_equal (@length num)) in Etr.
      subst trueRanges. rewrite !length_map, length_seq in Etr. lia.
    + apply Forall_forall. intros v Hv.
      apply list_elem_of_In, in_map_iff in Hv. destruct Hv as [x [<- Hx]].
      rewrite Forall_forall in Hes.
      pose proof (Hes x (proj2 (list_elem_of_In _ _) Hx)) as [Hx0 _].
      now apply lt_fin_false.
Qed.

Lemma atr_never_negative_witness :
  length (atr (map Fin [10; 12; 11]) (map Fin [9; 10; 10])
            (map Fin [9.5; 11; 10.5]) 14) = 2%nat
  /\ Forall (fun v => (v <? Fin 0)%num = false)
       (atr (map Fin [10; 12; 11]) (map Fin [9; 10; 10])
          (map Fin [9.5; 11; 10.5]) 14).
Proof.
  apply (atr_never_negative [10; 12; 11] [9; 10; 10] [9.5; 11; 10.5] 14);
    [lia | reflexivity | reflexivity].
Defined.

Lemma fold_max_fin (qs : list Q) (acc : Q) :
  fold_left JS.max (map Fin qs) (Fin acc) = Fin (fold_left Qmax qs acc).
Proof.
  revert acc. induction qs as [|q qs IH]; intros acc; cbn [map fold_left];
    [reflexivity|]. rewrite max_fin. apply IH.
Qed.

Lemma fold_min_fin (qs : list Q) (acc : Q) :
  fold_left JS.min (map Fin qs) (Fin acc) = Fin (fold_left Qmin qs acc).
Proof.
  revert acc. induction qs as [|q qs IH]; intros acc; cbn [map fold_left];
    [reflexivity|]. rewrite min_fin. apply IH.
Qed.

Lemma fold_Qmax_ge (qs : list Q) (acc : Q) :
  acc <= fold_left Qmax qs acc
  /\ Forall (fun q => q <= fold_left Qmax qs acc) qs.
Proof.
  revert acc. induction qs as [|q qs IH]; intros acc; cbn [fold_left].
  - split; [lra | constructor].
  - destruct (IH (Qmax acc q)) as [H1 H2].
    pose proof (Q.le_max_l acc q). pose proof (Q.le_max_r acc q).
    split; [lra|]. constructor; [lra | assumption].
Qed.

Lemma fold_Qmin_le (qs : list Q) (acc : Q) :
  fold_left Qmin qs acc <= acc
  /\ Forall (fun q => fold_left Qmin qs acc <= q) qs.
Proof.
  revert acc. induction qs as [|q qs IH]; intros acc; cbn [fold_left].
  - split; [lra | constructor].
  - destruct (IH (Qmin acc q)) as [H1 H2].
    pose proof (Q.le_min_l acc q). pose proof (Q.le_min_r acc q).
    split; [lra|]. constructor; [lra | assumption].
Qed.

(** The highest value of a non-empty window bounds each of its members. *)
Lemma maxOf_window (qs : list Q) (i : nat) (q : Q) :
  qs !! i = Some q ->
  exists m, maxOf (map Fin qs) = Fin m /\ q <= m.
Proof.
  intros Hq. destruct qs as [|x rest]; [discriminate|].
  exists (fold_left Qmax rest x). split.
  - unfold maxOf. cbn [map fold_left].
    change (JS.max NInf (Fin x)) with (Fin x). apply fold_max_fin.
  - destruct (fold_Qmax_ge rest x) as [H1 H2]. destruct i as [|i].
    + cbn in Hq. injection Hq as <-. assumption.
    + cbn in Hq. rewrite Forall_forall in H2. apply H2.
      now apply list_elem_of_lookup_2 in Hq.
Qed.

Lemma minOf_window (qs : list Q) (i : nat) (q : Q) :
  qs !! i = Some q ->
  exists m, minOf (map Fin qs) = Fin m /\ m <= q.
Proof.
  intros Hq. destruct qs as [|x rest]; [discriminate|].
  exists (fold_left Qmin rest x). split.
  - unfold minOf. cbn [map fold_left].
    change (JS.min PInf (Fin x)) with (Fin x). apply fold_min_fin.
  - destruct (fold_Qmin_le rest x) as [H1 H2]. destruct i as [|i].
    + cbn in Hq. injection Hq as <-. assumption.
    + cbn in Hq. rewrite Forall_forall in H2. apply H2.
      now apply list_elem_of_lookup_2 in Hq.
Qed.

Lemma window_last {A} (l : list A) (w period : nat) :
  (0 < period)%nat ->
  take period (drop w l) !! (period - 1)%nat = l !! (w + period - 1)%nat.
Proof.
  intros Hp. rewrite lookup_take_lt by lia. rewrite lookup_drop.
  f_equal. lia.
Qed.

Lemma percentR_range (hh ll c : Q) :
  ll <= c <= hh ->
  let v := ((Fin hh - Fin c) / (Fin hh - Fin ll) * Fin (-100))%num in
  v = NaN \/ exists r : Q, v = Fin r /\ -100 <= r <= 0.
Proof.
  intros Hc v. subst v. fin_all.
  destruct (Qeq_dec (hh - ll) 0) as [E|E].
  - left. unfold JS.div. rewrite (Qeq_bool_true _ _ E).
    rewrite Qeq_bool_true by lra. reflexivity.
  - right. rewrite div_fin by assumption. fin_all.
    eexists. split; [reflexivity|].
    assert (H0 : 0 <= (hh - c) / (hh - ll)) by (apply Qle_shift_div_l; lra).
    assert (H1 : (hh - c) / (hh - ll) <= 1) by (apply Qle_shift_div_r; lra).
    lra.
Qed.

(** X11: on price bars whose close lies between the low and the high and
    a positive period, every value of [williamsR] is either NaN (a window
    whose highest high equals its lowest low) or a number between -100
    and 0. *)
Theorem williamsR_range (bars : list Bar) (period : nat) :
  (0 < period)%nat -> Forall wellFormed bars ->
  Forall (fun v => v = NaN \/ exists r : Q, v = Fin r /\ -100 <= r <= 0)
    (williamsR (highsOf bars) (lowsOf bars) (closesOf bars) period).
Proof.
  intros Hp Hbars. unfold williamsR, highsOf, lowsOf, closesOf, windows.
  rewrite !length_map.
  destruct (length bars <? period)%nat eqn:En; [constructor|].
  apply Nat.ltb_ge in En.
  apply Forall_forall. intros v Hv.
  apply list_elem_of_In, in_map_iff in Hv. destruct Hv as [w [<- Hw]].
  apply in_seq in Hw.
  destruct (lookup_lt_is_Some_2 bars (w + period - 1)) as [b Hb]; [lia|].
  rewrite Forall_forall in Hbars.
  pose proof (Hbars b (list_elem_of_lookup_2 _ _ _ Hb)) as [Hlow Hhigh].
  rewrite !slice_map_fin.
  replace (w + period - w)%nat with period by lia.
  destruct (maxOf_window (take period (drop w (map barHigh bars)))
              (period - 1) (barHigh b)) as [hh [-> Hhh]].
  { rewrite window_last by assumption. now rewrite list_lookup_fmap, Hb. }
  destruct (minOf_window (take period (drop w (map barLow bars)))
              (period - 1) (barLow b)) as [ll [-> Hll]].
  { rewrite window_last by assumption. now rewrite list_lookup_fmap, Hb. }
  unfold getZ.
  replace (Z.of_nat w + Z.of_nat period - 1 <? 0)%Z with false
    by (symmetry; apply Z.ltb_ge; lia).
  replace (Z.to_nat (Z.of_nat w + Z.of_nat period - 1))
    with (w + period - 1)%nat by lia.
  rewrite (get_map_fin (map barClose bars) _ (barClose b))
    by now rewrite list_lookup_fmap, Hb.
  apply percentR_range. lra.
Qed.

Lemma williamsR_range_witness :
  Forall (fun v => v = NaN \/ exists r : Q, v = Fin r /\ -100 <= r <= 0)
    (williamsR (highsOf exampleBars) (lowsOf exampleBars)
       (closesOf exampleBars) 2).
Proof.
  apply (williamsR_range exampleBars 2); [lia|].
  repeat constructor; cbn; lra.
Defined.

Lemma sma_finite (qs : list Q) (period : nat) :
  (0 < period)%nat -> exists ms : list Q, sma (map Fin qs) period = map Fin ms.
Proof.
  intros Hp. unfold sma. destruct (_ <? _)%nat; [now exists []|].
  exists (map (fun k => fold_left Qplus (take period (drop k qs)) 0
                        / inject_Z (Z.of_nat period))
              (windows (length (map Fin qs)) period)).
  rewrite map_map. apply map_ext. intros k.
  rewrite slice_map_fin. replace (k + period - k)%nat with period by lia.
  unfold JS.sum, JS.of_nat. rewrite fold_add_fin.
  apply div_fin. now apply of_nat_nonzero.
Qed.

Lemma map_get_seq (l : list num) : map (get l) (seq 0 (length l)) = l.
Proof.
  apply list_eq. intros i. rewrite list_lookup_fmap.
  destruct (l !! i) as [v|] eqn:E.
  - rewrite lookup_seq_lt by (now apply lookup_lt_Some in E).
    cbn. unfold get. now rewrite E.
  - rewrite lookup_seq_ge by (now apply lookup_ge_None in E). reflexivity.
Qed.

Lemma square_nonneg (x : Q) : 0 <= x * x.
Proof.
  destruct (Qlt_le_dec x 0) as [Hneg|Hpos].
  - assert (E : x * x == (- x) * (- x)) by ring. rewrite E.
    apply Qmult_le_0_compat; lra.
  - now apply Qmult_le_0_compat.
Qed.

Lemma squares_nonnegative (window : list Q) (m acc : Q) :
  0 <= acc ->
  exists s,
    fold_left (fun sum price => (sum + (price - Fin m) * (price - Fin m))%num)
              (map Fin window) (Fin acc) = Fin s
    /\ 0 <= s.
Proof.
  revert acc. induction window as [|q window IH]; intros acc Hacc.
  - exists acc. now split.
  - cbn [map fold_left]. fin_all. apply IH. pose proof (square_nonneg (q - m)). lra.
Qed.

(** X13: for finite prices, a positive period and a non-negative
    multiplier (and a square root that maps non-negative numbers to
    non-negative numbers), the middle values of [bollingerBands] are the
    [sma] of the prices, and in no band is the upper value below the
    middle or the middle below the lower value. *)
Theorem bollingerBands_ordered (sqrt : num -> num) (qs : list Q)
    (period : nat) (k : Q) :
  (forall x, 0 <= x -> exists y, sqrt (Fin x) = Fin y /\ 0 <= y) ->
  (0 < period)%nat -> 0 <= k ->
  map middle (bollingerBands sqrt (map Fin qs) period (Fin k))
  = sma (map Fin qs) period
  /\ Forall (fun band =>
               (upper band <? middle band)%num = false
               /\ (middle band <? lower band)%num = false)
            (bollingerBands sqrt (map Fin qs) period (Fin k)).
Proof.
  intros Hsqrt Hp Hk. unfold bollingerBands.
  destruct (length (map Fin qs) <? period)%nat eqn:En.
  - split; [|constructor]. unfold sma. now rewrite En.
  - split.
    + rewrite map_map. cbn [middle]. apply map_get_seq.
    + destruct (sma_finite qs period Hp) as [ms Hms]. rewrite Hms.
      apply Forall_forall. intros band Hband.
      apply list_elem_of_In, in_map_iff in Hband.
      destruct Hband as [i [<- Hi]]. apply in_seq in Hi.
      rewrite length_map in Hi.
      destruct (lookup_lt_is_Some_2 ms i) as [m Hm]; [lia|].
      rewrite (get_map_fin _ _ _ Hm), slice_map_fin.
      destruct (squares_nonnegative (take (i + period - i) (drop i qs)) m 0)
        as [s [-> Hs]]; [lra|].
      unfold JS.of_nat. rewrite div_fin by now apply of_nat_nonzero.
      destruct (Hsqrt (s / inject_Z (Z.of_nat period))) as [sd [-> Hsd]].
      { pose proof (inject_nat_ge1 period Hp). apply Qle_shift_div_l; lra. }
      fin_all. cbn [lower middle upper].
      pose proof (Qmult_le_0_compat sd k Hsd Hk).
      split; apply lt_fin_false; lra.
Qed.

Lemma bollingerBands_ordered_witness :
  map middle (bollingerBands (fun x => x) (map Fin [1; 2; 3]) 2 (Fin 2))
  = sma (map Fin [1; 2; 3]) 2
  /\ Forall (fun band =>
               (upper band <? middle band)%num = false
               /\ (middle band <? lower band)%num = false)
            (bollingerBands (fun x => x) (map Fin [1; 2; 3]) 2 (Fin 2)).
Proof.
  apply (bollingerBands_ordered (fun x => x) [1; 2; 3] 2 2);
    [intros x Hx; exists x; split; [reflexivity | assumption] | lia | lra].
Defined.

Lemma sma_length (prices : list num) (period : nat) :
  (period <= length prices)%nat ->
  length (sma prices period) = (length prices + 1 - period)%nat.
Proof.
  intros H. unfold sma, windows.
  replace (length prices <? period)%nat with false
    by (symmetry; apply Nat.ltb_ge; lia).
  now rewrite length_map, length_seq.
Qed.

Lemma sarLoop_length highs lows step max s indices :
  length (sarLoop highs lows step max s indices) = length indices.
Proof.
  revert s. induction indices as [|i rest IH]; intros s; cbn;
    [|rewrite IH]; reflexivity.
Qed.

(** X12: on series of the same length n that are long enough, [sma],
    [cci] and [williamsR] return n + 1 - period values, [stochastic]
    n + 2 - period - dPeriod, [macd] n + fastPeriod - slowPeriod, [mfi]
    n - period and [parabolicSAR] n - 1. *)
Theorem indicator_output_lengths (highs lows closes volumes : list num)
    (n period fastPeriod slowPeriod signalPeriod dPeriod : nat) (step max : num) :
  length highs = n -> length lows = n -> length closes = n ->
  length volumes = n ->
  ((period <= n)%nat ->
     length (sma closes period) = (n + 1 - period)%nat
     /\ length (cci highs lows closes period) = (n + 1 - period)%nat
     /\ length (williamsR highs lows closes period) = (n + 1 - period)%nat
     /\ ((dPeriod <= n + 1 - period)%nat ->
         length (stochastic highs lows closes period dPeriod)
         = (n + 2 - period - dPeriod)%nat))
  /\ ((slowPeriod <= n)%nat ->
      length (macd closes fastPeriod slowPeriod signalPeriod)
      = (n + fastPeriod - slowPeriod)%nat)
  /\ ((period + 1 <= n)%nat ->
      length (mfi highs lows closes volumes period) = (n - period)%nat)
  /\ ((2 <= n)%nat ->
      length (parabolicSAR highs lows step max) = (n - 1)%nat).
Proof.
  intros Hh Hl Hc Hv. repeat split.
  - rewrite sma_length; lia.
  - unfold cci, windows. rewrite Hh.
    replace (n <? period)%nat with false by (symmetry; apply Nat.ltb_ge; lia).
    now rewrite length_map, length_seq.
  - unfold williamsR, windows. rewrite Hh, Hc.
    replace (n <? period)%nat with false by (symmetry; apply Nat.ltb_ge; lia).
    now rewrite length_map, length_seq.
  - intros Hd. unfold stochastic, windows. rewrite Hh, Hl, Hc, !orb_diag.
    replace (n <? period)%nat with false by (symmetry; apply Nat.ltb_ge; lia).
    rewrite length_map, length_seq, sma_length;
      rewrite length_map, length_seq; lia.
  - intros Hs. unfold macd. rewrite Hc.
    replace (n <? slowPeriod)%nat with false
      by (symmetry; apply Nat.ltb_ge; lia).
    rewrite length_map, length_seq, !ema_length, length_map, length_seqZ, Hc.
    lia.
  - intros Hp. unfold mfi. rewrite Hh.
    replace (n <? period + 1)%nat with false
      by (symmetry; apply Nat.ltb_ge; lia).
    now rewrite length_map, length_seq.
  - intros Hn. unfold parabolicSAR. rewrite Hh, Hl, orb_diag.
    replace (n <? 2)%nat with false by (symmetry; apply Nat.ltb_ge; lia).
    cbn [length]. rewrite sarLoop_length, length_seq. lia.
Qed.

Lemma indicator_output_lengths_witness :
  length (macd (closesOf exampleBars) 1 2 9) = 2%nat.
Proof.
  apply (indicator_output_lengths (highsOf exampleBars) (lowsOf exampleBars)
           (closesOf exampleBars) (closesOf exampleBars) 3 2 1 2 9 1
           (Fin 0.02) (Fin 0.2)); try reflexivity.
  lia.
Defined.

End IndicatorFacts.

(** ** Order service and ledger: submission, cancellation, store *)

Module ServicesFacts.

Import Services ServicesCases ServicesMore ServicesMoreCases ServicesSpec.
Local Open Scope Q_scope.

Section Orders.

Variable recalculatePortfolio : Portfolio.t -> Portfolio.t.
Variable loadPositions : Database -> string -> list Position.t.
Variable savePortfolio : Portfolio.t -> Database -> Database.
Variable saveTrade : Trade.t -> Database -> Database.

Abbreviation getPortfolio := (getPortfolio loadPositions).
Abbreviation validateOrder := (validateOrder loadPositions).
Abbreviation executeOrder :=
  (executeOrder recalculatePortfolio loadPositions savePortfolio saveTrade).

(** X18: a request of type stop that passes validation is never
    accepted: [executeOrder] does not pass the stop price on to the
    exchange adapter, whose own check then fails, so the order is stored
    as rejected (with the adapter's message, or the not-initialised
    message for an unknown exchange) and the report is a failure. *)
Theorem stop_orders_are_rejected_on_submission w rq :
  OrderRequest.type rq = stop ->
  OrderValidation.valid (snd (validateOrder w rq)) = true ->
  let result := executeOrder w rq in
  let w' := fst (fst result) in
  let report := snd (fst result) in
  exists order,
    orders w' !! ExecutionReport.orderId report = Some order
    /\ Order.status order = rejected
    /\ Order.rejectionReason order
       = Some (if bool_decide (OrderRequest.exchange rq ∈ exchanges w)
               then stopRejection
               else notInitialized (OrderRequest.exchange rq))
    /\ Order.stopPrice order = OrderRequest.stopPrice rq
    /\ ExecutionReport.status report = failed.
Proof.
  intros Htype Hvalid result w' report.
  destruct (validateOrder_valid loadPositions w rq Hvalid)
    as (portfolio & Hget & Hbasic & _).
  destruct (basicErrors_nil rq Hbasic) as [Hsym Hqty].
  subst result w' report. unfold Services.executeOrder.
  destruct (validateOrder w rq) as [w1 validation]. cbn [fst snd] in *.
  rewrite Hvalid. cbn [negb].
  destruct (getPortfolio_found loadPositions savePortfolio w _ w1 portfolio Hget)
    as (Hpf & Hexch & _).
  unfold createOrder, placeOrder. cbn [exchanges tick set_nextId
    set_pendingOrders commit set_orders].
  rewrite Hexch.
  destruct (bool_decide (OrderRequest.exchange rq ∈ exchanges w)).
  - unfold exchangeValidateOrder.
    cbn [ExchangeOrderRequest.symbol ExchangeOrderRequest.amount
         ExchangeOrderRequest.type ExchangeOrderRequest.stopPrice].
    rewrite Hsym, Hqty, Htype. cbn [missingOrNonPositive JS.falsy orb].
    cbn [fst snd]. eexists. split; [cbn; apply lookup_insert_eq|].
    repeat split.
  - cbn [fst snd]. eexists. split; [cbn; apply lookup_insert_eq|].
    repeat split.
Qed.

Lemma getPortfolio_frame w portfolioId :
  let w1 := fst (getPortfolio w portfolioId) in
  orders w1 = orders w /\ pendingOrders w1 = pendingOrders w
  /\ database w1 = database w /\ exchanges w1 = exchanges w
  /\ nextId w1 = nextId w /\ now w1 = now w
  /\ orderEvents w1 = orderEvents w
  /\ executionEvents w1 = executionEvents w
  /\ portfolioEvents w1 = portfolioEvents w.
Proof.
  unfold Services.getPortfolio.
  destruct (portfolios w !! portfolioId); [cbn; tauto|].
  destruct (portfoliosTable (database w) !! portfolioId); cbn; tauto.
Qed.

(** X19: when a validated request fails at submission, the rejected
    order is left in the pending map: [getPendingOrders] still lists it
    and [cancelOrder] on it returns false and changes nothing. *)
Theorem rejected_orders_stay_pending w rq :
  OrderValidation.valid (snd (validateOrder w rq)) = true ->
  let result := executeOrder w rq in
  let w' := fst (fst result) in
  let report := snd (fst result) in
  ExecutionReport.status report = failed ->
  exists order,
    orders w' !! ExecutionReport.orderId report = Some order
    /\ Order.status order = rejected
    /\ ExecutionReport.orderId report ∈ pendingOrders w'
    /\ order ∈ getPendingOrders w'
    /\ cancelOrder w' (ExecutionReport.orderId report) = (w', false).
Proof.
  intros Hvalid result w' report. subst result w' report.
  unfold Services.executeOrder.
  destruct (validateOrder w rq) as [w1 validation]. cbn [fst snd] in *.
  rewrite Hvalid. cbn [negb]. unfold createOrder.
  destruct (placeOrder _ _ _) as [[w3 exchangeOrderId]|message] eqn:Hplace.
  - destruct (isMarket (OrderRequest.type rq)).
    + destruct (Services.processExecution _ _ _ _ _ _ _ _)
        as [[w4 order] children]. cbn [fst snd].
      unfold reportOf. cbn [ExecutionReport.status].
      destruct (OrderStatus_eqb _ _); discriminate.
    + cbn [fst snd]. unfold reportOf. cbn [ExecutionReport.status].
      destruct (OrderStatus_eqb _ _); discriminate.
  - intros _. cbn [fst snd failedReport ExecutionReport.orderId].
    set (order := Order.set_updatedAt _ _).
    change (Order.id order) with (freshId "order_" w1).
    set (w' := notifySubscribers _ _).
    assert (Horder : orders w' !! freshId "order_" w1 = Some order)
      by (subst w'; cbn; apply lookup_insert_eq).
    assert (Hpending : freshId "order_" w1 ∈ pendingOrders w')
      by (subst w'; cbn; apply elem_of_union_l, elem_of_singleton;
          reflexivity).
    exists order. split; [exact Horder|]. split; [reflexivity|].
    split; [exact Hpending|]. split.
    + unfold getPendingOrders. apply list_elem_of_omap.
      exists (freshId "order_" w1). split; [|exact Horder].
      apply elem_of_elements. exact Hpending.
    + unfold cancelOrder. rewrite Horder. reflexivity.
Qed.

Lemma basicErrors_limit_price rq :
  basicErrors rq = [] -> isLimitType (OrderRequest.type rq) = true ->
  missingOrNonPositive (OrderRequest.price rq) = false.
Proof.
  unfold basicErrors. intros H Hty.
  apply app_nil_inv in H as [_ H]. apply app_nil_inv in H as [_ H].
  apply app_nil_inv in H as [H _]. rewrite Hty in H.
  destruct (missingOrNonPositive _); [discriminate | reflexivity].
Qed.

(** X20: a validated limit or stop-limit request on an initialised
    exchange leaves a submitted order with nothing filled, in memory, in
    the pending map and in the store, yet its execution report has status
    partial with the partially-executed message, executed quantity 0 and
    no fills; no child order is placed and no portfolio changes. *)
Theorem resting_orders_are_reported_partial w rq :
  OrderRequest.type rq = limit \/ OrderRequest.type rq = stop_limit ->
  OrderValidation.valid (snd (validateOrder w rq)) = true ->
  OrderRequest.exchange rq ∈ exchanges w ->
  let result := executeOrder w rq in
  let w' := fst (fst result) in
  let report := snd (fst result) in
  exists order row,
    orders w' !! ExecutionReport.orderId report = Some order
    /\ Order.status order = submitted
    /\ Order.filledQuantity order = Fin 0
    /\ Order.remainingQuantity order = OrderRequest.quantity rq
    /\ ExecutionReport.orderId report ∈ pendingOrders w'
    /\ ordersTable (database w') !! ExecutionReport.orderId report = Some row
    /\ OrderRow.status row = submitted
    /\ ExecutionReport.status report = partial
    /\ ExecutionReport.message report = PartiallyExecuted
    /\ ExecutionReport.executedQuantity report = Fin 0
    /\ ExecutionReport.fills report = []
    /\ snd result = []
    /\ (forall key p,
          portfolios w !! key = Some p -> portfolios w' !! key = Some p).
Proof.
  intros Htype Hvalid Hex result w' report.
  assert (Hresting : isMarket (OrderRequest.type rq) = false)
    by (destruct Htype as [-> | ->]; reflexivity).
  pose proof (executeOrder_resting recalculatePortfolio loadPositions
                savePortfolio saveTrade w rq Hresting) as [Hchildren Hkeep].
  destruct (validateOrder_valid loadPositions w rq Hvalid)
    as (portfolio & Hget & Hbasic & _).
  destruct (basicErrors_nil rq Hbasic) as [Hsym Hqty].
  subst result w' report. revert Hchildren Hkeep.
  unfold Services.executeOrder.
  destruct (validateOrder w rq) as [w1 validation]. cbn [fst snd] in *.
  rewrite Hvalid. cbn [negb].
  destruct (getPortfolio_found loadPositions savePortfolio w _ w1 portfolio
              Hget) as (Hpf & Hexch & _).
  unfold createOrder, placeOrder. cbn [exchanges tick set_nextId
    set_pendingOrders commit set_orders].
  rewrite Hexch, bool_decide_eq_true_2 by exact Hex.
  unfold exchangeValidateOrder.
  cbn [ExchangeOrderRequest.symbol ExchangeOrderRequest.amount
       ExchangeOrderRequest.type ExchangeOrderRequest.price].
  rewrite Hsym, Hqty, Hresting.
  assert (Hprice : OrderRequest.type rq = limit ->
                   missingOrNonPositive (OrderRequest.price rq) = false).
  { intros Hty. apply (basicErrors_limit_price rq Hbasic). now rewrite Hty. }
  destruct Htype as [Hty | Hty]; rewrite Hty; [rewrite (Hprice Hty)|];
    cbn [fst snd]; intros Hchildren Hkeep;
    (eexists; eexists;
     split; [cbn; apply lookup_insert_eq|];
     split; [reflexivity|]; split; [reflexivity|]; split; [reflexivity|];
     split; [cbn; apply elem_of_union_l, elem_of_singleton; reflexivity|];
     split; [cbn; apply lookup_insert_eq|];
     split; [reflexivity|]; split; [reflexivity|]; split; [reflexivity|];
     split; [reflexivity|]; split; [reflexivity|];
     split; [exact Hchildren | exact Hkeep]).
Qed.

(** X21: a request that fails validation leaves no trace: the report
    is a failure with an empty order id and the validation errors, and the
    orders, the pending map, the store and the events emitted are as
    before. *)
Theorem invalid_requests_leave_no_order w rq :
  OrderValidation.valid (snd (validateOrder w rq)) = false ->
  let result := executeOrder w rq in
  let w' := fst (fst result) in
  let report := snd (fst result) in
  ExecutionReport.status report = failed
  /\ ExecutionReport.orderId report = ""%string
  /\ ExecutionReport.message report
     = ValidationFailed (OrderValidation.errors (snd (validateOrder w rq)))
  /\ snd result = []
  /\ orders w' = orders w /\ pendingOrders w' = pendingOrders w
  /\ database w' = database w
  /\ orderEvents w' = orderEvents w
  /\ executionEvents w' = executionEvents w.
Proof.
  intros Hvalid result w' report. subst result w' report.
  pose proof (validateOrder_world loadPositions w rq) as Hw.
  pose proof (getPortfolio_frame w (OrderRequest.portfolioId rq)) as Hframe.
  cbv zeta in Hframe. rewrite <- Hw in Hframe.
  unfold Services.executeOrder.
  destruct (validateOrder w rq) as [w1 validation]. cbn [fst snd] in *.
  rewrite Hvalid. cbn [negb fst snd]. unfold failedReport.
  cbn [ExecutionReport.status ExecutionReport.orderId
       ExecutionReport.message]. tauto.
Qed.

End Orders.

Lemma stop_orders_are_rejected_on_submission_witness :
  exists order,
    orders (fst (fst (run binanceWorld protectiveStop)))
      !! ExecutionReport.orderId (snd (fst (run binanceWorld protectiveStop)))
    = Some order
    /\ Order.status order = rejected
    /\ ExecutionReport.status (snd (fst (run binanceWorld protectiveStop)))
       = failed.
Proof.
  destruct (stop_orders_are_rejected_on_submission recalculateFromSpec
              noPositions keepDatabase keepDatabase binanceWorld
              protectiveStop eq_refl ltac:(vm_compute; reflexivity))
    as (order & Horder & Hstatus & _ & _ & Hreport).
  exists order. auto.
Defined.

Lemma rejected_orders_stay_pending_witness :
  exists order,
    orders (fst (fst (run noExchangeWorld marketBuy)))
      !! ExecutionReport.orderId (snd (fst (run noExchangeWorld marketBuy)))
    = Some order
    /\ Order.status order = rejected
    /\ order ∈ getPendingOrders (fst (fst (run noExchangeWorld marketBuy))).
Proof.
  destruct (rejected_orders_stay_pending recalculateFromSpec noPositions
              keepDatabase keepDatabase noExchangeWorld marketBuy
              ltac:(vm_compute; reflexivity) ltac:(vm_compute; reflexivity))
    as (order & Horder & Hstatus & _ & Hpending & _).
  exists order. auto.
Defined.

Lemma resting_orders_are_reported_partial_witness :
  ExecutionReport.status (snd (fst (run binanceWorld restingLimit)))
  = partial
  /\ ExecutionReport.executedQuantity
       (snd (fst (run binanceWorld restingLimit))) = Fin 0.
Proof.
  destruct (resting_orders_are_reported_partial recalculateFromSpec
              noPositions keepDatabase keepDatabase binanceWorld
              restingLimit (or_introl eq_refl)
              ltac:(vm_compute; reflexivity)
              ltac:(vm_compute; reflexivity))
    as (order & row & _ & _ & _ & _ & _ & _ & _ & Hstatus & _ & Hquantity
        & _).
  split; [exact Hstatus | exact Hquantity].
Defined.

Lemma invalid_requests_leave_no_order_witness :
  ExecutionReport.status (snd (fst (run binanceWorld emptyBuy))) = failed
  /\ orders (fst (fst (run binanceWorld emptyBuy))) = orders binanceWorld.
Proof.
  destruct (invalid_requests_leave_no_order recalculateFromSpec noPositions
              keepDatabase keepDatabase binanceWorld emptyBuy
              ltac:(vm_compute; reflexivity))
    as (Hstatus & _ & _ & _ & Horders & _).
  split; [exact Hstatus | exact Horders].
Defined.

(** *** Bulk cancellation *)

Lemma cancelOrder_cases w orderId :
  cancelOrder w orderId = (w, false)
  \/ (snd (cancelOrder w orderId) = true
      /\ ~ isCanceled w orderId
      /\ isCanceled (fst (cancelOrder w orderId)) orderId
      /\ (orderId ∉ pendingOrders (fst (cancelOrder w orderId)))
      /\ (forall other,
            isCanceled w other -> isCanceled (fst (cancelOrder w orderId)) other)
      /\ pendingOrders (fst (cancelOrder w orderId)) ⊆ pendingOrders w).
Proof.
  unfold cancelOrder.
  destruct (orders w !! orderId) as [order|] eqn:Horder; [|now left].
  destruct (isCompleted (Order.status order)) eqn:Hdone; [now left|].
  match goal with
  | |- context [match ?c with Ok _ => _ | Throw _ => _ end] => destruct c
  end; [|now left].
  right. cbn [fst snd]. split; [reflexivity|]. split.
  { intros [o [Ho Hs]]. rewrite Horder in Ho. injection Ho as <-.
    rewrite Hs in Hdone. discriminate. }
  split.
  { eexists. split; [cbn; apply lookup_insert_eq | reflexivity]. }
  split.
  { cbn. apply not_elem_of_difference. right. now apply elem_of_singleton. }
  split; [|cbn; apply subseteq_difference_l; reflexivity].
  intros other [o [Ho Hs]]. unfold isCanceled. cbn.
  destruct (decide (orderId = other)) as [->|Hne].
  - rewrite lookup_insert_eq. eexists. split; reflexivity.
  - rewrite lookup_insert_ne by assumption. eauto.
Qed.

Lemma cancelOrders_invariant (ids : list string) w outcome :
  List.NoDup (CancelResult.successful outcome) ->
  Forall (fun orderId => isCanceled w orderId /\ orderId ∉ pendingOrders w)
         (CancelResult.successful outcome) ->
  let result :=
    fold_left
      (fun '(w, outcome) orderId =>
         let '(w, wasCanceled) := cancelOrder w orderId in
         (w,
          if wasCanceled
          then {| CancelResult.successful :=
                    CancelResult.successful outcome ++ [orderId];
                  CancelResult.failed := CancelResult.failed outcome |}
          else {| CancelResult.successful := CancelResult.successful outcome;
                  CancelResult.failed :=
                    CancelResult.failed outcome ++ [orderId] |}))
      ids (w, outcome) in
  List.NoDup (CancelResult.successful (snd result))
  /\ Forall (fun orderId => isCanceled (fst result) orderId
                            /\ orderId ∉ pendingOrders (fst result))
            (CancelResult.successful (snd result))
  /\ CancelResult.successful (snd result) ++ CancelResult.failed (snd result)
     ≡ₚ CancelResult.successful outcome ++ CancelResult.failed outcome ++ ids.
Proof.
  revert w outcome. induction ids as [|orderId ids IH]; intros w outcome Hnd Hall.
  - cbn. rewrite app_nil_r. auto.
  - cbn [fold_left].
    destruct (cancelOrder_cases w orderId)
      as [Hfail | (Hok & Hnot & Hnow & Hpend & Hothers & Hsub)].
    + rewrite Hfail.
      match goal with
      | |- context [fold_left _ ids (w, ?o)] =>
          destruct (IH w o Hnd Hall) as (H1 & H2 & H3)
      end.
      split; [exact H1|]. split; [exact H2|].
      rewrite H3. cbn [CancelResult.successful CancelResult.failed].
      rewrite <- !app_assoc. reflexivity.
    + destruct (cancelOrder w orderId) as [w2 wasCanceled].
      cbn [fst snd] in *. subst wasCanceled.
      match goal with
      | |- context [fold_left _ ids (w2, ?o)] =>
          destruct (IH w2 o) as (H1 & H2 & H3)
      end.
      * cbn [CancelResult.successful].
        apply NoDup_ListNoDup, NoDup_app. repeat split.
        -- now apply NoDup_ListNoDup.
        -- intros x Hx Hx'. apply list_elem_of_singleton in Hx'. subst x.
           rewrite Forall_forall in Hall. apply Hnot. now apply Hall.
        -- apply NoDup_singleton.
      * cbn [CancelResult.successful]. apply Forall_app_2.
        -- eapply Forall_impl; [exact Hall|]. cbn. intros x [Hx Hp].
           split; [now apply Hothers|]. intros Hin. now apply Hp, Hsub.
        -- constructor; [now split | constructor].
      * split; [exact H1|]. split; [exact H2|].
        rewrite H3. cbn [CancelResult.successful CancelResult.failed].
        rewrite <- !app_assoc. apply Permutation_app_head.
        rewrite (Permutation_app_comm [orderId]).
        rewrite <- app_assoc. apply Permutation_app_head.
        apply Permutation_app_comm.
Qed.

(** X22: [cancelOrders] files every id of its input, with its
    multiplicity, under exactly one of successful and failed; no id is
    successful twice, and every successful id names an order that is now
    canceled and no longer pending. *)
Theorem cancelOrders_partitions_its_input (w : World) (orderIds : list string) :
  let result := cancelOrders w orderIds in
  let successful := CancelResult.successful (snd result) in
  let failed := CancelResult.failed (snd result) in
  successful ++ failed ≡ₚ orderIds
  /\ List.NoDup successful
  /\ Forall (fun orderId =>
               isCanceled (fst result) orderId
               /\ orderId ∉ pendingOrders (fst result)) successful.
Proof.
  intros result successful failed. subst result successful failed.
  unfold cancelOrders.
  destruct (cancelOrders_invariant orderIds w
              {| CancelResult.successful := []; CancelResult.failed := [] |})
    as (H1 & H2 & H3); [constructor | constructor |].
  split; [exact H3|]. split; [exact H1 | exact H2].
Qed.

(** *** Validation and the risk engine *)

Lemma gt_weaken (x : num) (m : Q) :
  (x >? Fin 10)%num = true -> m <= 10 -> (x >? Fin m)%num = true.
Proof.
  unfold JS.gt, JS.lt. destruct x as [y| | |]; try discriminate; auto.
  intros H Hm. apply Qltb_iff in H. apply Qltb_true. lra.
Qed.

Lemma zero_cost_percent (q tv : num) (z : Q) :
  z == 0 -> ((q * Fin z) / tv * Fin 100 >? Fin 10)%num = false.
Proof.
  intros Hz. unfold JS.gt.
  destruct q as [x| | |].
  - fin_all. destruct tv as [t| | |]; try reflexivity.
    unfold JS.div. destruct (Qeq_bool t 0) eqn:Et.
    + rewrite Qeq_bool_true by (rewrite Hz; ring). reflexivity.
    + fin_all. apply lt_fin_false.
      apply Qeq_bool_neq in Et.
      assert (x * z / t * 100 == 0) by (rewrite Hz; field; assumption).
      lra.
  - unfold JS.mul. rewrite (Qeq_bool_true _ _ Hz). reflexivity.
  - unfold JS.mul. rewrite (Qeq_bool_true _ _ Hz). reflexivity.
  - reflexivity.
Qed.

Lemma falsy_cases (v : num) :
  JS.truthy v = false -> v = NaN \/ exists z, v = Fin z /\ z == 0.
Proof.
  destruct v as [z| | |]; cbn; try discriminate; auto.
  intros H. right. exists z. split; [reflexivity|].
  apply negb_false_iff in H. now apply Qeq_bool_iff.
Qed.

Lemma nan_cost_percent (q tv : num) :
  ((q * NaN) / tv * Fin 100 >? Fin 10)%num = false.
Proof. destruct q; reflexivity. Qed.

Section Validation.

Variable loadPositions : Database -> string -> list Position.t.

(** X23: with a position-size limit of at most 10 percent, a request
    that [validateOrder] flags as a large position (above 10 percent of
    the portfolio value) is never valid, and its risk level is high. *)
Theorem large_orders_never_validate w rq (m : Q) :
  Risk.maxPositionSize (riskLimits w) = Fin m -> m <= 10 ->
  let validation := snd (validateOrder loadPositions w rq) in
  In LargePositionSize
     (riskFactors (OrderValidation.riskAssessment validation)) ->
  OrderValidation.valid validation = false
  /\ riskLevel (OrderValidation.riskAssessment validation) = high.
Proof.
  intros Hlimit Hm validation. subst validation.
  unfold validateOrder.
  destruct (getPortfolio loadPositions w (OrderRequest.portfolioId rq))
    as [w1 [portfolio|]] eqn:Hget; cbn [snd OrderValidation.riskAssessment
      OrderValidation.valid riskFactors riskLevel].
  2: { intros [H|[]]. discriminate. }
  assert (Hlimits : riskLimits w1 = riskLimits w)
    by apply (getPortfolio_found loadPositions (fun _ d => d) w _ w1
                portfolio Hget).
  set (cost := (OrderRequest.quantity rq * estimatedPriceOf rq)%num).
  unfold assessRisk.
  set (percent := (cost / Portfolio.totalValue portfolio * Fin 100)%num).
  destruct (percent >? Fin 10)%num eqn:Hlarge.
  2: { destruct (percent >? Fin 5)%num, (isMarket (OrderRequest.type rq));
       cbn; intros H; repeat (destruct H as [H|H]; try discriminate);
       contradiction. }
  intros _. split.
  2: { destruct (isMarket (OrderRequest.type rq)); reflexivity. }
  assert (Hrisk : riskErrors w1 rq portfolio (estimatedPriceOf rq) <> []).
  { unfold riskErrors, Risk.validateOrder. rewrite Hlimits.
    cbn [Risk.o_size Risk.o_price Risk.o_symbol riskView Risk.totalValue
         Risk.positions].
    destruct (_ >=? _)%num; [discriminate|].
    destruct (JS.truthy (estimatedPriceOf rq)) eqn:Htruthy.
    - cbn [JS.or_else]. rewrite Htruthy. fold cost. fold percent.
      rewrite Hlimit, (gt_weaken percent m Hlarge Hm). discriminate.
    - exfalso. subst percent cost.
      destruct (falsy_cases _ Htruthy) as [E | [z [E Hz]]]; rewrite E in Hlarge.
      + rewrite nan_cost_percent in Hlarge. discriminate.
      + rewrite zero_cost_percent in Hlarge by assumption. discriminate. }
  destruct (basicErrors rq ++ _ ++ riskErrors w1 rq portfolio
                                    (estimatedPriceOf rq)) eqn:E;
    [|reflexivity].
  apply app_nil_inv in E as [_ E]. apply app_nil_inv in E as [_ E].
  contradiction.
Qed.

End Validation.

Lemma large_orders_never_validate_witness :
  OrderValidation.valid (snd (validateOrder noPositions binanceWorld largeBuy))
  = false.
Proof.
  apply (large_orders_never_validate noPositions binanceWorld largeBuy 10
           eq_refl ltac:(lra)).
  vm_compute. auto.
Defined.

(** *** The ledger *)

Lemma find_updateFirst (test : Position.t -> bool) (p p' : Position.t)
    (l : list Position.t) :
  find test l = Some p -> test p' = true ->
  find test (updateFirst test (fun _ => p') l) = Some p'
  /\ length (updateFirst test (fun _ => p') l) = length l.
Proof.
  intros Hfind Hp'. induction l as [|x l IH]; [discriminate|].
  cbn [find updateFirst] in *. destruct (test x) eqn:Ex.
  - cbn [find length]. now rewrite Hp'.
  - cbn [find length]. rewrite Ex. destruct (IH Hfind) as [H1 H2].
    now rewrite H1, H2.
Qed.

Lemma find_hasSymbol (test : Position.t -> bool) (p : Position.t) l :
  find test l = Some p -> test p = true.
Proof. intros H. now apply find_some in H. Qed.

(** X24: a buy of a positive quantity into an existing position of
    positive quantity keeps the position (same id, same number of
    positions), adds the quantity, sets the average price to
    (quantity * avgPrice + tradeQuantity * tradePrice) / newQuantity, and
    leaves the realized profit unchanged. *)
Theorem processTrade_buy_averages newId portfolio trade position
    (a v q x : Q) :
  find (hasSymbol trade) (Portfolio.positions portfolio) = Some position ->
  Trade.side trade = buy ->
  Position.quantity position = Fin a -> Position.avgPrice position = Fin v ->
  Trade.quantity trade = Fin q -> Trade.price trade = Fin x ->
  0 < a -> 0 < q ->
  let portfolio' := processTrade newId portfolio trade in
  exists position' (avg : Q),
    find (hasSymbol trade) (Portfolio.positions portfolio') = Some position'
    /\ Position.id position' = Position.id position
    /\ Position.quantity position' = Fin (a + q)
    /\ Position.avgPrice position' = Fin avg
    /\ avg == (a * v + q * x) / (a + q)
    /\ length (Portfolio.positions portfolio')
       = length (Portfolio.positions portfolio)
    /\ Portfolio.realizedPnL portfolio' = Portfolio.realizedPnL portfolio.
Proof.
  intros Hfind Hside Ha Hv Hq Hx Hapos Hqpos portfolio'. subst portfolio'.
  pose proof (find_hasSymbol _ _ _ Hfind) as Hsym.
  unfold processTrade. unfold hasSymbol in Hfind, Hsym |- *.
  rewrite Hfind, Hside, Ha, Hv, Hq, Hx. fin_all.
  rewrite div_fin by lra.
  cbn [Position.quantity Position.set_lastUpdated Position.set_avgPrice
       Position.set_quantity].
  rewrite eqb_fin_false by lra.
  set (position' := Position.set_lastUpdated _ _).
  destruct (find_updateFirst
              (fun p => String.eqb (Position.symbol p) (Trade.symbol trade))
              position position' (Portfolio.positions portfolio) Hfind Hsym)
    as [Hfound Hlen].
  exists position', ((a * v + q * x) / (a + q)).
  cbn [Portfolio.positions Portfolio.set_cashBalance Portfolio.set_positions
       Portfolio.realizedPnL].
  split; [exact Hfound|]. split; [reflexivity|]. split; [reflexivity|].
  split; [reflexivity|]. split; [reflexivity|].
  split; [exact Hlen | reflexivity].
Qed.

Lemma processTrade_buy_averages_witness :
  exists position' (avg : Q),
    find (hasSymbol buyFive)
         (Portfolio.positions (processTrade "pos_2" applePortfolio buyFive))
    = Some position'
    /\ Position.quantity position' = Fin (10 + 5)
    /\ Position.avgPrice position' = Fin avg
    /\ avg == (10 * 100 + 5 * 130) / (10 + 5).
Proof.
  destruct (processTrade_buy_averages "pos_2" applePortfolio buyFive
              applePosition 10 100 5 130)
    as (position' & avg & H1 & _ & H2 & H3 & H4 & _);
    try reflexivity.
  exists position', avg. auto.
Defined.

(** X25: a sell of a symbol the portfolio does not hold changes no
    position and no realized profit and credits the proceeds once; a sell
    of at least the held quantity removes the position and books realized
    profit on the whole trade quantity, also the part that was not
    held. *)
Theorem processTrade_sell_edges newId portfolio trade :
  Trade.side trade = sell ->
  let portfolio' := processTrade newId portfolio trade in
  (find (hasSymbol trade) (Portfolio.positions portfolio) = None ->
   Portfolio.positions portfolio' = Portfolio.positions portfolio
   /\ Portfolio.realizedPnL portfolio' = Portfolio.realizedPnL portfolio
   /\ Portfolio.cashBalance portfolio'
      = (Portfolio.cashBalance portfolio
         + (Trade.quantity trade * Trade.price trade
            - Trade.commission trade))%num)
  /\ (forall position (a q : Q),
        find (hasSymbol trade) (Portfolio.positions portfolio)
        = Some position ->
        Position.quantity position = Fin a -> Trade.quantity trade = Fin q ->
        a <= q ->
        Forall (fun p => Position.id p <> Position.id position)
               (Portfolio.positions portfolio')
        /\ Portfolio.realizedPnL portfolio'
           = (Portfolio.realizedPnL portfolio
              + Fin q * (Trade.price trade
                         - Position.avgPrice position))%num).
Proof.
  intros Hside portfolio'. subst portfolio'. split.
  - intros Hfind. unfold processTrade. unfold hasSymbol in Hfind.
    rewrite Hfind, Hside. repeat split.
  - intros position a q Hfind Ha Hq Hle.
    unfold processTrade. unfold hasSymbol in Hfind.
    rewrite Hfind, Hside, Ha, Hq. fin_all.
    cbn [Position.quantity Position.set_lastUpdated Position.set_quantity
         Position.id].
    rewrite eqb_fin_true by (rewrite Q.max_l; lra).
    cbn [Portfolio.positions Portfolio.set_cashBalance Portfolio.set_positions
         Portfolio.set_realizedPnL Portfolio.realizedPnL].
    split; [|reflexivity].
    apply Forall_forall. intros p Hp.
    apply list_elem_of_In, filter_In in Hp. destruct Hp as [_ Hp].
    apply negb_true_iff in Hp. intros E. rewrite E in Hp.
    now rewrite String.eqb_refl in Hp.
Qed.

Lemma processTrade_sell_edges_witness :
  Portfolio.positions (processTrade "pos_2" cashPortfolio sellFive)
  = Portfolio.positions cashPortfolio.
Proof.
  apply (processTrade_sell_edges "pos_2" cashPortfolio sellFive);
    reflexivity.
Defined.

(** *** Rebalancing *)

Lemma or_else_positive (x : option num) :
  (JS.or_else x (Fin 0) >? Fin 0)%num = true ->
  exists v, x = Some v /\ JS.or_else x (Fin 0) = v.
Proof.
  destruct x as [v|]; cbn [JS.or_else].
  - destruct (JS.truthy v); [eauto|]. intros H. discriminate.
  - intros H. discriminate.
Qed.

Lemma rebalanceTarget_order portfolio target order :
  In order (rebalanceTarget portfolio target) ->
  exists position,
    held portfolio (AllocationTarget.symbol target) = Some position
    /\ RebalanceOrder.symbol order = AllocationTarget.symbol target
    /\ (Position.currentPrice position >? Fin 0)%num = true
    /\ (RebalanceOrder.estimatedValue order
        >? Portfolio.totalValue portfolio * Fin 0.01)%num = true.
Proof.
  unfold rebalanceTarget, held.
  set (currentPosition := find _ _).
  destruct (_ >? _ * Fin 0.01)%num eqn:Hgap; [|intros []].
  destruct (_ >? Fin 0)%num eqn:Hprice; [|intros []].
  intros [<-|[]].
  destruct (or_else_positive _ Hprice) as [price [Hsome Hvalue]].
  rewrite Hvalue in *.
  destruct currentPosition as [position|]; [|discriminate].
  cbn in Hsome. injection Hsome as <-.
  exists position. split; [reflexivity|]. split; [reflexivity|].
  split; [exact Hprice | exact Hgap].
Qed.

Section Rebalancing.

Variable loadPositions : Database -> string -> list Position.t.

(** X26: every order that [rebalance] returns belongs to a portfolio that
    exists (there is none for an unknown portfolio) and to one of the
    targets, whose symbol the portfolio holds at a positive current
    price; the estimated value of the order is more than 1 percent of
    the portfolio value.  There is at most one order per target. *)
Theorem rebalance_trades_held_assets_only w portfolioId targets order :
  let result := snd (rebalance loadPositions w portfolioId targets) in
  In order result ->
  (length result <= length targets)%nat
  /\ exists portfolio target position,
       snd (getPortfolio loadPositions w portfolioId) = Some portfolio
       /\ In target targets
       /\ held portfolio (AllocationTarget.symbol target) = Some position
       /\ RebalanceOrder.symbol order = AllocationTarget.symbol target
       /\ (Position.currentPrice position >? Fin 0)%num = true
       /\ (RebalanceOrder.estimatedValue order
           >? Portfolio.totalValue portfolio * Fin 0.01)%num = true.
Proof.
  intros result. subst result. unfold rebalance.
  destruct (getPortfolio loadPositions w portfolioId) as [w1 [portfolio|]];
    cbn [snd]; [|intros []].
  intros Hin. split.
  - clear Hin. induction targets as [|target rest IH]; [reflexivity|].
    cbn [flat_map length]. rewrite length_app.
    assert (length (rebalanceTarget portfolio target) <= 1)%nat.
    { unfold rebalanceTarget. repeat destruct (_ >? _)%num; cbn; lia. }
    lia.
  - apply in_flat_map in Hin. destruct Hin as [target [Htarget Horder]].
    destruct (rebalanceTarget_order _ _ _ Horder) as [position H].
    exists portfolio, target, position. tauto.
Qed.

End Rebalancing.

Lemma rebalance_trades_held_assets_only_witness :
  exists order portfolio position,
    In order (snd (rebalance noPositions appleWorld "pf" [appleTarget]))
    /\ snd (getPortfolio noPositions appleWorld "pf") = Some portfolio
    /\ held portfolio "AAPL" = Some position
    /\ RebalanceOrder.symbol order = "AAPL"%string.
Proof.
  destruct (snd (rebalance noPositions appleWorld "pf" [appleTarget]))
    as [|order rest] eqn:E; [vm_compute in E; discriminate|].
  assert (Hin : In order
                  (snd (rebalance noPositions appleWorld "pf" [appleTarget])))
    by (rewrite E; now left).
  destruct (rebalance_trades_held_assets_only noPositions appleWorld "pf"
              [appleTarget] order Hin)
    as (_ & portfolio & target & position & Hget & Htarget & Hheld & Hsym
        & _).
  destruct Htarget as [<-|[]].
  exists order, portfolio, position. split; [now left|].
  split; [exact Hget|]. split; [exact Hheld | exact Hsym].
Defined.

(** *** The store *)

Lemma or_else_zero_default (v : num) :
  v <> NaN -> JS.or_else (Some v) (Fin 0) ≡ v.
Proof.
  intros H. destruct v as [z| | |]; try reflexivity; [|contradiction].
  apply or_else_fin.
Qed.

(** X27: an order saved with [saveOrder] and read back by [getOrder]
    in a new session has all the fields of the original, numbers up to
    the representation of the rational, except the fills, which come back
    empty; this for an order whose fill totals and commission are not
    NaN, whose remaining quantity is neither zero nor NaN and whose
    filledAt is not the epoch. *)
Theorem saved_order_reloads_without_fills (w : World) (order : Order.t) :
  Order.filledQuantity order <> NaN -> Order.avgFillPrice order <> NaN ->
  Order.totalFillValue order <> NaN -> Order.commission order <> NaN ->
  JS.truthy (Order.remainingQuantity order) = true ->
  Order.filledAt order <> Some 0%Z ->
  let reloaded := mapDatabaseToOrder (orderToRow order) in
  snd (getOrder (newSession (saveOrder order w)) (Order.id order))
  = Some reloaded
  /\ sameOrder reloaded (Order.set_fills [] order).
Proof.
  intros Hf Ha Ht Hc Hr Hat reloaded. subst reloaded. split.
  - unfold getOrder, newSession, saveOrder. cbn.
    rewrite lookup_empty, lookup_insert_eq. reflexivity.
  - unfold sameOrder, mapDatabaseToOrder, orderToRow. cbn.
    rewrite Hr.
    repeat split; try reflexivity; try (now apply or_else_zero_default).
    destruct (Order.filledAt order) as [t|]; [|reflexivity].
    cbn. destruct (Z.eqb_spec t 0) as [->|Hne]; [contradiction|reflexivity].
Qed.

Lemma saved_order_reloads_without_fills_witness :
  sameOrder (mapDatabaseToOrder (orderToRow (restingOrder submitted)))
            (Order.set_fills [] (restingOrder submitted)).
Proof.
  apply (saved_order_reloads_without_fills binanceWorld
           (restingOrder submitted)); try discriminate. reflexivity.
Defined.

End ServicesFacts.
